(** * py-package-updater: the compatibility search engine and its sandbox

    A shallow embedding of [package_updater/environment_manager.py],
    [package_updater/package_manager.py], [package_updater/test_discovery.py],
    [package_updater/update_tester.py], [package_updater/file_updater.py]
    and the update selection of [package_updater/__main__.py].

    Python code that touches the outside world (the registry, the file system,
    [venv], [pip], the interpreter) is written in a state-and-exception monad
    over an abstract world [W]; the outside world itself is a record of
    oracles, so every statement below holds for every behaviour of the
    collaborators unless a hypothesis says otherwise. *)

From Stdlib Require Import Ascii String ZArith.
From stdpp Require Import base option list gmap strings sorting.

Local Open Scope string_scope.
Local Open Scope list_scope.

(** ** Exceptions

    Only subclasses of Python's [Exception] are modelled: these are what
    [except Exception] catches.  An exit of the interpreter ([SystemExit],
    which [venv.create] raises through [sys.exit] when it cannot bootstrap
    pip) and [KeyboardInterrupt] derive from [BaseException] alone, pass
    every handler of this code and are not part of the embedding: a
    statement that a function returns is a statement about collaborators
    that return or raise an [Exception].  [exn_str] is [str(e)]. *)

Inductive exn : Type :=
| RequestException (msg : string)
| InvalidVersion (msg : string)
| CalledProcessError (msg stderr : string)
| JSONDecodeError (msg : string)
| KeyError (key : string)
| OtherException (msg : string).

Definition exn_str (e : exn) : string :=
  match e with
  | RequestException msg => msg
  | InvalidVersion msg => msg
  | CalledProcessError msg _ => msg
  | JSONDecodeError msg => msg
  | KeyError key => "'" +:+ key +:+ "'"
  | OtherException msg => msg
  end.

Definition is_RequestException (e : exn) : bool :=
  match e with RequestException _ => true | _ => false end.

Definition is_InvalidVersion (e : exn) : bool :=
  match e with InvalidVersion _ => true | _ => false end.

Definition is_JSONDecodeError (e : exn) : bool :=
  match e with JSONDecodeError _ => true | _ => false end.

(** [except Exception] *)
Definition any_Exception (e : exn) : bool := true.

(** ** The monad: a computation returns or raises, and moves the world *)

Inductive outcome (A : Type) : Type :=
| Ret (a : A)
| Raise (e : exn).
Arguments Ret {A} a.
Arguments Raise {A} e.

Definition M (W A : Type) : Type := W -> outcome A * W.

Definition ret {W A} (a : A) : M W A := fun w => (Ret a, w).

Definition raise {W A} (e : exn) : M W A := fun w => (Raise e, w).

Definition lift {W A} (o : outcome A) : M W A := fun w => (o, w).

Definition bind {W A B} (m : M W A) (k : A -> M W B) : M W B :=
  fun w =>
    match m w with
    | (Ret a, w') => k a w'
    | (Raise e, w') => (Raise e, w')
    end.

(** [try: body  except <classes> as e: handler e] *)
Definition try_except {W A} (body : M W A) (classes : exn -> bool)
    (handler : exn -> M W A) : M W A :=
  fun w =>
    match body w with
    | (Ret a, w') => (Ret a, w')
    | (Raise e, w') => if classes e then handler e w' else (Raise e, w')
    end.

(** [try: body  finally: cleanup]: the cleanup runs on every exit path; an
    exception of the cleanup replaces the result of the body. *)
Definition try_finally {W A} (body : M W A) (cleanup : M W unit) : M W A :=
  fun w =>
    match body w with
    | (r, w') =>
        match cleanup w' with
        | (Ret _, w'') => (r, w'')
        | (Raise e, w'') => (Raise e, w'')
        end
    end.

Declare Scope py_scope.
Delimit Scope py_scope with py.
Notation "'let!' x ':=' m 'in' k" := (bind m (fun x => k))
  (at level 10, x binder, m at level 100, k at level 200) : py_scope.
Local Open Scope py_scope.

(** ** Python strings *)

(** [str.lower] on ASCII text (package names are ASCII: the manifest reader
    strips every other character). *)
Definition lower_ascii (c : ascii) : ascii :=
  let n := nat_of_ascii c in
  if (65 <=? n)%nat && (n <=? 90)%nat then ascii_of_nat (n + 32) else c.

Fixpoint lower (s : string) : string :=
  match s with
  | EmptyString => EmptyString
  | String c s' => String (lower_ascii c) (lower s')
  end.

(** Truth value of an [Optional[str]]: [None] and [""] are false. *)
Definition truthy (o : option string) : bool :=
  match o with
  | None => false
  | Some s => negb (String.eqb s "")
  end.

Fixpoint startswith (p s : string) : bool :=
  match p, s with
  | EmptyString, _ => true
  | String a p', String b s' => Ascii.eqb a b && startswith p' s'
  | String _ _, EmptyString => false
  end.

Definition endswith (p s : string) : bool :=
  let lp := String.length p in
  let ls := String.length s in
  (lp <=? ls)%nat && String.eqb (String.substring (ls - lp) lp s) p.

(** ** Python dicts that are iterated: insertion-ordered association lists *)

Definition dict (V : Type) : Type := list (string * V).

(** [d.get(k)] *)
Fixpoint dict_get {V} (d : dict V) (k : string) : option V :=
  match d with
  | [] => None
  | (k', v) :: d' => if String.eqb k' k then Some v else dict_get d' k
  end.

(** [list(d)], the keys in insertion order *)
Definition dict_keys {V} (d : dict V) : list string := map fst d.

(** ** The outside world *)

(** What the code reads from a [requests] response: [status_code], and the
    two expressions it evaluates on [response.json()], each of which may
    raise.  [json_info_version] is [response.json()['info']['version']] at
    the annotated type [Optional[str]]; [json_releases_keys] is
    [list(response.json()['releases'].keys())]. *)
Record response : Type := {
  status_code : Z;
  json_info_version : outcome (option string);
  json_releases_keys : outcome (list string);
}.

(** [packaging.version]: [version.parse] (where [None] stands for raising
    [InvalidVersion]) and the comparisons [<] and [>=] of parsed versions. *)
Class Packaging : Type := {
  version : Type;
  version_parse : string -> option version;
  version_lt : version -> version -> bool;
  version_ge : version -> version -> bool;
}.

Class Externals (W : Type) : Type := {
  (** [requests.get(url)] *)
  requests_get : string -> M W response;
  (** [Path.exists()] *)
  path_exists : string -> W -> bool;
  (** [shutil.rmtree(path)] *)
  shutil_rmtree : string -> M W unit;
  (** [venv.create(path, with_pip=True)] *)
  venv_create : string -> M W unit;
  (** [subprocess.run(args, capture_output=True, text=True, check=True)],
      returning [result.stdout]; a non-zero exit raises [CalledProcessError]. *)
  subprocess_run : list string -> M W string;
  (** [with open(path, 'w') as f: f.write(...)] for the given lines *)
  write_lines : string -> list string -> M W unit;
  (** [Path.unlink()] *)
  path_unlink : string -> M W unit;
  (** [json.loads(output)] followed by reading the ['name'] and ['version']
      members of every element, in order *)
  json_loads_packages : string -> outcome (list (string * string));
  (** [os.walk(path)], as the list of [(root, files)] it yields *)
  os_walk : string -> M W (list (string * list string));
}.

(** The attributes fixed at construction. *)
Record Project : Type := {
  project_path : string;
  venv_path : string;
  current_packages : dict (option string);
}.

(** [pathlib]'s [/] *)
Definition path_div (a b : string) : string := a +:+ "/" +:+ b.

(** * environment_manager.py *)

Section EnvironmentManager.
Context {W : Type} {E : Externals W} (P : Project).

Definition python_path : string := path_div (venv_path P) "bin".
Definition pip_path : string := path_div python_path "pip".
Definition python_executable : string := path_div python_path "python".

Definition create_virtual_environment : M W bool :=
  try_except
    (let! ex := (fun w => (Ret (path_exists (venv_path P) w), w)) in
     let! _ := (if ex then shutil_rmtree (venv_path P) else ret tt) in
     let! _ := venv_create (venv_path P) in
     ret true)
    any_Exception
    (fun _ => ret false).

Definition run_pip_command (command : list string) : M W (bool * string) :=
  try_except
    (let! stdout := subprocess_run (pip_path :: command) in
     ret (true, stdout))
    any_Exception
    (fun e =>
       match e with
       | CalledProcessError _ stderr => ret (false, stderr)
       | _ => ret (false, exn_str e)
       end).

Definition install_package (package_name : string) (version : option string)
    : M W bool :=
  let package_spec :=
    if truthy version
    then package_name +:+ "==" +:+ default "" version
    else package_name in
  let! '(success, output) := run_pip_command ["install"; package_spec] in
  ret success.

Definition requirement_line (item : string * option string) : string :=
  let '(package, version) := item in
  if truthy version
  then package +:+ "==" +:+ default "" version
  else package.

Definition install_requirements (requirements : dict (option string))
    : M W bool :=
  let temp_requirements := path_div (venv_path P) "temp_requirements.txt" in
  try_finally
    (let! _ :=
        write_lines temp_requirements (map requirement_line requirements) in
     let! '(success, output) :=
        run_pip_command ["install"; "-r"; temp_requirements] in
     ret success)
    (fun w =>
       if path_exists temp_requirements w
       then path_unlink temp_requirements w
       else (Ret tt, w)).

(** [{pkg['name']: pkg['version'] for pkg in packages}] *)
Definition packages_dict (packages : list (string * string))
    : gmap string string :=
  fold_left (fun d '(name, version) => <[name := version]> d) packages ∅.

Definition get_installed_packages : M W (gmap string string) :=
  let! '(success, output) := run_pip_command ["list"; "--format=json"] in
  if negb success then ret ∅
  else
    try_except
      (let! packages := lift (json_loads_packages output) in
       ret (packages_dict packages))
      is_JSONDecodeError
      (fun _ => ret ∅).

(** [{k.lower() for k in installed.keys()}] *)
Definition lower_keys (installed : gmap string string) : gset string :=
  set_map lower (dom installed).

(** The loop of [verify_installation] over [requirements.items()], against
    a given [installed] mapping.  [installed[package]] raises [KeyError]
    when [package] is not a key. *)
Fixpoint verify_items (installed : gmap string string)
    (items : list (string * option string)) : outcome bool :=
  match items with
  | [] => Ret true
  | (package, version) :: rest =>
      if negb (bool_decide (lower package ∈ lower_keys installed))
      then Ret false
      else if truthy version then
        match installed !! package with
        | None => Raise (KeyError package)
        | Some got =>
            if negb (String.eqb got (default "" version))
            then Ret false
            else verify_items installed rest
        end
      else verify_items installed rest
  end.

Definition verify_installation (requirements : dict (option string))
    : M W bool :=
  let! installed := get_installed_packages in
  lift (verify_items installed requirements).

Definition run_python_command (command : list string) : M W (bool * string) :=
  try_except
    (let! stdout := subprocess_run (python_executable :: command) in
     ret (true, stdout))
    any_Exception
    (fun e =>
       match e with
       | CalledProcessError _ stderr => ret (false, stderr)
       | _ => ret (false, exn_str e)
       end).

End EnvironmentManager.

(** A [for] loop over a list, threading the variables it assigns. *)
Fixpoint for_each {W A S} (body : S -> A -> M W S) (l : list A) (s : S)
    : M W S :=
  match l with
  | [] => ret s
  | x :: l' => let! s' := body s x in for_each body l' s'
  end.

(** * package_manager.py *)

(** ** The manifest reader

    [parse_requirements_txt], on the lines of the file (ASCII text). *)

(** [str.isspace] for one ASCII character *)
Definition is_space (c : ascii) : bool :=
  let n := nat_of_ascii c in
  ((9 <=? n)%nat && (n <=? 13)%nat)
  || ((28 <=? n)%nat && (n <=? 32)%nat).

Fixpoint lstrip (s : string) : string :=
  match s with
  | EmptyString => EmptyString
  | String c s' => if is_space c then lstrip s' else s
  end.

(** [s.rstrip()]: a character stays when it is not a space or when
    something stays behind it. *)
Fixpoint rstrip (s : string) : string :=
  match s with
  | EmptyString => EmptyString
  | String c s' =>
      match rstrip s' with
      | EmptyString => if is_space c then EmptyString else String c EmptyString
      | rest => String c rest
      end
  end.

(** [s.strip()] *)
Definition strip (s : string) : string := rstrip (lstrip s).

(** [sub in s] *)
Fixpoint contains (sub s : string) : bool :=
  startswith sub s
  || match s with
     | EmptyString => false
     | String _ s' => contains sub s'
     end.

(** [s.split(sep)] for a non-empty [sep]: [skip] characters of a separator
    just found are still to be passed over, [piece] is the piece being read. *)
Fixpoint split_from (sep s : string) (skip : nat) (piece : string)
    : list string :=
  match s with
  | EmptyString => [piece]
  | String c s' =>
      match skip with
      | S k => split_from sep s' k piece
      | O =>
          if startswith sep s
          then piece :: split_from sep s' (String.length sep - 1) EmptyString
          else split_from sep s' 0 (piece +:+ String c EmptyString)
      end
  end.

Definition split (sep s : string) : list string :=
  split_from sep s 0 EmptyString.

Fixpoint until_space (s : string) : string :=
  match s with
  | EmptyString => EmptyString
  | String c s' => if is_space c then EmptyString else String c (until_space s')
  end.

(** [s.split()[0]]; there is no first word in a blank string. *)
Definition first_word (s : string) : outcome string :=
  match lstrip s with
  | EmptyString => Raise (OtherException "list index out of range")
  | rest => Ret (until_space rest)
  end.

(** The character class [[a-zA-Z0-9-_.]] *)
Definition name_char (c : ascii) : bool :=
  let n := nat_of_ascii c in
  ((97 <=? n)%nat && (n <=? 122)%nat)
  || ((65 <=? n)%nat && (n <=? 90)%nat)
  || ((48 <=? n)%nat && (n <=? 57)%nat)
  || (n =? 45)%nat || (n =? 95)%nat || (n =? 46)%nat.

(** [re.sub(r'[^a-zA-Z0-9-_.]', '', name)] *)
Fixpoint keep_name_chars (s : string) : string :=
  match s with
  | EmptyString => EmptyString
  | String c s' =>
      if name_char c then String c (keep_name_chars s')
      else keep_name_chars s'
  end.

(** [name, ver = parts] *)
Definition unpack_pair (parts : list string) : outcome (string * string) :=
  match parts with
  | [name; ver] => Ret (name, ver)
  | _ => Raise (OtherException "too many values to unpack (expected 2)")
  end.

(** [d[k] = v]: a key already there keeps its place. *)
Fixpoint dict_set {V} (d : dict V) (k : string) (v : V) : dict V :=
  match d with
  | [] => [(k, v)]
  | (k', v') :: d' =>
      if String.eqb k' k then (k, v) :: d' else (k', v') :: dict_set d' k v
  end.

(** The body of the loop over the lines of the file. *)
Definition parse_requirement_line (packages : dict (option string))
    (line : string) : outcome (dict (option string)) :=
  let line := strip line in
  if negb (String.eqb line "") && negb (startswith "#" line) then
    match
      (if contains ">=" line then
         match unpack_pair (split ">=" line) with
         | Ret (name, ver) => Ret (name, Some ver)
         | Raise e => Raise e
         end
       else if contains "==" line then
         match unpack_pair (split "==" line) with
         | Ret (name, ver) => Ret (name, Some ver)
         | Raise e => Raise e
         end
       else
         match first_word line with
         | Ret name => Ret (name, None)
         | Raise e => Raise e
         end)
    with
    | Raise e => Raise e
    | Ret (name, ver) =>
        let name := keep_name_chars name in
        Ret (dict_set packages (strip name)
               (if truthy ver then Some (strip (default "" ver)) else None))
    end
  else Ret packages.

Fixpoint parse_requirements_lines (lines : list string)
    (packages : dict (option string)) : outcome (dict (option string)) :=
  match lines with
  | [] => Ret packages
  | line :: rest =>
      match parse_requirement_line packages line with
      | Raise e => Raise e
      | Ret packages' => parse_requirements_lines rest packages'
      end
  end.

Definition parse_requirements_txt (lines : list string)
    : outcome (dict (option string)) :=
  parse_requirements_lines lines [].

Section PackageManager.
Context {W : Type} {E : Externals W} {Pk : Packaging}.

Definition pypi_url (package_name : string) : string :=
  "https://pypi.org/pypi/" +:+ package_name +:+ "/json".

Definition get_latest_version (package_name : string)
    : M W (option string) :=
  try_except
    (let! response := requests_get (pypi_url package_name) in
     if (status_code response =? 200)%Z
     then lift (json_info_version response)
     else ret None)
    is_RequestException
    (fun _ => ret None).

(** [version.parse(x)] *)
Definition parse (x : string) : outcome version :=
  match version_parse x with
  | Some v => Ret v
  | None => Raise (InvalidVersion ("Invalid version: '" +:+ x +:+ "'"))
  end.

(** The keys of [sort(key=...)], computed once per element, in order. *)
Fixpoint sort_keys (xs : list string) : outcome (list (version * string)) :=
  match xs with
  | [] => Ret []
  | x :: xs' =>
      match parse x with
      | Raise e => Raise e
      | Ret k =>
          match sort_keys xs' with
          | Raise e => Raise e
          | Ret ks => Ret ((k, x) :: ks)
          end
      end
  end.

(** [list.sort] is stable and compares keys with [<]: every element goes
    behind the earlier elements that are not greater than it. *)
Fixpoint insert_by_key (x : version * string) (l : list (version * string))
    : list (version * string) :=
  match l with
  | [] => [x]
  | y :: l' =>
      if version_lt (fst x) (fst y) then x :: y :: l'
      else y :: insert_by_key x l'
  end.

Definition sort_by_key (l : list (version * string))
    : list (version * string) :=
  fold_left (fun acc x => insert_by_key x acc) l [].

(** [all_versions.sort(key=lambda x: version.parse(x))] *)
Definition sort_versions (all_versions : list string)
    : outcome (list string) :=
  match sort_keys all_versions with
  | Raise e => Raise e
  | Ret ks => Ret (map snd (sort_by_key ks))
  end.

(** [next((i for i, v in enumerate(vs) if parse(v) >= parse(target)), dflt)],
    counting from [i]; the generator parses [v], then [target], element by
    element. *)
Fixpoint first_index_ge (target : string) (vs : list string) (i dflt : nat)
    : outcome nat :=
  match vs with
  | [] => Ret dflt
  | v :: vs' =>
      match parse v with
      | Raise e => Raise e
      | Ret pv =>
          match parse target with
          | Raise e => Raise e
          | Ret pt =>
              if version_ge pv pt then Ret i
              else first_index_ge target vs' (S i) dflt
          end
      end
  end.

(** [l[a:b]] for [0 <= a] and [0 <= b] *)
Definition slice {A} (l : list A) (a b : nat) : list A :=
  take (b - a) (drop a l).

Definition get_version_range (package_name current_version
    latest_version : string) : M W (list string) :=
  try_except
    (let! response := requests_get (pypi_url package_name) in
     if negb (status_code response =? 200)%Z then ret []
     else
       let! all_versions := lift (json_releases_keys response) in
       let! all_versions := lift (sort_versions all_versions) in
       let! current_idx :=
         lift (first_index_ge current_version all_versions 0 0) in
       let! latest_idx :=
         lift (first_index_ge latest_version all_versions 0
                 (length all_versions)) in
       ret (slice all_versions current_idx (latest_idx + 1)))
    (fun e => is_RequestException e || is_InvalidVersion e)
    (fun _ => ret []).

End PackageManager.

(** * test_discovery.py *)

Section TestDiscovery.
Context {W : Type} {E : Externals W} (P : Project).

Definition is_test_file (filename : string) : bool :=
  startswith "test_" filename
  && endswith ".py" filename
  && negb (startswith "__" filename).

(** [os.path.join(root, file)] (POSIX) *)
Definition os_path_join (root file : string) : string :=
  if startswith "/" file then file
  else if String.eqb root "" || endswith "/" root then root +:+ file
  else root +:+ "/" +:+ file.

Definition find_test_files : M W (list string) :=
  let! walked := os_walk (project_path P) in
  ret (flat_map
         (fun '(root, files) =>
            map (os_path_join root) (List.filter is_test_file files))
         walked).

End TestDiscovery.

(** * update_tester.py *)

Record UpdateResult : Type := {
  success : bool;
  old_version : string;
  new_version : string;
  error_message : option string;
  test_output : option string;
}.

Record PackageUpdateStatus : Type := {
  package_name : string;
  current_version : string;
  target_version : string;
  compatible_version : option string;
  tested_versions : list string;
  failed_versions : gmap string (option string);
}.

(** The three variables the candidate loop assigns. *)
Record search : Type := {
  tested : list string;
  failed : gmap string (option string);
  compatible : option string;
}.

Definition search_start : search :=
  {| tested := []; failed := ∅; compatible := None |}.

Section UpdateTester.
Context {W : Type} {E : Externals W} {Pk : Packaging} (P : Project).

(** [self.package_manager.current_packages.get(package_name)] *)
Definition current_packages_get (name : string) : option string :=
  match dict_get (current_packages P) name with
  | Some v => v
  | None => None
  end.

Definition setup_test_environment : M W bool :=
  try_except
    (let! created := create_virtual_environment P in
     if negb created then ret false
     else
       let! installed := install_requirements P (current_packages P) in
       if negb installed then ret false
       else
         let! verified := verify_installation P (current_packages P) in
         if negb verified then ret false
         else ret true)
    any_Exception
    (fun _ => ret false).

Definition run_tests : M W (bool * string) :=
  let! test_files := find_test_files P in
  match test_files with
  | [] => ret (false, "No test files found")
  | _ => run_python_command P ("-m" :: "pytest" :: test_files)
  end.

Definition test_package_update (name version : string) : M W UpdateResult :=
  let current := current_packages_get name in
  if negb (truthy current) then
    ret {| success := false; old_version := "unknown";
           new_version := version;
           error_message :=
             Some ("Package " +:+ name +:+ " not found in current packages");
           test_output := None |}
  else
    let current_version := default "" current in
    try_except
      (let! installed := install_package P name (Some version) in
       if negb installed then
         ret {| success := false; old_version := current_version;
                new_version := version;
                error_message :=
                  Some ("Failed to install " +:+ name +:+ "==" +:+ version);
                test_output := None |}
       else
         let! '(tests_passed, output) := run_tests in
         if negb tests_passed then
           ret {| success := false; old_version := current_version;
                  new_version := version;
                  error_message := Some "Tests failed";
                  test_output := Some output |}
         else
           ret {| success := true; old_version := current_version;
                  new_version := version;
                  error_message := None;
                  test_output := Some output |})
      any_Exception
      (fun e =>
         ret {| success := false; old_version := current_version;
                new_version := version;
                error_message :=
                  Some ("Error during testing: " +:+ exn_str e);
                test_output := None |}).

(** The body of [for version in versions:] *)
Definition try_candidate (name current_version : string) (s : search)
    (version : string) : M W search :=
  if String.eqb version current_version then ret s
  else
    let! _ := setup_test_environment in
    let! result := test_package_update name version in
    let tested_versions := tested s ++ [version] in
    if success result then
      ret {| tested := tested_versions; failed := failed s;
             compatible := Some version |}
    else
      ret {| tested := tested_versions;
             failed := <[version := error_message result]> (failed s);
             compatible := compatible s |}.

Definition find_compatible_update (name : string)
    : M W PackageUpdateStatus :=
  let current := current_packages_get name in
  if negb (truthy current) then
    ret {| package_name := name; current_version := "unknown";
           target_version := "unknown"; compatible_version := None;
           tested_versions := []; failed_versions := ∅ |}
  else
    let current_version := default "" current in
    let! latest := get_latest_version name in
    if negb (truthy latest) then
      ret {| package_name := name; current_version := current_version;
             target_version := "unknown"; compatible_version := None;
             tested_versions := []; failed_versions := ∅ |}
    else
      let latest_version := default "" latest in
      let! versions :=
        get_version_range name current_version latest_version in
      let! s :=
        for_each (try_candidate name current_version) versions
          search_start in
      ret {| package_name := name; current_version := current_version;
             target_version := latest_version;
             compatible_version := compatible s;
             tested_versions := tested s;
             failed_versions := failed s |}.

Definition update_all_packages : M W (gmap string PackageUpdateStatus) :=
  let! ready := setup_test_environment in
  if negb ready then ret ∅
  else
    for_each
      (fun results name =>
         let! status := find_compatible_update name in
         ret (<[name := status]> results))
      (dict_keys (current_packages P)) ∅.

End UpdateTester.

(** * Vocabulary of the statements *)

(** A computation that comes back with a value from every world. *)
Definition returns {W A} (m : M W A) : Prop :=
  forall w, exists a w', m w = (Ret a, w').

Section Vocabulary.
Context {W : Type} {E : Externals W} {Pk : Packaging} (P : Project).

(** One trip round the candidate loop for a version other than the current
    one: reset the sandbox, then try the version. *)
Definition attempt (name version : string) : M W UpdateResult :=
  let! _ := setup_test_environment P in
  test_package_update P name version.

Definition world_after (name version : string) (w : W) : W :=
  snd (attempt name version w).

(** The world in which the loop stands after walking [versions]. *)
Fixpoint walk_world (name current : string) (versions : list string)
    (w : W) : W :=
  match versions with
  | [] => w
  | v :: vs =>
      if String.eqb v current then walk_world name current vs w
      else walk_world name current vs (world_after name v w)
  end.

(** Installing [version] over the reset sandbox succeeds. *)
Definition candidate_installs (name version : string) (w : W) : bool :=
  match install_package P name (Some version)
          (snd (setup_test_environment P w)) with
  | (Ret true, _) => true
  | _ => false
  end.

(** Installing [version] over the reset sandbox succeeds and the test run
    that follows succeeds too. *)
Definition candidate_passes (name version : string) (w : W) : bool :=
  match install_package P name (Some version)
          (snd (setup_test_environment P w)) with
  | (Ret true, w2) =>
      match run_tests P w2 with
      | (Ret (true, _), _) => true
      | _ => false
      end
  | _ => false
  end.

(** The candidates other than [current] that pass, each judged in the
    world the walk has reached when its turn comes, in walk order. *)
Fixpoint passing_candidates (name current : string)
    (versions : list string) (w : W) : list string :=
  match versions with
  | [] => []
  | v :: vs =>
      if String.eqb v current then passing_candidates name current vs w
      else
        (if candidate_passes name v w then [v] else [])
        ++ passing_candidates name current vs (world_after name v w)
  end.

(** The package is pinned to [current], the registry names [latest] as the
    latest version and [versions] as the candidate list, and answering
    took the world from [w] to [w2]. *)
Definition resolves (name : string) (w : W) (current latest : string)
    (versions : list string) (w2 : W) : Prop :=
  current_packages_get P name = Some current /\ current <> "" /\
  exists w1,
    get_latest_version name w = (Ret (Some latest), w1) /\ latest <> "" /\
    get_version_range name current latest w1 = (Ret versions, w2).

(** The record returned for a package whose version is not known. *)
Definition unknown_status (name : string) : PackageUpdateStatus :=
  {| package_name := name; current_version := "unknown";
     target_version := "unknown"; compatible_version := None;
     tested_versions := []; failed_versions := ∅ |}.

(** The loop of [update_all_packages]. *)
Definition evaluate_all (names : list string)
    (results : gmap string PackageUpdateStatus)
    : M W (gmap string PackageUpdateStatus) :=
  for_each
    (fun results name =>
       let! status := find_compatible_update P name in
       ret (<[name := status]> results))
    names results.

(** What holds of the loop variables between two candidates. *)
Definition ledger_ok (s : search) : Prop :=
  (forall v, is_Some (failed s !! v) -> v ∈ tested s) /\
  (forall v, compatible s = Some v ->
             v ∈ tested s /\ failed s !! v = None).

End Vocabulary.

(** The order of the sort, on the keyed elements and on the version strings:
    the first is not above the second. *)
Definition key_le {Pk : Packaging} (a b : version * string) : Prop :=
  version_lt (fst b) (fst a) = false.

Definition not_above {Pk : Packaging} (x y : string) : Prop :=
  exists kx ky,
    version_parse x = Some kx /\ version_parse y = Some ky /\
    version_lt ky kx = false.

(** The keys of a JSON object are distinct: every [releases] listing the
    registry can answer with has no repeated version. *)
Definition releases_keys_distinct {W} (E : Externals W) : Prop :=
  forall url w r w' ks,
    requests_get url w = (Ret r, w') ->
    json_releases_keys r = Ret ks ->
    NoDup ks.

(** Whatever goes wrong with a registry request is a [RequestException] (or,
    while versions are compared, an [InvalidVersion]): a response with status
    200 carries the members the resolver reads. *)
Definition registry_well_formed {W} (E : Externals W) : Prop :=
  forall url w,
    match requests_get url w with
    | (Raise e, _) => is_RequestException e = true
    | (Ret r, _) =>
        status_code r = 200%Z ->
        match json_info_version r with
        | Raise e => is_RequestException e = true
        | Ret _ => True
        end /\
        match json_releases_keys r with
        | Raise e => is_RequestException e || is_InvalidVersion e = true
        | Ret _ => True
        end
    end.

(** ** The sandbox as a state

    [view] reads the installed-package state of the sandbox off a world. *)

Section SandboxState.
Context {W V : Type} {E : Externals W} (P : Project) (view : W -> V).

(** Two runs of [m] agree: same outcome, same sandbox state afterwards. *)
Definition agree {A} (m : M W A) (w1 w2 : W) : Prop :=
  fst (m w1) = fst (m w2) /\ view (snd (m w1)) = view (snd (m w2)).

(** [m] depends on the world through the sandbox state only. *)
Definition respects {A} (m : M W A) : Prop :=
  forall w1 w2, view w1 = view w2 -> agree m w1 w2.

(** The tools that work on the sandbox are deterministic in its state;
    removing an existing sandbox succeeds and leaves none; where there is
    no sandbox there is one installed-package state. *)
Record sandbox_tools : Prop := {
  path_exists_view : forall p w1 w2,
    view w1 = view w2 -> path_exists p w1 = path_exists p w2;
  shutil_rmtree_view : forall p, respects (shutil_rmtree p);
  venv_create_view : forall p, respects (venv_create p);
  subprocess_run_view : forall args, respects (subprocess_run args);
  write_lines_view : forall p ls, respects (write_lines p ls);
  path_unlink_view : forall p, respects (path_unlink p);
  shutil_rmtree_removes : forall w,
    path_exists (venv_path P) w = true ->
    exists w',
      shutil_rmtree (venv_path P) w = (Ret tt, w') /\
      path_exists (venv_path P) w' = false;
  no_sandbox_view : forall w1 w2,
    path_exists (venv_path P) w1 = false ->
    path_exists (venv_path P) w2 = false ->
    view w1 = view w2;
}.

End SandboxState.

(** * A small concrete world

    Two pinned packages: [helper], which the registry does not know, and
    [demo], pinned to 1.0.0, with releases 1.0.0, 1.1.0 and 1.2.0 on the
    registry.  The switches of [behaviour] turn on the failures the
    statements below talk about; in the [healthy] world the project's tests
    break on 1.2.0 and nothing else goes wrong. *)

Module Demo.

Inductive installed : Type :=
| Fresh
| Baseline
| Upgraded (v : string).

Record venv : Type := {
  packages : installed;
  temp_file : bool;
}.

(** [None]: there is no [.venv] directory. *)
Definition world : Type := option venv.

Record behaviour : Type := {
  disk_full : bool;
  registry_answers_in_full : bool;
  project_has_tests : bool;
  latest_breaks_tests : bool;
}.

Definition healthy : behaviour :=
  {| disk_full := false; registry_answers_in_full := true;
     project_has_tests := true; latest_breaks_tests := true |}.

Definition all_green : behaviour :=
  {| disk_full := false; registry_answers_in_full := true;
     project_has_tests := true; latest_breaks_tests := false |}.

Definition no_space : behaviour :=
  {| disk_full := true; registry_answers_in_full := true;
     project_has_tests := true; latest_breaks_tests := true |}.

Definition bare_registry : behaviour :=
  {| disk_full := false; registry_answers_in_full := false;
     project_has_tests := true; latest_breaks_tests := true |}.

Definition untested : behaviour :=
  {| disk_full := false; registry_answers_in_full := true;
     project_has_tests := false; latest_breaks_tests := true |}.

Definition venv_dir : string := "proj/.venv".
Definition temp_path : string := "proj/.venv/temp_requirements.txt".

Definition demo_exists (p : string) (w : world) : bool :=
  match w with
  | None => false
  | Some v =>
      if String.eqb p venv_dir then true
      else if String.eqb p temp_path then temp_file v
      else false
  end.

Definition demo_rmtree (p : string) : M world unit :=
  fun _ => (Ret tt, None).

Definition demo_venv_create (b : behaviour) (p : string) : M world unit :=
  fun w =>
    if disk_full b
    then (Raise (OtherException "No space left on device"), w)
    else (Ret tt, Some {| packages := Fresh; temp_file := false |}).

Definition demo_write (p : string) (ls : list string) : M world unit :=
  fun w =>
    match w with
    | None => (Raise (OtherException "No such file or directory"), w)
    | Some v => (Ret tt, Some {| packages := packages v; temp_file := true |})
    end.

Definition demo_unlink (p : string) : M world unit :=
  fun w =>
    match w with
    | None => (Raise (OtherException "No such file or directory"), w)
    | Some v =>
        (Ret tt, Some {| packages := packages v; temp_file := false |})
    end.

(** The releases [pip] can fetch. *)
Definition known_spec (spec : string) : option string :=
  if String.eqb spec "demo==1.0.0" then Some "1.0.0"
  else if String.eqb spec "demo==1.1.0" then Some "1.1.0"
  else if String.eqb spec "demo==1.2.0" then Some "1.2.0"
  else None.

Definition render (i : installed) : string :=
  match i with
  | Fresh => "fresh"
  | Baseline => "baseline"
  | Upgraded v => "upgraded:" +:+ v
  end.

Definition demo_loads (s : string) : outcome (list (string * string)) :=
  if String.eqb s "fresh" then Ret [("pip", "24.0")]
  else if String.eqb s "baseline" then
    Ret [("pip", "24.0"); ("helper", "0.3"); ("demo", "1.0.0")]
  else if startswith "upgraded:" s then
    Ret [("pip", "24.0"); ("helper", "0.3");
         ("demo", String.substring 9 (String.length s - 9) s)]
  else Raise (JSONDecodeError "Expecting value").

Definition tests_pass (b : behaviour) (i : installed) : bool :=
  match i with
  | Upgraded v => negb (latest_breaks_tests b && String.eqb v "1.2.0")
  | _ => true
  end.

Definition demo_run (b : behaviour) (args : list string) : M world string :=
  fun w =>
    match w with
    | None => (Raise (OtherException "No such file or directory"), w)
    | Some v =>
        match args with
        | [_; a1; a2; a3] =>
            if String.eqb a1 "install" && String.eqb a2 "-r" then
              if temp_file v
              then (Ret "Successfully installed",
                    Some {| packages := Baseline; temp_file := true |})
              else (Raise (CalledProcessError "exit status 1"
                             "Could not open requirements file"), w)
            else if String.eqb a1 "-m" && String.eqb a2 "pytest" then
              if tests_pass b (packages v) then (Ret "1 passed", w)
              else (Raise (CalledProcessError "exit status 1" "1 failed"), w)
            else (Raise (CalledProcessError "exit status 2" "usage"), w)
        | [_; a1; a2] =>
            if String.eqb a1 "install" then
              match known_spec a2 with
              | Some ver =>
                  (Ret "Successfully installed",
                   Some {| packages := Upgraded ver;
                           temp_file := temp_file v |})
              | None =>
                  (Raise (CalledProcessError "exit status 1"
                            "No matching distribution found"), w)
              end
            else if String.eqb a1 "list" then (Ret (render (packages v)), w)
            else (Raise (CalledProcessError "exit status 2" "usage"), w)
        | _ => (Raise (CalledProcessError "exit status 2" "usage"), w)
        end
    end.

Definition demo_walk (b : behaviour) (p : string)
    : M world (list (string * list string)) :=
  fun w =>
    (Ret (if project_has_tests b
          then [("proj", ["helper.py"]);
                ("proj/tests", ["test_sample.py"; "conftest.py"])]
          else [("proj", ["helper.py"; "README.md"])]), w).

Definition demo_get (b : behaviour) (url : string) : M world response :=
  fun w =>
    if negb (registry_answers_in_full b) then
      (Ret {| status_code := 200;
              json_info_version := Raise (KeyError "info");
              json_releases_keys := Raise (KeyError "releases") |}, w)
    else if String.eqb url "https://pypi.org/pypi/demo/json" then
      (Ret {| status_code := 200;
              json_info_version := Ret (Some "1.2.0");
              json_releases_keys := Ret ["1.2.0"; "1.0.0"; "1.1.0"] |}, w)
    else
      (Ret {| status_code := 404;
              json_info_version := Raise (KeyError "info");
              json_releases_keys := Raise (KeyError "releases") |}, w).

Definition externals (b : behaviour) : Externals world :=
  {| requests_get := demo_get b;
     path_exists := demo_exists;
     shutil_rmtree := demo_rmtree;
     venv_create := demo_venv_create b;
     subprocess_run := demo_run b;
     write_lines := demo_write;
     path_unlink := demo_unlink;
     json_loads_packages := demo_loads;
     os_walk := demo_walk b |}.

Definition demo_parse (s : string) : option nat :=
  if String.eqb s "1.0.0" then Some 100
  else if String.eqb s "1.1.0" then Some 110
  else if String.eqb s "1.2.0" then Some 120
  else None.

Definition packaging : Packaging :=
  {| version := nat;
     version_parse := demo_parse;
     version_lt := Nat.ltb;
     version_ge := fun a b => Nat.leb b a |}.

Definition project : Project :=
  {| project_path := "proj"; venv_path := venv_dir;
     current_packages := [("helper", Some "0.3"); ("demo", Some "1.0.0")] |}.

(** The manifest also names a package the installer never lists, so the
    verification of the baseline fails. *)
Definition project_with_ghost : Project :=
  {| project_path := "proj"; venv_path := venv_dir;
     current_packages := [("demo", Some "1.0.0"); ("ghost", Some "0.1")] |}.

(** A manifest that names [loose] without a version. *)
Definition manifest_with_loose : list string :=
  ["demo==1.0.0"; "# tools"; ""; "loose"].

Definition project_with_loose : Project :=
  {| project_path := "proj"; venv_path := venv_dir;
     current_packages :=
       match parse_requirements_txt manifest_with_loose with
       | Ret packages => packages
       | Raise _ => []
       end |}.

End Demo.


(** * More of the code: helpers on strings *)

(** Every character of [s] satisfies [p]. *)
Fixpoint all_chars (p : ascii -> bool) (s : string) : bool :=
  match s with
  | EmptyString => true
  | String c s' => p c && all_chars p s'
  end.

Definition not_space (c : ascii) : bool := negb (is_space c).

(** The characters of a plain version: no space and none of [=], [<], [>]. *)
Definition is_spec_char (c : ascii) : bool :=
  let n := nat_of_ascii c in
  (n =? 61)%nat || (n =? 60)%nat || (n =? 62)%nat.

Definition plain_char (c : ascii) : bool :=
  not_space c && negb (is_spec_char c).

(** A requirement as [install_requirements] may be handed one: a non-empty
    name over [[a-zA-Z0-9-_.]], and no version or a non-empty plain one. *)
Definition plain_requirement (item : string * option string) : Prop :=
  fst item <> "" /\ all_chars name_char (fst item) = true /\
  match snd item with
  | None => True
  | Some v => v <> "" /\ all_chars plain_char v = true
  end.

(** The line feed. *)
Definition nl : string := String (ascii_of_nat 10) EmptyString.

(** The double quote. *)
Definition dquote : string := String (ascii_of_nat 34) EmptyString.

(** The longest prefix of [s] without a character of [stop], and the rest. *)
Fixpoint span_until (stop : ascii -> bool) (s : string) : string * string :=
  match s with
  | EmptyString => (EmptyString, EmptyString)
  | String c s' =>
      if stop c then (EmptyString, s)
      else let '(a, b) := span_until stop s' in (String c a, b)
  end.

(** [pathlib]'s [Path.name]: what follows the last [/]. *)
Fixpoint path_name (p : string) : string :=
  match p with
  | EmptyString => EmptyString
  | String c p' =>
      if contains "/" p' then path_name p'
      else if Ascii.eqb c "/" then p'
      else p
  end.

(** * environment_manager.py, the rest *)

Section EnvironmentCleanup.
Context {W : Type} {E : Externals W} (P : Project).

Definition cleanup : M W unit :=
  try_except
    (let! there := (fun w => (Ret (path_exists (venv_path P) w), w)) in
     if there then shutil_rmtree (venv_path P) else ret tt)
    any_Exception
    (fun _ => ret tt).

End EnvironmentCleanup.

(** * file_updater.py *)

(** [re.match] of the line against [^([^=<>]+)] followed by a group for the
    rest of the line: the first group, when there is a match.  The second
    group takes whatever follows, so the match fails only when the first
    group would be empty. *)
Definition match_requirement (line : string) : option string :=
  match fst (span_until is_spec_char line) with
  | EmptyString => None
  | group1 => Some group1
  end.

(** The body of the loop of [update_requirements_txt], for one line read. *)
Definition update_requirement_line (updates : gmap string string)
    (line : string) : string :=
  let line := strip line in
  if String.eqb line "" || startswith "#" line then line
  else
    match match_requirement line with
    | None => line
    | Some group1 =>
        let package_name := strip group1 in
        match updates !! package_name with
        | Some version => package_name +:+ "==" +:+ version
        | None => line
        end
    end.

Definition update_requirement_lines (updates : gmap string string)
    (lines : list string) : list string :=
  map (update_requirement_line updates) lines.

(** ['\n'.join(new_lines)] *)
Fixpoint join_lines (lines : list string) : string :=
  match lines with
  | [] => EmptyString
  | [l] => l
  | l :: rest => l +:+ nl +:+ join_lines rest
  end.

(** [re.match] of the line against [^([^=<>]+)\s*=\s*], a double quote, one
    or more characters other than the double quote, and a double quote: the
    first group, when there is a match.  The first group runs up to the first
    of [=], [<], [>], which has to be [=]; then come spaces, the quote, at
    least one character that is not a quote, and the closing quote. *)
Definition match_pipfile_entry (line : string) : option string :=
  let '(group1, rest) := span_until is_spec_char line in
  match group1, rest with
  | EmptyString, _ => None
  | _, String c rest' =>
      if Ascii.eqb c "=" then
        match lstrip rest' with
        | String q value =>
            if Ascii.eqb q (ascii_of_nat 34) then
              match span_until (Ascii.eqb (ascii_of_nat 34)) value with
              | (EmptyString, _) => None
              | (_, String _ _) => Some group1
              | (_, EmptyString) => None
              end
            else None
        | EmptyString => None
        end
      else None
  | _, EmptyString => None
  end.

(** The loop of [update_pipfile]; [in_packages_section] is its flag. *)
Fixpoint update_pipfile_lines (updates : gmap string string)
    (in_packages_section : bool) (lines : list string) : list string :=
  match lines with
  | [] => []
  | line :: rest =>
      if String.eqb (strip line) "[packages]" then
        line :: update_pipfile_lines updates true rest
      else if startswith "[" (strip line) then
        line :: update_pipfile_lines updates false rest
      else
        let unchanged :=
          line :: update_pipfile_lines updates in_packages_section rest in
        if in_packages_section then
          match match_pipfile_entry (strip line) with
          | Some group1 =>
              let package_name := strip group1 in
              match updates !! package_name with
              | Some version =>
                  (package_name +:+ " = " +:+ dquote +:+ version +:+ dquote
                   +:+ nl)
                  :: update_pipfile_lines updates in_packages_section rest
              | None => unchanged
              end
          | None => unchanged
          end
        else unchanged
  end.

(** What the file updater needs of the outside world besides
    [path_exists]. *)
Class Files (W : Type) : Type := {
  (** [datetime.now().strftime(...)], the time stamp of a backup *)
  now_stamp : W -> string * W;
  (** [shutil.copy2(src, dst)] *)
  shutil_copy2 : string -> string -> M W unit;
  (** [with open(path, 'r') as f: f.readlines()] *)
  read_lines : string -> M W (list string);
  (** [with open(path, 'w') as f: f.write(text)] *)
  write_file : string -> string -> M W unit;
}.

Section FileUpdater.
Context {W : Type} {E : Externals W} {F : Files W} (project : string).

Definition requirements_file : string := path_div project "requirements.txt".
Definition pipfile : string := path_div project "Pipfile".
Definition backup_dir : string := path_div project "requirement_backups".

(** [path.exists()], at the boolean it returns.  [FileUpdater] calls it
    outside every [try]; an [OSError] that [Path.exists] lets through
    (a directory that may not be searched, say) leaves the function at
    once and is not part of the embedding: the statements about the
    updater are about calls in which the checks return. *)
Definition exists_ (path : string) : M W bool :=
  fun w => (Ret (path_exists path w), w).

Definition _create_backup (file_path : string) : M W (option string) :=
  let! there := exists_ file_path in
  if negb there then ret None
  else
    let! timestamp :=
      (fun w => let '(stamp, w') := now_stamp w in (Ret stamp, w')) in
    let backup_path :=
      path_div backup_dir
        (path_name file_path +:+ "." +:+ timestamp +:+ ".bak") in
    try_except
      (let! _ := shutil_copy2 file_path backup_path in
       ret (Some backup_path))
      any_Exception
      (fun _ => ret None).

Definition _restore_from_backup (backup_path target_path : string)
    : M W bool :=
  try_except
    (let! _ := shutil_copy2 backup_path target_path in ret true)
    any_Exception
    (fun _ => ret false).

Definition update_requirements_txt (updates : gmap string string)
    : M W bool :=
  let! there := exists_ requirements_file in
  if negb there then ret false
  else
    let! backup := _create_backup requirements_file in
    match backup with
    | None => ret false
    | Some backup_path =>
        try_except
          (let! lines := read_lines requirements_file in
           let new_lines := update_requirement_lines updates lines in
           let! _ :=
             write_file requirements_file (join_lines new_lines +:+ nl) in
           ret true)
          any_Exception
          (fun _ =>
             let! _ := _restore_from_backup backup_path requirements_file in
             ret false)
    end.

(** [f.writelines(new_lines)] writes the lines one after the other. *)
Definition concat_lines (lines : list string) : string :=
  fold_right String.append EmptyString lines.

Definition update_pipfile (updates : gmap string string) : M W bool :=
  let! there := exists_ pipfile in
  if negb there then ret false
  else
    let! backup := _create_backup pipfile in
    match backup with
    | None => ret false
    | Some backup_path =>
        try_except
          (let! lines := read_lines pipfile in
           let new_lines := update_pipfile_lines updates false lines in
           let! _ := write_file pipfile (concat_lines new_lines) in
           ret true)
          any_Exception
          (fun _ =>
             let! _ := _restore_from_backup backup_path pipfile in
             ret false)
    end.

Definition update_package_files (updates : gmap string string)
    : M W (gmap string bool) :=
  let results : gmap string bool := ∅ in
  let! there := exists_ requirements_file in
  let! results :=
    (if there then
       let! ok := update_requirements_txt updates in
       ret (<["requirements.txt" := ok]> results)
     else ret results) in
  let! there := exists_ pipfile in
  if there then
    let! ok := update_pipfile updates in
    ret (<["Pipfile" := ok]> results)
  else ret results.

End FileUpdater.

(** * __main__.py *)

(** [filter_updates]; [None] is the missing argument. *)
Definition filter_updates (all_updates : gmap string string)
    (selected_packages : option (list string)) : gmap string string :=
  match selected_packages with
  | None | Some [] => all_updates
  | Some selected =>
      filter (fun kv => fst kv ∈ selected) all_updates
  end.

(** The loop of [main] that builds [updates] from the results. *)
Definition collect_updates (results : gmap string PackageUpdateStatus)
    : gmap string string :=
  omap
    (fun status =>
       if truthy (compatible_version status)
          && negb (bool_decide (compatible_version status
                                = Some (current_version status)))
       then compatible_version status
       else None)
    results.

(** * Vocabulary of the further statements *)

(** Between two candidates: every failure has its reason, and as long as
    nothing passed every tested version is in the ledger. *)
Definition reasons_ok (s : search) : Prop :=
  (forall v reason, failed s !! v = Some reason -> is_Some reason) /\
  (compatible s = None -> forall v, v ∈ tested s -> is_Some (failed s !! v)).

(** The requirement a manifest line stands for once [updates] is applied. *)
Definition updated_requirement (updates : gmap string string)
    (item : string * option string) : string * option string :=
  (fst item,
   match updates !! fst item with
   | Some version => Some version
   | None => snd item
   end).

(** A line as a text file holds it: followed by a line feed. *)
Definition file_line (line : string) : string := line +:+ nl.

(** The parsed version of [v] is below that of [t]: [>=] says no. *)
Definition strictly_below {Pk : Packaging} (v t : string) : Prop :=
  exists kv kt,
    version_parse v = Some kv /\ version_parse t = Some kt /\
    version_ge kv kt = false.

(** The parsed version of [v] reaches that of [t]: [>=] says yes. *)
Definition reaches {Pk : Packaging} (v t : string) : Prop :=
  exists kv kt,
    version_parse v = Some kv /\ version_parse t = Some kt /\
    version_ge kv kt = true.

(** * A small file system

    Files are texts under their paths.  The switches make [shutil.copy2]
    or the writing of a file fail; a failed write leaves the file empty, as
    opening it for writing does. *)

Module FilesDemo.

Definition world : Type := dict string.

Record behaviour : Type := {
  copy_fails : bool;
  write_fails : bool;
}.

Definition sound : behaviour :=
  {| copy_fails := false; write_fails := false |}.



Definition demo_exists (p : string) (w : world) : bool :=
  match dict_get w p with
  | Some _ => true
  | None => false
  end.

Definition unavailable {A} : M world A :=
  fun w => (Raise (OtherException "not available here"), w).

Definition externals : Externals world :=
  {| requests_get := fun _ => unavailable;
     path_exists := demo_exists;
     shutil_rmtree := fun _ => unavailable;
     venv_create := fun _ => unavailable;
     subprocess_run := fun _ => unavailable;
     write_lines := fun _ _ => unavailable;
     path_unlink := fun _ => unavailable;
     json_loads_packages :=
       fun _ => Raise (JSONDecodeError "Expecting value");
     os_walk := fun _ => unavailable |}.

(** The lines of a text, each with its line feed. *)
Fixpoint lines_from (text line : string) : list string :=
  match text with
  | EmptyString =>
      match line with
      | EmptyString => []
      | _ => [line]
      end
  | String c text' =>
      if Ascii.eqb c (ascii_of_nat 10)
      then (line +:+ nl) :: lines_from text' EmptyString
      else lines_from text' (line +:+ String c EmptyString)
  end.

Definition demo_copy (b : behaviour) (src dst : string) : M world unit :=
  fun w =>
    if copy_fails b then (Raise (OtherException "Permission denied"), w)
    else
      match dict_get w src with
      | Some text => (Ret tt, dict_set w dst text)
      | None => (Raise (OtherException "No such file or directory"), w)
      end.

Definition demo_read (p : string) : M world (list string) :=
  fun w =>
    match dict_get w p with
    | Some text => (Ret (lines_from text EmptyString), w)
    | None => (Raise (OtherException "No such file or directory"), w)
    end.

Definition demo_write (b : behaviour) (p text : string) : M world unit :=
  fun w =>
    if write_fails b
    then (Raise (OtherException "No space left on device"),
          dict_set w p EmptyString)
    else (Ret tt, dict_set w p text).

Definition files (b : behaviour) : Files world :=
  {| now_stamp := fun w => ("20240101_120000", w);
     shutil_copy2 := demo_copy b;
     read_lines := demo_read;
     write_file := demo_write b |}.

Definition manifest_text : string :=
  "requests==2.25.1" +:+ nl +:+ "# tools" +:+ nl +:+ "  flask >= 1.0  "
  +:+ nl +:+ "pytest" +:+ nl.

Definition with_manifest : world :=
  [("proj/requirements.txt", manifest_text)].

Definition updates : gmap string string :=
  {["requests" := "2.26.0"; "flask" := "2.0.1"]}.

End FilesDemo.

(** A version parser that rejects the release [1.1.0] of the small
    registry, as [version.parse] rejects a malformed release name. *)
Module PickyDemo.

Definition picky_parse (s : string) : option nat :=
  if String.eqb s "1.1.0" then None else Demo.demo_parse s.

Definition packaging : Packaging :=
  {| version := nat;
     version_parse := picky_parse;
     version_lt := Nat.ltb;
     version_ge := fun a b => Nat.leb b a |}.

End PickyDemo.

(** The small world with a removal that gives up half-way: on an existing
    sandbox [shutil.rmtree] deletes the installed packages and then raises,
    as it does at a file it may not delete. *)
Module StuckDemo.

Definition stuck_rmtree (p : string) : M Demo.world unit :=
  fun w =>
    (Raise (OtherException "Permission denied"),
     match w with
     | Some v =>
         Some {| Demo.packages := Demo.Fresh;
                 Demo.temp_file := Demo.temp_file v |}
     | None => None
     end).

Definition externals : Externals Demo.world :=
  {| requests_get := Demo.demo_get Demo.healthy;
     path_exists := Demo.demo_exists;
     shutil_rmtree := stuck_rmtree;
     venv_create := Demo.demo_venv_create Demo.healthy;
     subprocess_run := Demo.demo_run Demo.healthy;
     write_lines := Demo.demo_write;
     path_unlink := Demo.demo_unlink;
     json_loads_packages := Demo.demo_loads;
     os_walk := Demo.demo_walk Demo.healthy |}.

End StuckDemo.

(** * Properties *)

Section Totality.
Context {W : Type} {E : Externals W} {Pk : Packaging} (P : Project).

Lemma returns_ret {A} (a : A) : returns (W := W) (ret a).
Proof. intros w. by exists a, w. Qed.

Lemma returns_bind {A B} (m : M W A) (k : A -> M W B) :
  returns m -> (forall a, returns (k a)) -> returns (bind m k).
Proof.
  intros Hm Hk w. unfold bind.
  destruct (Hm w) as (a & w' & ->). apply Hk.
Qed.

(** [except Exception] with a handler that returns swallows everything. *)
Lemma returns_try_except_any {A} (body : M W A) (handler : exn -> M W A) :
  (forall e, returns (handler e)) ->
  returns (try_except body any_Exception handler).
Proof.
  intros Hh w. unfold try_except.
  destruct (body w) as [[a|e] w'].
  - by exists a, w'.
  - simpl. apply Hh.
Qed.

Lemma returns_for_each {A S} (body : S -> A -> M W S) (l : list A) :
  (forall s x, returns (body s x)) -> forall s, returns (for_each body l s).
Proof.
  intros Hb. induction l as [|x l IH]; intros s; simpl.
  - apply returns_ret.
  - apply returns_bind; [apply Hb | apply IH].
Qed.

Lemma run_pip_command_returns command : returns (run_pip_command P command).
Proof.
  apply returns_try_except_any. intros []; apply returns_ret.
Qed.

Lemma run_python_command_returns command :
  returns (run_python_command P command).
Proof.
  apply returns_try_except_any. intros []; apply returns_ret.
Qed.

Lemma install_package_returns name version :
  returns (install_package P name version).
Proof.
  apply returns_bind; [apply run_pip_command_returns |].
  intros [? ?]. apply returns_ret.
Qed.

Lemma create_virtual_environment_returns :
  returns (create_virtual_environment P).
Proof. apply returns_try_except_any. intros e. apply returns_ret. Qed.

Lemma setup_test_environment_returns : returns (setup_test_environment P).
Proof. apply returns_try_except_any. intros e. apply returns_ret. Qed.

Lemma test_package_update_returns name version :
  returns (test_package_update P name version).
Proof.
  unfold test_package_update.
  destruct (negb (truthy (current_packages_get P name))).
  - apply returns_ret.
  - apply returns_try_except_any. intros e. apply returns_ret.
Qed.

Lemma try_candidate_returns name current s version :
  returns (try_candidate P name current s version).
Proof.
  unfold try_candidate. destruct (String.eqb version current).
  - apply returns_ret.
  - apply returns_bind; [apply setup_test_environment_returns | intros _].
    apply returns_bind; [apply test_package_update_returns | intros r].
    destruct (success r); apply returns_ret.
Qed.

End Totality.

Section SearchLoop.
Context {W : Type} {E : Externals W} {Pk : Packaging} (P : Project).
Context (name current : string).
Hypothesis pinned : current_packages_get P name = Some current.
Hypothesis pinned_nonempty : current <> "".

Lemma truthy_nonempty (s : string) : s <> "" -> truthy (Some s) = true.
Proof.
  intros Hs. simpl. destruct (String.eqb_spec s ""); [contradiction | done].
Qed.

(** An attempt always comes back with a result, and the result says
    "success" exactly when installation and the test run both succeeded. *)
Lemma attempt_result version w :
  exists r,
    attempt P name version w = (Ret r, world_after P name version w) /\
    success r = candidate_passes P name version w.
Proof.
  unfold world_after, candidate_passes, attempt, bind.
  destruct (setup_test_environment_returns P w) as (b & w1 & ->). simpl.
  unfold test_package_update.
  rewrite pinned, (truthy_nonempty _ pinned_nonempty). simpl.
  unfold try_except, bind.
  destruct (install_package_returns P name (Some version) w1)
    as (ok & w2 & ->).
  destruct ok; simpl; [| by eexists].
  destruct (run_tests P w2) as [[[passed out]|e] w3]; simpl;
    [destruct passed |]; by eexists.
Qed.

Lemma try_candidate_current s w :
  try_candidate P name current s current w = (Ret s, w).
Proof. unfold try_candidate. by rewrite String.eqb_refl. Qed.

Lemma try_candidate_other s version w r :
  version <> current ->
  attempt P name version w = (Ret r, world_after P name version w) ->
  try_candidate P name current s version w =
    (Ret (if success r
          then {| tested := tested s ++ [version]; failed := failed s;
                  compatible := Some version |}
          else {| tested := tested s ++ [version];
                  failed := <[version := error_message r]> (failed s);
                  compatible := compatible s |}),
     world_after P name version w).
Proof.
  intros Hne Hr. unfold try_candidate.
  destruct (String.eqb_spec version current); [contradiction |].
  unfold attempt, bind in Hr. unfold bind.
  destruct (setup_test_environment P w) as [[b|e] w1]; [| discriminate].
  rewrite Hr. by destruct (success r).
Qed.

(** What the loop leaves in its three variables, whatever they held when
    it started. *)
Lemma candidates_loop versions : forall s w,
  exists s',
    for_each (try_candidate P name current) versions s w =
      (Ret s', walk_world P name current versions w) /\
    tested s' = tested s ++ filter (fun v => v <> current) versions /\
    compatible s' =
      match last (passing_candidates P name current versions w) with
      | Some v => Some v
      | None => compatible s
      end.
Proof.
  induction versions as [|v vs IH]; intros s w; simpl.
  - exists s. by rewrite app_nil_r.
  - unfold bind. destruct (String.eqb_spec v current) as [->|Hne].
    + rewrite try_candidate_current.
      destruct (IH s w) as (s' & -> & Ht & Hc). exists s'.
      rewrite filter_cons_False by (intros ?; done). done.
    + destruct (attempt_result v w) as (r & Hr & Hs).
      rewrite (try_candidate_other s v w r Hne Hr).
      match goal with |- context [for_each _ _ ?s1 ?w1] =>
        destruct (IH s1 w1) as (s' & -> & Ht & Hc) end.
      exists s'. split; [done |].
      rewrite filter_cons_True by done.
      rewrite Ht, Hc, <- Hs. split.
      * destruct (success r); simpl; by rewrite <- app_assoc.
      * destruct (success r); simpl.
        -- destruct (passing_candidates P name current vs _) as [|x l];
             [done |].
           simpl. by destruct (last (x :: l)) eqn:Hl;
             [| apply last_None in Hl].
        -- done.
Qed.

End SearchLoop.

Section VersionRange.
Context {W : Type} {E : Externals W} {Pk : Packaging}.

Lemma sort_keys_snd xs : forall ks, sort_keys xs = Ret ks -> map snd ks = xs.
Proof.
  induction xs as [|x xs IH]; intros ks; simpl.
  - by intros [= <-].
  - destruct (parse x) as [k|e]; [| done].
    destruct (sort_keys xs) as [ks'|e]; [| done].
    intros [= <-]. simpl. by rewrite (IH ks').
Qed.

Lemma insert_by_key_perm x l : insert_by_key x l ≡ₚ x :: l.
Proof.
  induction l as [|y l IH]; simpl; [done |].
  destruct (version_lt (fst x) (fst y)); [done |].
  rewrite IH. apply Permutation_swap.
Qed.

Lemma sort_by_key_perm l : sort_by_key l ≡ₚ l.
Proof.
  unfold sort_by_key.
  assert (forall acc, fold_left (fun acc x => insert_by_key x acc) l acc
                      ≡ₚ l ++ acc) as H.
  { induction l as [|x l IH]; intros acc; simpl; [done |].
    rewrite IH, insert_by_key_perm. by rewrite Permutation_middle. }
  by rewrite H, app_nil_r.
Qed.

Lemma sort_versions_perm xs ys : sort_versions xs = Ret ys -> ys ≡ₚ xs.
Proof.
  unfold sort_versions.
  destruct (sort_keys xs) as [ks|e] eqn:Hk; [| done].
  intros [= <-]. rewrite <- (sort_keys_snd xs ks Hk).
  apply fmap_Permutation, sort_by_key_perm.
Qed.

Lemma slice_NoDup {A} (l : list A) a b : NoDup l -> NoDup (slice l a b).
Proof.
  intros Hl. unfold slice.
  eapply sublist_NoDup; [exact Hl |].
  etrans; [apply sublist_take | apply sublist_drop].
Qed.

(** The candidate list never repeats a version. *)
Lemma get_version_range_NoDup name current latest w versions w' :
  releases_keys_distinct E ->
  get_version_range name current latest w = (Ret versions, w') ->
  NoDup versions.
Proof.
  intros Hdistinct. unfold get_version_range, try_except, bind, lift, ret.
  destruct (requests_get (pypi_url name) w) as [[r|e] w1] eqn:Hget.
  2: { destruct (is_RequestException e || is_InvalidVersion e);
         intros [= <- _]; try constructor. }
  destruct (negb (status_code r =? 200)%Z).
  { intros [= <- _]. constructor. }
  destruct (json_releases_keys r) as [ks|e] eqn:Hks.
  2: { destruct (is_RequestException e || is_InvalidVersion e);
         intros [= <- _]; try constructor. }
  destruct (sort_versions ks) as [sorted|e] eqn:Hsort.
  2: { destruct (is_RequestException e || is_InvalidVersion e);
         intros [= <- _]; try constructor. }
  assert (NoDup sorted) as Hnd.
  { rewrite (sort_versions_perm _ _ Hsort). eauto. }
  destruct (first_index_ge current sorted 0 0) as [i|e].
  2: { destruct (is_RequestException e || is_InvalidVersion e);
         intros [= <- _]; try constructor. }
  destruct (first_index_ge latest sorted 0 (length sorted)) as [j|e].
  2: { destruct (is_RequestException e || is_InvalidVersion e);
         intros [= <- _]; try constructor. }
  intros [= <- _]. by apply slice_NoDup.
Qed.

End VersionRange.

Section Manifest.

Lemma dict_get_set {V} (d : dict V) k v : dict_get (dict_set d k v) k = Some v.
Proof.
  induction d as [|[k' v'] d IH]; simpl.
  - by rewrite String.eqb_refl.
  - destruct (String.eqb_spec k' k) as [->|Hne]; simpl.
    + by rewrite String.eqb_refl.
    + by destruct (String.eqb_spec k' k).
Qed.

(** A manifest line that is neither blank nor a comment and has no [>=] and
    no [==] binds its package to [None]. *)
Lemma unversioned_line_binds_None packages line word :
  strip line <> "" ->
  startswith "#" (strip line) = false ->
  contains ">=" (strip line) = false ->
  contains "==" (strip line) = false ->
  first_word (strip line) = Ret word ->
  exists packages',
    parse_requirement_line packages line = Ret packages' /\
    dict_get packages' (strip (keep_name_chars word)) = Some None.
Proof.
  intros Hne Hcomment Hge Heq Hword. unfold parse_requirement_line.
  destruct (String.eqb_spec (strip line) ""); [contradiction |].
  rewrite Hcomment, Hge, Heq, Hword. simpl.
  eexists. split; [reflexivity | apply dict_get_set].
Qed.

End Manifest.

Section Sorting.
Context {Pk : Packaging}.

(** The laws of [<] on parsed versions the sort relies on. *)
Hypothesis version_lt_asym :
  forall a b, version_lt a b = true -> version_lt b a = false.
Hypothesis version_le_trans :
  forall a b c,
    version_lt b a = false -> version_lt c b = false -> version_lt c a = false.

Lemma key_le_refl a : key_le a a.
Proof.
  unfold key_le. destruct (version_lt (fst a) (fst a)) eqn:H; [| done].
  by rewrite (version_lt_asym _ _ H) in H.
Qed.

Lemma insert_by_key_sorted x l :
  Sorted key_le l -> Sorted key_le (insert_by_key x l).
Proof.
  induction 1 as [|y l Hl IH Hy]; simpl.
  - by repeat constructor.
  - destruct (version_lt (fst x) (fst y)) eqn:Hxy.
    + constructor; [by constructor |]. constructor.
      unfold key_le. by apply version_lt_asym.
    + constructor; [done |].
      destruct Hy as [|z l Hz]; simpl.
      * by constructor.
      * destruct (version_lt (fst x) (fst z)); by constructor.
  Qed.

Lemma sort_by_key_sorted l : StronglySorted key_le (sort_by_key l).
Proof.
  apply Sorted_StronglySorted.
  { intros a b c. unfold key_le. apply version_le_trans. }
  unfold sort_by_key.
  assert (forall acc, Sorted key_le acc ->
            Sorted key_le
              (fold_left (fun acc x => insert_by_key x acc) l acc)) as H.
  { induction l as [|x l IH]; intros acc Hacc; simpl; [done |].
    by apply IH, insert_by_key_sorted. }
  apply H. constructor.
Qed.

Lemma sort_keys_parsed xs : forall ks,
  sort_keys xs = Ret ks ->
  Forall (fun kx => version_parse (snd kx) = Some (fst kx)) ks.
Proof.
  induction xs as [|x xs IH]; intros ks; simpl.
  - intros [= <-]. constructor.
  - unfold parse. destruct (version_parse x) as [k|] eqn:Hk; [| done].
    destruct (sort_keys xs) as [ks'|e]; [| done].
    intros [= <-]. constructor; [done | by apply IH].
Qed.

Lemma sort_versions_sorted xs ys :
  sort_versions xs = Ret ys -> StronglySorted not_above ys.
Proof.
  unfold sort_versions.
  destruct (sort_keys xs) as [ks|e] eqn:Hk; [| done].
  intros [= <-].
  pose proof (sort_keys_parsed _ _ Hk) as Hparsed.
  rewrite <- (sort_by_key_perm ks) in Hparsed.
  pose proof (sort_by_key_sorted ks) as Hsorted.
  induction Hsorted as [|kx l Hl IH Hall]; simpl; [constructor |].
  apply Forall_cons in Hparsed as [Hkx Hparsed].
  constructor; [by apply IH |].
  rewrite Forall_fmap. rewrite Forall_forall in Hall, Hparsed |- *.
  intros ky Hin. exists (fst kx), (fst ky). simpl.
  split; [done |]. split; [by apply Hparsed | by apply Hall].
Qed.

Lemma not_above_trans : Transitive not_above.
Proof.
  intros x y z (kx & ky & Hx & Hy & Hxy) (ky' & kz & Hy' & Hz & Hyz).
  rewrite Hy in Hy'. injection Hy' as <-.
  exists kx, kz. repeat split; try done. by eapply version_le_trans.
Qed.

Lemma slice_sorted (l : list string) a b :
  StronglySorted not_above l -> StronglySorted not_above (slice l a b).
Proof.
  intros Hl. unfold slice.
  assert (forall (l : list string) n,
            StronglySorted not_above l ->
            StronglySorted not_above (drop n l)) as Hdrop.
  { intros l0 n H. revert n. induction H as [|x l0 H0 IH Hx]; intros [|n];
      simpl; try constructor; auto. }
  assert (forall (l : list string) n,
            StronglySorted not_above l ->
            StronglySorted not_above (take n l)) as Htake.
  { intros l0 n H. revert n. induction H as [|x l0 H0 IH Hx]; intros [|n];
      simpl; try constructor; auto.
    apply Forall_take. done. }
  auto.
Qed.

End Sorting.

Section Search.
Context {W : Type} {E : Externals W} {Pk : Packaging} (P : Project).

Lemma find_compatible_update_resolved name w current latest versions w2 :
  resolves P name w current latest versions w2 ->
  find_compatible_update P name w =
    (let! s := for_each (try_candidate P name current) versions
                 search_start in
     ret {| package_name := name; current_version := current;
            target_version := latest;
            compatible_version := compatible s;
            tested_versions := tested s;
            failed_versions := failed s |}) w2.
Proof.
  intros (Hcur & Hne & w1 & Hlatest & Hlne & Hrange).
  unfold find_compatible_update.
  rewrite Hcur, (truthy_nonempty _ Hne). simpl.
  unfold bind at 1. rewrite Hlatest.
  rewrite (truthy_nonempty _ Hlne). simpl.
  unfold bind at 1. by rewrite Hrange.
Qed.

(** C1.  For a package pinned to a version and resolved by the registry,
    [find_compatible_update] returns a status whose [compatible_version] is
    the last candidate of the walk, other than the current version, for
    which installation and the test run both succeeded; it is [None] when
    no candidate passed.  Earlier passes and failures do not matter. *)
Theorem compatible_version_is_last_passing
    name w current latest versions w2 :
  resolves P name w current latest versions w2 ->
  exists status,
    find_compatible_update P name w =
      (Ret status, walk_world P name current versions w2) /\
    compatible_version status =
      last (passing_candidates P name current versions w2).
Proof.
  intros Hres. rewrite (find_compatible_update_resolved _ _ _ _ _ _ Hres).
  destruct Hres as (Hcur & Hne & _).
  destruct (candidates_loop P name current Hcur Hne versions search_start w2)
    as (s & Hloop & _ & Hc).
  unfold bind. rewrite Hloop. eexists. split; [reflexivity |]. simpl.
  rewrite Hc. simpl. by destruct (last _).
Qed.


End Search.

Section Highest.
Context {W : Type} {E : Externals W} {Pk : Packaging} (P : Project).

Lemma get_version_range_shape name current latest w versions w' :
  get_version_range name current latest w = (Ret versions, w') ->
  versions = [] \/
  exists r w1 ks sorted i j,
    requests_get (pypi_url name) w = (Ret r, w1) /\
    json_releases_keys r = Ret ks /\
    sort_versions ks = Ret sorted /\
    versions = slice sorted i j.
Proof.
  unfold get_version_range, try_except, bind, lift, ret.
  destruct (requests_get (pypi_url name) w) as [[r|e] w1] eqn:Hget.
  2: { destruct (_ || _); intros [= <- _]; auto. }
  destruct (negb (status_code r =? 200)%Z); [intros [= <- _]; auto |].
  destruct (json_releases_keys r) as [ks|e] eqn:Hks.
  2: { destruct (_ || _); intros [= <- _]; auto. }
  destruct (sort_versions ks) as [sorted|e] eqn:Hsort.
  2: { destruct (_ || _); intros [= <- _]; auto. }
  destruct (first_index_ge current sorted 0 0) as [i|e].
  2: { destruct (_ || _); intros [= <- _]; auto. }
  destruct (first_index_ge latest sorted 0 (length sorted)) as [j|e].
  2: { destruct (_ || _); intros [= <- _]; auto. }
  intros [= <- _]. right. by exists r, w1, ks, sorted, i, (j + 1).
Qed.

Lemma passing_candidates_sublist name current versions : forall w,
  passing_candidates P name current versions w `sublist_of` versions.
Proof.
  induction versions as [|v vs IH]; intros w; simpl; [done |].
  destruct (String.eqb v current); [by apply sublist_cons |].
  destruct (candidate_passes P name v w); simpl.
  - by apply sublist_skip.
  - by apply sublist_cons.
Qed.

Lemma StronglySorted_sublist {A} (R : relation A) l1 l2 :
  l1 `sublist_of` l2 -> StronglySorted R l2 -> StronglySorted R l1.
Proof.
  induction 1 as [|x l1 l2 Hsub IH|x l1 l2 Hsub IH]; intros Hs.
  - constructor.
  - apply StronglySorted_inv in Hs as [Hs Hall].
    constructor; [by apply IH |].
    rewrite Forall_forall in Hall |- *. intros y Hy.
    apply Hall. by eapply elem_of_sublist.
  - apply StronglySorted_inv in Hs as [Hs _]. by apply IH.
Qed.

Lemma StronglySorted_last {A} (R : relation A) l y :
  StronglySorted R l -> last l = Some y ->
  forall x, x ∈ l -> x = y \/ R x y.
Proof.
  intros Hs Hlast x Hx. apply last_Some in Hlast as [l' ->].
  apply elem_of_app in Hx as [Hx | Hx%list_elem_of_singleton]; [| by left].
  right. eapply StronglySorted_app_1_elem_of; eauto. by left.
Qed.

(** The walk is in ascending order of version, so the last candidate that
    passed is also the highest one: no candidate that passed has a version
    above the reported [compatible_version]. *)
Theorem compatible_version_is_highest_passing
    name w current latest versions w2 status w3 best :
  (forall a b, version_lt a b = true -> version_lt b a = false) ->
  (forall a b c,
     version_lt b a = false -> version_lt c b = false ->
     version_lt c a = false) ->
  resolves P name w current latest versions w2 ->
  find_compatible_update P name w = (Ret status, w3) ->
  compatible_version status = Some best ->
  forall v, v ∈ passing_candidates P name current versions w2 ->
            v = best \/ not_above v best.
Proof.
  intros Hasym Htrans Hres Hfind Hbest.
  rewrite (find_compatible_update_resolved _ _ _ _ _ _ _ Hres) in Hfind.
  destruct Hres as (Hcur & Hne & w1 & _ & _ & Hrange).
  destruct (candidates_loop P name current Hcur Hne versions search_start w2)
    as (s & Hloop & _ & Hc).
  unfold bind in Hfind. rewrite Hloop in Hfind. injection Hfind as <- _.
  simpl in Hbest. rewrite Hc in Hbest. simpl in Hbest.
  destruct (last (passing_candidates P name current versions w2)) as [b|]
    eqn:Hlast; [| done].
  injection Hbest as ->.
  apply StronglySorted_last; [| done].
  apply (StronglySorted_sublist _ _ versions);
    [apply passing_candidates_sublist |].
  destruct (get_version_range_shape _ _ _ _ _ _ Hrange)
    as [-> | (r & wr & ks & sorted & i & j & _ & _ & Hsort & ->)];
    [constructor |].
  apply slice_sorted. by eapply sort_versions_sorted.
Qed.

End Highest.

Section Ledger.
Context {W : Type} {E : Externals W} {Pk : Packaging} (P : Project).

(** The three shapes a returned status can have. *)
Lemma find_compatible_update_cases name w status w' :
  find_compatible_update P name w = (Ret status, w') ->
  (compatible_version status = None /\ tested_versions status = [] /\
   failed_versions status = ∅) \/
  exists current latest versions w2,
    resolves P name w current latest versions w2.
Proof.
  unfold find_compatible_update.
  destruct (current_packages_get P name) as [cur|] eqn:Hcur; simpl.
  2: { intros [= <- _]. by left. }
  destruct (String.eqb_spec cur "") as [->|Hne]; simpl.
  { intros [= <- _]. by left. }
  unfold bind at 1.
  destruct (get_latest_version name w) as [[latest|e] w1] eqn:Hl; [| done].
  destruct latest as [latest|]; simpl.
  2: { intros [= <- _]. by left. }
  destruct (String.eqb_spec latest "") as [->|Hlne]; simpl.
  { intros [= <- _]. by left. }
  unfold bind at 1.
  destruct (get_version_range name cur latest w1) as [[versions|e] w2]
    eqn:Hr; [| done].
  intros _. right. exists cur, latest, versions, w2.
  repeat split; eauto.
Qed.

Lemma ledger_ok_start : ledger_ok search_start.
Proof.
  split; simpl.
  - intros v. rewrite lookup_empty. by intros [? ?].
  - done.
Qed.

Lemma candidates_loop_ledger name current versions : forall s w s' w',
  NoDup versions ->
  (forall v, v ∈ versions -> v ∉ tested s) ->
  ledger_ok s ->
  for_each (try_candidate P name current) versions s w = (Ret s', w') ->
  ledger_ok s'.
Proof.
  induction versions as [|v vs IH]; intros s w s' w' Hnd Hfresh Hok; simpl.
  - by intros [= <- _].
  - apply NoDup_cons in Hnd as [Hv Hnd]. unfold bind.
    destruct (try_candidate P name current s v w) as [[s1|e] w1] eqn:Hstep;
      [| done].
    apply IH; [done | |].
    + intros u Hu. unfold try_candidate in Hstep.
      destruct (String.eqb v current).
      { injection Hstep as <- _. apply Hfresh. by right. }
      unfold bind in Hstep.
      destruct (setup_test_environment P w) as [[b|e] wa]; [| done].
      destruct (test_package_update P name v wa) as [[r|e] wb]; [| done].
      assert (tested s1 = tested s ++ [v]) as ->.
      { by destruct (success r); injection Hstep as <- _. }
      rewrite elem_of_app, list_elem_of_singleton.
      intros [Hin | ->]; [| done].
      revert Hin. apply Hfresh. by right.
    + unfold try_candidate in Hstep.
      destruct (String.eqb v current).
      { by injection Hstep as <- _. }
      unfold bind in Hstep.
      destruct (setup_test_environment P w) as [[b|e] wa]; [| done].
      destruct (test_package_update P name v wa) as [[r|e] wb]; [| done].
      destruct Hok as [Hfailed Hcompat].
      assert (v ∉ tested s) as Hvt by (apply Hfresh; by left).
      destruct (success r); injection Hstep as <- _; split; simpl.
      * intros u Hu. apply elem_of_app. left. by apply Hfailed.
      * intros u [= <-]. split.
        -- apply elem_of_app. right. by left.
        -- destruct (failed s !! v) eqn:Hf; [| done].
           exfalso. apply Hvt, Hfailed. by rewrite Hf.
      * intros u. rewrite elem_of_app, list_elem_of_singleton.
        destruct (decide (v = u)) as [->|Hne]; [by right |].
        rewrite lookup_insert_ne by done. left. by apply Hfailed.
      * intros u Hu. destruct (Hcompat u Hu) as [Hin Hnone]. split.
        -- apply elem_of_app. by left.
        -- rewrite lookup_insert_ne; [done |]. by intros ->.
Qed.

(** C2.  In every status [find_compatible_update] returns, each key of
    [failed_versions] is in [tested_versions], and a [compatible_version]
    other than the current version is not a key of [failed_versions] and is
    in [tested_versions].  (The registry's [releases], being the keys of a
    JSON object, list no version twice.) *)
Theorem status_ledger_invariant name w status w' :
  releases_keys_distinct E ->
  find_compatible_update P name w = (Ret status, w') ->
  (forall v, is_Some (failed_versions status !! v) ->
             v ∈ tested_versions status) /\
  (forall v, compatible_version status = Some v ->
             v <> current_version status ->
             failed_versions status !! v = None /\
             v ∈ tested_versions status).
Proof.
  intros Hdistinct Hfind.
  destruct (find_compatible_update_cases _ _ _ _ Hfind)
    as [(Hc & Ht & Hf) | (cur & latest & versions & w2 & Hres)].
  { rewrite Hc, Hf. split; [| done].
    intros v. rewrite lookup_empty. by intros [? ?]. }
  rewrite (find_compatible_update_resolved _ _ _ _ _ _ _ Hres) in Hfind.
  destruct Hres as (_ & _ & w1 & _ & _ & Hrange).
  unfold bind in Hfind.
  destruct (for_each _ versions search_start w2) as [[s|e] w3] eqn:Hloop;
    [| done].
  injection Hfind as <- _. simpl.
  destruct (candidates_loop_ledger name cur versions search_start w2 s w3)
    as [Hfailed Hcompat]; auto using ledger_ok_start.
  - eapply get_version_range_NoDup; eauto.
  - intros v _. simpl. by intros ?%elem_of_nil.
  - split; [done |]. intros v Hv _. destruct (Hcompat v Hv). done.
Qed.

End Ledger.

Section Resolver.
Context {W : Type} {E : Externals W} {Pk : Packaging}.

Lemma sort_keys_raises xs e :
  sort_keys xs = Raise e -> is_InvalidVersion e = true.
Proof.
  induction xs as [|x xs IH]; simpl; [done |].
  unfold parse. destruct (version_parse x); [| by intros [= <-]].
  destruct (sort_keys xs); [done |]. intros [= <-]. by apply IH.
Qed.

Lemma sort_versions_raises xs e :
  sort_versions xs = Raise e -> is_InvalidVersion e = true.
Proof.
  unfold sort_versions.
  destruct (sort_keys xs) eqn:Hk; [done |].
  intros [= <-]. by eapply sort_keys_raises.
Qed.

Lemma first_index_ge_raises target vs : forall i dflt e,
  first_index_ge target vs i dflt = Raise e -> is_InvalidVersion e = true.
Proof.
  induction vs as [|v vs IH]; intros i dflt e; simpl; [done |].
  unfold parse. destruct (version_parse v); [| by intros [= <-]].
  destruct (version_parse target); [| by intros [= <-]].
  destruct (version_ge _ _); [done |]. apply IH.
Qed.

Hypothesis well_formed : registry_well_formed E.

Lemma get_latest_version_returns name : returns (get_latest_version name).
Proof.
  intros w. unfold get_latest_version, try_except, bind, lift, ret.
  pose proof (well_formed (pypi_url name) w) as Hwf.
  destruct (requests_get (pypi_url name) w) as [[r|e] w1].
  - destruct (Z.eqb_spec (status_code r) 200) as [H200|]; [| by eexists _, _].
    destruct (Hwf H200) as [Hv _].
    destruct (json_info_version r) as [v|e]; [by eexists _, _ |].
    rewrite Hv. by eexists _, _.
  - rewrite Hwf. by eexists _, _.
Qed.

Lemma get_version_range_returns name current latest :
  returns (get_version_range name current latest).
Proof.
  intros w. unfold get_version_range, try_except, bind, lift, ret.
  pose proof (well_formed (pypi_url name) w) as Hwf.
  destruct (requests_get (pypi_url name) w) as [[r|e] w1].
  2: { rewrite Hwf. simpl. by eexists _, _. }
  destruct (Z.eqb_spec (status_code r) 200) as [H200|]; simpl;
    [| by eexists _, _].
  destruct (Hwf H200) as [_ Hk].
  destruct (json_releases_keys r) as [ks|e].
  2: { rewrite Hk. by eexists _, _. }
  destruct (sort_versions ks) as [sorted|e] eqn:Hsort.
  2: { rewrite (sort_versions_raises _ _ Hsort), orb_true_r.
       by eexists _, _. }
  destruct (first_index_ge current sorted 0 0) as [i|e] eqn:Hi.
  2: { rewrite (first_index_ge_raises _ _ _ _ _ Hi), orb_true_r.
       by eexists _, _. }
  destruct (first_index_ge latest sorted 0 (length sorted)) as [j|e] eqn:Hj.
  2: { rewrite (first_index_ge_raises _ _ _ _ _ Hj), orb_true_r.
       by eexists _, _. }
  by eexists _, _.
Qed.

End Resolver.

Section Project.
Context {W : Type} {E : Externals W} {Pk : Packaging} (P : Project).

Lemma find_compatible_update_returns name :
  registry_well_formed E -> returns (find_compatible_update P name).
Proof.
  intros Hwf. unfold find_compatible_update.
  destruct (negb (truthy (current_packages_get P name)));
    [apply returns_ret |].
  apply returns_bind; [by apply get_latest_version_returns |].
  intros latest. destruct (negb (truthy latest)); [apply returns_ret |].
  apply returns_bind; [by apply get_version_range_returns |].
  intros versions. apply returns_bind; [| intros s; apply returns_ret].
  apply returns_for_each. intros s v. apply try_candidate_returns.
Qed.

Lemma find_compatible_update_name name w status w' :
  find_compatible_update P name w = (Ret status, w') ->
  package_name status = name.
Proof.
  unfold find_compatible_update.
  destruct (negb (truthy (current_packages_get P name)));
    [by intros [= <- _] |].
  unfold bind.
  destruct (get_latest_version name w) as [[latest|e] w1]; [| done].
  destruct (negb (truthy latest)); [by intros [= <- _] |].
  destruct (get_version_range _ _ _ w1) as [[versions|e] w2]; [| done].
  destruct (for_each _ versions _ w2) as [[s|e] w3]; [| done].
  by intros [= <- _].
Qed.

Lemma evaluate_all_entries names : forall acc w results w',
  evaluate_all P names acc w = (Ret results, w') ->
  dom results = dom acc ∪ list_to_set names /\
  (forall name status,
     results !! name = Some status ->
     acc !! name = Some status \/ package_name status = name).
Proof.
  unfold evaluate_all.
  induction names as [|n names IH]; intros acc w results w'; simpl.
  - intros [= <- _]. split; [set_solver | auto].
  - unfold bind at 1. unfold bind at 1.
    destruct (find_compatible_update P n w) as [[st|e] w1] eqn:Hf; [| done].
    unfold ret at 1. intros Hrest.
    destruct (IH _ _ _ _ Hrest) as [Hdom Hnames]. split.
    + rewrite Hdom, dom_insert_L. set_solver.
    + intros name status Hl. destruct (Hnames name status Hl) as [Ha|]; auto.
      destruct (decide (n = name)) as [->|Hne].
      * rewrite lookup_insert_eq in Ha. injection Ha as <-.
        right. by eapply find_compatible_update_name.
      * rewrite lookup_insert_ne in Ha by done. auto.
Qed.

Lemma evaluate_all_returns names :
  registry_well_formed E -> forall acc, returns (evaluate_all P names acc).
Proof.
  intros Hwf acc. apply returns_for_each. intros s x.
  apply returns_bind; [by apply find_compatible_update_returns |].
  intros st. apply returns_ret.
Qed.

Lemma update_all_packages_not_ready w w1 :
  setup_test_environment P w = (Ret false, w1) ->
  update_all_packages P w = (Ret ∅, w1).
Proof. intros H. unfold update_all_packages, bind. by rewrite H. Qed.

Lemma update_all_packages_ready w w1 :
  setup_test_environment P w = (Ret true, w1) ->
  update_all_packages P w =
    evaluate_all P (dict_keys (current_packages P)) ∅ w1.
Proof. intros H. unfold update_all_packages, bind. by rewrite H. Qed.

Lemma evaluate_all_from_empty names w results w' :
  evaluate_all P names ∅ w = (Ret results, w') ->
  dom results = list_to_set names /\
  forall name status,
    results !! name = Some status -> package_name status = name.
Proof.
  intros Hall.
  destruct (evaluate_all_entries _ _ _ _ _ Hall) as [Hdom Hnames].
  split; [rewrite Hdom; set_solver |].
  intros name status Hl. destruct (Hnames name status Hl) as [Ha|]; auto.
  by rewrite lookup_empty in Ha.
Qed.

(** C4.  When the baseline set-up returns false, [update_all_packages]
    returns the empty mapping and leaves the world exactly as the failed
    set-up left it: nothing was evaluated.  When it returns true, the loop
    over the current package set is what runs; a returned mapping has
    exactly the packages of the current set as keys, each bound to the
    status of that package, and a mapping is returned whenever the
    evaluation of every single package returns. *)
Theorem update_all_packages_baseline w w1 :
  (setup_test_environment P w = (Ret false, w1) ->
   update_all_packages P w = (Ret ∅, w1)) /\
  (setup_test_environment P w = (Ret true, w1) ->
   update_all_packages P w
   = evaluate_all P (dict_keys (current_packages P)) ∅ w1 /\
   (forall results w',
      update_all_packages P w = (Ret results, w') ->
      dom results = list_to_set (dict_keys (current_packages P)) /\
      forall name status,
        results !! name = Some status -> package_name status = name) /\
   ((forall name, returns (find_compatible_update P name)) ->
    exists results w', update_all_packages P w = (Ret results, w'))).
Proof.
  split; [apply update_all_packages_not_ready |].
  intros Hsetup. rewrite (update_all_packages_ready _ _ Hsetup).
  split; [done |]. split.
  - intros results w'. apply evaluate_all_from_empty.
  - intros Hone. apply returns_for_each. intros acc name.
    apply returns_bind; [apply Hone | intros status; apply returns_ret].
Qed.

(** C5, as amended.  When every failure of a registry request is a
    [RequestException] (or an [InvalidVersion] of the version comparison)
    and a response with status 200 carries a version that is a string or
    null and a releases object, [find_compatible_update] returns a status
    for every package name and from every world, whatever the sandbox, the
    installer and the test runner return and whichever [Exception] they
    raise; and [update_all_packages] then returns too, with a status for
    every package of the current set when the baseline was set up,
    whichever of them failed to resolve or to pass. *)
Theorem search_never_raises_on_well_formed_registry :
  registry_well_formed E ->
  (forall name, returns (find_compatible_update P name)) /\
  forall w,
    exists results w',
      update_all_packages P w = (Ret results, w') /\
      (fst (setup_test_environment P w) = Ret true ->
       forall name, name ∈ dict_keys (current_packages P) ->
         exists status,
           results !! name = Some status /\ package_name status = name).
Proof.
  intros Hwf. split; [intros name; by apply find_compatible_update_returns |].
  intros w.
  destruct (setup_test_environment_returns P w) as (ready & w1 & Hsetup).
  rewrite Hsetup. simpl. destruct ready.
  - rewrite (update_all_packages_ready _ _ Hsetup).
    destruct (evaluate_all_returns (dict_keys (current_packages P)) Hwf ∅ w1)
      as (results & w' & Hall).
    exists results, w'. split; [done |]. intros _ name Hin.
    destruct (evaluate_all_from_empty _ _ _ _ Hall) as [Hdom Hnames].
    assert (name ∈ dom results) as Hd by (rewrite Hdom; set_solver).
    apply elem_of_dom in Hd as [status Hst]. eauto.
  - exists ∅, w1. split; [by apply update_all_packages_not_ready | done].
Qed.

End Project.

Section Verification.
Context {W : Type} {E : Externals W} (P : Project).

(** [verify_installation] is the loop run against what [pip list] reports. *)
Lemma verify_installation_unfold requirements w installed w' :
  get_installed_packages P w = (Ret installed, w') ->
  verify_installation P requirements w =
    (verify_items installed requirements, w').
Proof. intros H. unfold verify_installation, bind, lift. by rewrite H. Qed.

Lemma lower_keys_singleton k v :
  lower_keys {[k := v]} = ({[lower k]} : gset string).
Proof.
  unfold lower_keys. rewrite dom_singleton_L. apply set_map_singleton_L.
Qed.

(** The only way the verification loop raises: a required package that is
    found when case is ignored but is not a key under its own spelling. *)
Lemma verify_items_raises installed items e :
  verify_items installed items = Raise e ->
  exists package,
    e = KeyError package /\
    installed !! package = None /\
    lower package ∈ lower_keys installed.
Proof.
  induction items as [|[package version] items IH]; simpl; [done |].
  destruct (bool_decide_reflect (lower package ∈ lower_keys installed))
    as [Hin|]; simpl; [| done].
  destruct (truthy version); [| done].
  destruct (installed !! package) as [got|] eqn:Hgot.
  - by destruct (negb _).
  - intros [= <-]. by exists package.
Qed.

End Verification.

(** C6.  A requirement [flask==2.0.0] against an installation that lists the
    package as [Flask], version [2.0.0]: the name matches without regard to
    case and the version is the required one, yet [verify_installation]
    neither returns true nor returns at all: the look-up of the installed
    version under the required spelling raises [KeyError]. *)
Theorem verify_installation_case_mismatch_raises :
  verify_items {["Flask" := "2.0.0"]} [("flask", Some "2.0.0")]
  = Raise (KeyError "flask").
Proof.
  simpl. rewrite lower_keys_singleton.
  rewrite bool_decide_eq_true_2 by (by apply elem_of_singleton).
  simpl. by rewrite lookup_singleton_ne.
Qed.

Section Candidates.
Context {W : Type} {E : Externals W} {Pk : Packaging} (P : Project).

(** C8.  In the candidate loop the flag returned by the reset is not looked
    at.  For a candidate other than the current version, whatever the flag
    (false included), the candidate is handed to [test_package_update] in
    the world the reset left, it is appended to the tested versions, and
    its outcome is recorded: as the compatible version on success, in the
    failure ledger with its message otherwise. *)
Theorem reset_result_is_discarded name current s version w ready w1 :
  version <> current ->
  setup_test_environment P w = (Ret ready, w1) ->
  exists r w2 s',
    test_package_update P name version w1 = (Ret r, w2) /\
    try_candidate P name current s version w = (Ret s', w2) /\
    tested s' = tested s ++ [version] /\
    (success r = true ->
       compatible s' = Some version /\ failed s' = failed s) /\
    (success r = false ->
       failed s' = <[version := error_message r]> (failed s) /\
       compatible s' = compatible s).
Proof.
  intros Hne Hsetup.
  destruct (test_package_update_returns P name version w1)
    as (r & w2 & Hr).
  unfold try_candidate.
  destruct (String.eqb_spec version current); [contradiction |].
  unfold bind. rewrite Hsetup, Hr.
  exists r, w2. destruct (success r); eexists; (split; [reflexivity |]);
    (split; [reflexivity |]); simpl; by repeat split.
Qed.

(** C9.  A package that the current set maps to no version is handled as
    one that is not in the set at all: [find_compatible_update] returns the
    all-unknown status and [test_package_update] a failure whose
    [old_version] is "unknown", both without touching the world, and both
    are what a project without the package gets. *)
Theorem unpinned_package_is_unknown name version w :
  dict_get (current_packages P) name = Some None ->
  find_compatible_update P name w = (Ret (unknown_status name), w) /\
  test_package_update P name version w =
    (Ret {| success := false; old_version := "unknown";
            new_version := version;
            error_message :=
              Some ("Package " +:+ name +:+
                    " not found in current packages");
            test_output := None |}, w) /\
  forall P' : Project,
    dict_get (current_packages P') name = None ->
    find_compatible_update P' name w = find_compatible_update P name w /\
    test_package_update P' name version w =
      test_package_update P name version w.
Proof.
  intros Hnone.
  assert (current_packages_get P name = None) as Hget.
  { unfold current_packages_get. by rewrite Hnone. }
  unfold find_compatible_update, test_package_update.
  rewrite Hget. simpl. split; [done |]. split; [done |].
  intros P' Habsent. unfold current_packages_get. by rewrite Habsent.
Qed.

End Candidates.

Section NoTests.
Context {W : Type} {E : Externals W} {Pk : Packaging} (P : Project).

(** Test discovery finds nothing, in whatever world it is asked. *)
Hypothesis no_test_files :
  forall w, exists w', find_test_files P w = (Ret [], w').

Lemma run_tests_no_test_files w :
  exists w', run_tests P w = (Ret (false, "No test files found"), w').
Proof.
  destruct (no_test_files w) as (w' & H). exists w'.
  unfold run_tests, bind. by rewrite H.
Qed.

Lemma candidate_passes_no_test_files name version w :
  candidate_passes P name version w = false.
Proof.
  unfold candidate_passes.
  destruct (install_package P name (Some version) _) as [[[]|] w2]; try done.
  by destruct (run_tests_no_test_files w2) as (w3 & ->).
Qed.

Context (name current : string).
Hypothesis pinned : current_packages_get P name = Some current.
Hypothesis pinned_nonempty : current <> "".

Lemma attempt_no_test_files version w :
  exists r,
    attempt P name version w = (Ret r, world_after P name version w) /\
    success r = false /\
    (candidate_installs P name version w = true ->
     error_message r = Some "Tests failed").
Proof.
  unfold world_after, candidate_installs, attempt, bind.
  destruct (setup_test_environment_returns P w) as (b & w1 & ->). simpl.
  unfold test_package_update.
  rewrite pinned, (truthy_nonempty _ pinned_nonempty). simpl.
  unfold try_except, bind.
  destruct (install_package_returns P name (Some version) w1)
    as (ok & w2 & ->).
  destruct ok; simpl; [| by eexists].
  destruct (run_tests_no_test_files w2) as (w3 & ->). simpl. by eexists.
Qed.

Lemma candidates_loop_no_test_files versions : forall s w,
  NoDup versions ->
  exists s',
    for_each (try_candidate P name current) versions s w =
      (Ret s', walk_world P name current versions w) /\
    compatible s' = compatible s /\
    (forall u, u ∉ versions -> failed s' !! u = failed s !! u) /\
    (forall pre v post,
       versions = pre ++ v :: post ->
       v <> current ->
       candidate_installs P name v (walk_world P name current pre w) = true ->
       failed s' !! v = Some (Some "Tests failed")).
Proof.
  induction versions as [|x xs IH]; intros s w Hnd; simpl.
  - exists s. repeat split; try done.
    intros pre v post Heq. by destruct pre.
  - apply NoDup_cons in Hnd as [Hx Hnd]. unfold bind.
    destruct (String.eqb_spec x current) as [->|Hne].
    + rewrite try_candidate_current.
      destruct (IH s w Hnd) as (s' & -> & Hc & Hkeep & Hfail).
      exists s'. repeat split; try done.
      * intros u Hu. apply Hkeep. intros ?. apply Hu. by right.
      * intros pre v post Heq Hv. destruct pre as [|p pre]; simpl in *.
        { injection Heq as <- <-. done. }
        injection Heq as <- ->. rewrite String.eqb_refl.
        by apply (Hfail pre v post).
    + destruct (attempt_no_test_files x w) as (r & Hr & Hs & Hmsg).
      rewrite (try_candidate_other P name current s x w r Hne Hr), Hs.
      match goal with |- context [for_each _ _ ?s1 ?w1] =>
        destruct (IH s1 w1 Hnd) as (s' & -> & Hc & Hkeep & Hfail) end.
      simpl in *. exists s'. repeat split; try done.
      * intros u Hu. rewrite Hkeep by (intros ?; apply Hu; by right).
        rewrite lookup_insert_ne; [done |]. intros ->. apply Hu. by left.
      * intros pre v post Heq Hv. destruct pre as [|p pre]; simpl in *.
        { injection Heq as <- <-. intros Hinst.
          rewrite (Hkeep x Hx), lookup_insert_eq. by rewrite Hmsg. }
        injection Heq as <- ->.
        destruct (String.eqb_spec x current); [contradiction |].
        by apply (Hfail pre v post).
Qed.

End NoTests.

(** C10.  When test discovery finds no test files, [run_tests] returns
    [(False, "No test files found")]; so, in a project where it never finds
    any, no status has a compatible version, and in the status of a resolved
    package every candidate other than the current version whose
    installation succeeded when its turn came stands in [failed_versions]
    under the message "Tests failed". *)
Theorem no_test_files_means_tests_failed
    {W : Type} {E : Externals W} {Pk : Packaging} (P : Project) name w :
  (forall w, exists w', find_test_files P w = (Ret [], w')) ->
  releases_keys_distinct E ->
  (forall w0, exists w',
     run_tests P w0 = (Ret (false, "No test files found"), w')) /\
  (forall status w',
     find_compatible_update P name w = (Ret status, w') ->
     compatible_version status = None) /\
  (forall current latest versions w2,
     resolves P name w current latest versions w2 ->
     exists status w3,
       find_compatible_update P name w = (Ret status, w3) /\
       forall pre v post,
         versions = pre ++ v :: post ->
         v <> current ->
         candidate_installs P name v (walk_world P name current pre w2)
           = true ->
         failed_versions status !! v = Some (Some "Tests failed")).
Proof.
  intros Hnone Hdistinct.
  split; [intros w0; by apply run_tests_no_test_files |].
  assert (forall current latest versions w2,
            resolves P name w current latest versions w2 ->
            exists s w3,
              find_compatible_update P name w =
                (Ret {| package_name := name; current_version := current;
                        target_version := latest;
                        compatible_version := compatible s;
                        tested_versions := tested s;
                        failed_versions := failed s |}, w3) /\
              compatible s = None /\
              forall pre v post,
                versions = pre ++ v :: post ->
                v <> current ->
                candidate_installs P name v (walk_world P name current pre w2)
                  = true ->
                failed s !! v = Some (Some "Tests failed")) as Hloop.
  { intros current latest versions w2 Hres.
    rewrite (find_compatible_update_resolved _ _ _ _ _ _ _ Hres).
    destruct Hres as (Hcur & Hne & w1 & _ & _ & Hrange).
    assert (NoDup versions) as Hnd by (eapply get_version_range_NoDup; eauto).
    destruct (candidates_loop_no_test_files P Hnone name current Hcur Hne
                versions search_start w2 Hnd) as (s & Hrun & Hc & _ & Hfail).
    unfold bind. rewrite Hrun.
    by exists s, (walk_world P name current versions w2). }
  split.
  - intros status w' Hfind.
    destruct (find_compatible_update_cases _ _ _ _ _ Hfind)
      as [(Hc & _) | (current & latest & versions & w2 & Hres)]; [done |].
    destruct (Hloop _ _ _ _ Hres) as (s & w3 & Hrun & Hc & _).
    rewrite Hrun in Hfind. by injection Hfind as <- _.
  - intros current latest versions w2 Hres.
    destruct (Hloop _ _ _ _ Hres) as (s & w3 & Hrun & _ & Hfail).
    by eexists _, _.
Qed.

Section Idempotence.
Context {W V : Type} {E : Externals W} {Pk : Packaging} (P : Project).
Context (view : W -> V).
Hypothesis tools : sandbox_tools P view.

Lemma respects_ret {A} (a : A) : respects view (ret a).
Proof. by intros w1 w2 Hv. Qed.

Lemma respects_lift {A} (o : outcome A) : respects view (lift o).
Proof. by intros w1 w2 Hv. Qed.

Lemma agree_bind {A B} (m : M W A) (k : A -> M W B) w1 w2 :
  agree view m w1 w2 -> (forall a, respects view (k a)) ->
  agree view (bind m k) w1 w2.
Proof.
  unfold agree, bind. intros [Hr Hv] Hk.
  destruct (m w1) as [[a1|e1] w1'], (m w2) as [[a2|e2] w2']; simpl in *;
    try discriminate.
  - injection Hr as ->. by apply Hk.
  - by injection Hr as ->.
Qed.

Lemma respects_bind {A B} (m : M W A) (k : A -> M W B) :
  respects view m -> (forall a, respects view (k a)) ->
  respects view (bind m k).
Proof. intros Hm Hk w1 w2 Hv. apply agree_bind; auto. Qed.

Lemma agree_try_except {A} (body : M W A) classes handler w1 w2 :
  agree view body w1 w2 -> (forall e, respects view (handler e)) ->
  agree view (try_except body classes handler) w1 w2.
Proof.
  unfold agree, try_except. intros [Hr Hv] Hh.
  destruct (body w1) as [[a1|e1] w1'], (body w2) as [[a2|e2] w2'];
    simpl in *; try discriminate.
  - by injection Hr as ->.
  - injection Hr as ->. destruct (classes e2); [by apply Hh | done].
Qed.

Lemma respects_try_except {A} (body : M W A) classes handler :
  respects view body -> (forall e, respects view (handler e)) ->
  respects view (try_except body classes handler).
Proof. intros Hb Hh w1 w2 Hv. apply agree_try_except; auto. Qed.

Lemma respects_try_finally {A} (body : M W A) cleanup :
  respects view body -> respects view cleanup ->
  respects view (try_finally body cleanup).
Proof.
  intros Hb Hc w1 w2 Hv. unfold agree, try_finally.
  destruct (Hb w1 w2 Hv) as [Hr Hv'].
  destruct (body w1) as [r1 w1'], (body w2) as [r2 w2']; simpl in *.
  destruct (Hc w1' w2' Hv') as [Hcr Hcv].
  destruct (cleanup w1') as [[[]|e1] w1''], (cleanup w2') as [[[]|e2] w2''];
    simpl in *; try discriminate; [done |].
  by injection Hcr as ->.
Qed.

Lemma run_pip_command_respects command :
  respects view (run_pip_command P command).
Proof.
  apply respects_try_except.
  - apply respects_bind; [apply (subprocess_run_view _ _ tools) |].
    intros stdout. apply respects_ret.
  - intros []; apply respects_ret.
Qed.

Lemma install_requirements_respects requirements :
  respects view (install_requirements P requirements).
Proof.
  apply respects_try_finally.
  - apply respects_bind; [apply (write_lines_view _ _ tools) | intros _].
    apply respects_bind; [apply run_pip_command_respects |].
    intros [? ?]. apply respects_ret.
  - intros w1 w2 Hv.
    unfold agree.
    rewrite (path_exists_view _ _ tools _ w1 w2 Hv).
    destruct (path_exists _ w2); [| done].
    by apply (path_unlink_view _ _ tools).
Qed.

Lemma verify_installation_respects requirements :
  respects view (verify_installation P requirements).
Proof.
  apply respects_bind; [| intros installed; apply respects_lift].
  apply respects_bind; [apply run_pip_command_respects |].
  intros [ok output]. destruct (negb ok); [apply respects_ret |].
  apply respects_try_except; [| intros e; apply respects_ret].
  apply respects_bind; [apply respects_lift | intros ?; apply respects_ret].
Qed.

(** Creation replaces: whatever was there before, two creations end alike. *)
Lemma create_virtual_environment_replaces w1 w2 :
  agree view (create_virtual_environment P) w1 w2.
Proof.
  apply agree_try_except; [| intros e; apply respects_ret].
  assert (forall w, exists w',
            (if path_exists (venv_path P) w
             then shutil_rmtree (venv_path P) else ret tt) w = (Ret tt, w')
            /\ path_exists (venv_path P) w' = false) as Hgone.
  { intros w. destruct (path_exists (venv_path P) w) eqn:Hex.
    - by apply (shutil_rmtree_removes _ _ tools).
    - by exists w. }
  unfold agree, bind. simpl.
  destruct (Hgone w1) as (w1' & -> & H1), (Hgone w2) as (w2' & -> & H2).
  pose proof (no_sandbox_view _ _ tools _ _ H1 H2) as Hv.
  destruct (venv_create_view _ _ tools (venv_path P) w1' w2' Hv) as [Hr Hv'].
  destruct (venv_create (venv_path P) w1') as [[[]|e1] w1''],
           (venv_create (venv_path P) w2') as [[[]|e2] w2''];
    simpl in *; try discriminate; [done |].
  by injection Hr as ->.
Qed.

(** Set-up ends in the same sandbox state from every world. *)
Lemma setup_test_environment_replaces w1 w2 :
  agree view (setup_test_environment P) w1 w2.
Proof.
  apply agree_try_except; [| intros e; apply respects_ret].
  apply agree_bind; [apply create_virtual_environment_replaces |].
  intros created. destruct (negb created); [apply respects_ret |].
  apply respects_bind; [apply install_requirements_respects |].
  intros installed. destruct (negb installed); [apply respects_ret |].
  apply respects_bind; [apply verify_installation_respects |].
  intros verified. destruct (negb verified); apply respects_ret.
Qed.

End Idempotence.

(** C7, as amended.  With sandbox tools that are deterministic in the
    sandbox state, where removing an existing sandbox succeeds and leaves
    none, [setup_test_environment] does not depend on the state it starts
    from: from any two worlds it returns the same flag and leaves the same
    installed-package state.  Hence it is idempotent: a second call in
    succession leaves the state the first call left, and returns the same
    flag. *)
Theorem setup_test_environment_idempotent
    {W V : Type} {E : Externals W} (P : Project) (view : W -> V)
    (w w0 : W) :
  sandbox_tools P view ->
  let once := setup_test_environment P w in
  let twice := setup_test_environment P (snd once) in
  let elsewhere := setup_test_environment P w0 in
  (view (snd elsewhere) = view (snd once) /\ fst elsewhere = fst once) /\
  (view (snd twice) = view (snd once) /\ fst twice = fst once).
Proof.
  intros tools once twice elsewhere.
  destruct (setup_test_environment_replaces P view tools w0 w) as [Hr0 Hv0].
  destruct (setup_test_environment_replaces P view tools (snd once) w)
    as [Hr Hv].
  done.
Qed.

(** * The statements at work in the small world *)

Section DemoFacts.
Import Demo.

Lemma demo_resolves b :
  registry_answers_in_full b = true ->
  resolves (E := externals b) (Pk := packaging) project "demo" None
    "1.0.0" "1.2.0" ["1.0.0"; "1.1.0"; "1.2.0"] None.
Proof.
  intros Hb. split; [reflexivity |]. split; [discriminate |].
  exists None. unfold get_latest_version, get_version_range, try_except,
    bind, lift, ret. simpl. unfold demo_get. simpl. rewrite Hb.
  split; [reflexivity |]. split; [discriminate | reflexivity].
Qed.

Lemma demo_releases_distinct b : releases_keys_distinct (externals b).
Proof.
  intros url w r w' ks. simpl. unfold demo_get.
  destruct (negb _); [by intros [= <- _] |].
  destruct (String.eqb url _); intros [= <- _]; [| done].
  intros [= <-]. apply (bool_decide_unpack _). by vm_compute.
Qed.

Lemma demo_registry_well_formed :
  registry_well_formed (externals healthy).
Proof.
  intros url w. simpl. unfold demo_get.
  destruct (String.eqb url _); simpl; [by intros _ | done].
Qed.

Lemma demo_sandbox_tools b :
  sandbox_tools (E := externals b) project (fun w : world => w).
Proof.
  split; try (intros; intros w1 w2 ->; by split).
  - by intros p w1 w2 ->.
  - intros w _. by exists None.
  - intros [v|] [v'|]; simpl; by try done.
Qed.

Lemma demo_no_test_files w :
  exists w', find_test_files (E := externals untested) project w
             = (Ret [], w').
Proof. by exists w. Qed.

End DemoFacts.

Lemma compatible_version_is_last_passing_witness :
  passing_candidates (E := Demo.externals Demo.all_green) Demo.project
    "demo" "1.0.0" ["1.0.0"; "1.1.0"; "1.2.0"] None = ["1.1.0"; "1.2.0"] /\
  exists status,
    find_compatible_update (E := Demo.externals Demo.all_green)
      (Pk := Demo.packaging) Demo.project "demo" None =
      (Ret status,
       walk_world (E := Demo.externals Demo.all_green) Demo.project "demo"
         "1.0.0" ["1.0.0"; "1.1.0"; "1.2.0"] None) /\
    compatible_version status = Some "1.2.0".
Proof.
  split; [vm_compute; reflexivity |].
  destruct (compatible_version_is_last_passing
              (E := Demo.externals Demo.all_green) (Pk := Demo.packaging)
              Demo.project "demo" None "1.0.0" "1.2.0"
              ["1.0.0"; "1.1.0"; "1.2.0"] None
              (demo_resolves Demo.all_green eq_refl))
    as (status & Hrun & Hlast).
  exists status. split; [exact Hrun |]. rewrite Hlast.
  vm_compute. reflexivity.
Defined.

(** In the small world both 1.1.0 and 1.2.0 pass when nothing breaks, and
    neither is above the reported 1.2.0. *)
Lemma compatible_version_is_highest_passing_demo :
  forall v,
    v ∈ passing_candidates (E := Demo.externals Demo.all_green) Demo.project
          "demo" "1.0.0" ["1.0.0"; "1.1.0"; "1.2.0"] None ->
    v = "1.2.0" \/ not_above (Pk := Demo.packaging) v "1.2.0".
Proof.
  destruct (find_compatible_update (E := Demo.externals Demo.all_green)
              (Pk := Demo.packaging) Demo.project "demo" None)
    as [[status|e] w3] eqn:Hrun; [| vm_compute in Hrun; discriminate].
  apply (compatible_version_is_highest_passing
           (E := Demo.externals Demo.all_green) (Pk := Demo.packaging)
           Demo.project "demo" None "1.0.0" "1.2.0"
           ["1.0.0"; "1.1.0"; "1.2.0"] None status w3 "1.2.0").
  - intros a b Hab. apply Nat.ltb_lt in Hab. apply Nat.ltb_ge. lia.
  - intros a b c Hba Hcb. apply Nat.ltb_ge in Hba, Hcb. apply Nat.ltb_ge. lia.
  - exact (demo_resolves Demo.all_green eq_refl).
  - exact Hrun.
  - vm_compute in Hrun. by injection Hrun as <- _.
Qed.


Lemma status_ledger_invariant_witness :
  exists status w',
    find_compatible_update (E := Demo.externals Demo.healthy)
      (Pk := Demo.packaging) Demo.project "demo" None = (Ret status, w') /\
    (forall v, is_Some (failed_versions status !! v) ->
               v ∈ tested_versions status) /\
    (forall v, compatible_version status = Some v ->
               v <> current_version status ->
               failed_versions status !! v = None /\
               v ∈ tested_versions status).
Proof.
  destruct (find_compatible_update (E := Demo.externals Demo.healthy)
              (Pk := Demo.packaging) Demo.project "demo" None)
    as [[status|e] w'] eqn:Hrun; [| vm_compute in Hrun; discriminate].
  exists status, w'. split; [reflexivity |].
  exact (status_ledger_invariant (E := Demo.externals Demo.healthy)
           (Pk := Demo.packaging) Demo.project "demo" None status w'
           (demo_releases_distinct Demo.healthy) Hrun).
Defined.

Lemma update_all_packages_baseline_witness :
  (* the disk is full: no baseline, nothing evaluated *)
  setup_test_environment (E := Demo.externals Demo.no_space) Demo.project
    None = (Ret false, None) /\
  update_all_packages (E := Demo.externals Demo.no_space)
    (Pk := Demo.packaging) Demo.project None = (Ret ∅, None) /\
  (* a healthy run: one entry for each of the two packages *)
  fst (setup_test_environment (E := Demo.externals Demo.healthy)
         Demo.project None) = Ret true /\
  exists results w',
    update_all_packages (E := Demo.externals Demo.healthy)
      (Pk := Demo.packaging) Demo.project None = (Ret results, w') /\
    dom results = {["helper"; "demo"]}.
Proof.
  split; [vm_compute; reflexivity |]. split.
  - apply (update_all_packages_baseline
             (E := Demo.externals Demo.no_space) (Pk := Demo.packaging)
             Demo.project None None).
    vm_compute. reflexivity.
  - split; [vm_compute; reflexivity |].
    destruct (proj2 (update_all_packages_baseline
                       (E := Demo.externals Demo.healthy)
                       (Pk := Demo.packaging) Demo.project None
                       (Some {| Demo.packages := Demo.Baseline;
                                Demo.temp_file := false |}))
                ltac:(vm_compute; reflexivity))
      as (_ & Hentries & Hreturns).
    destruct (Hreturns
                (fun name =>
                   find_compatible_update_returns Demo.project name
                     demo_registry_well_formed))
      as (results & w' & Hall).
    exists results, w'. split; [exact Hall |].
    destruct (Hentries results w' Hall) as [Hdom _].
    rewrite Hdom. simpl. set_solver.
Defined.

(** C5, as stated, fails.  A registry that answers 200 with a body lacking
    the [info] member makes [get_latest_version] raise [KeyError], which is
    not a [RequestException]: [find_compatible_update] raises it.  In
    [update_all_packages] the exception of the first package, [helper], ends
    the loop: the baseline was set up, yet no mapping is returned and [demo]
    is never evaluated. *)
Lemma search_raises_on_bare_registry :
  find_compatible_update (E := Demo.externals Demo.bare_registry)
    (Pk := Demo.packaging) Demo.project "helper" None
  = (Raise (KeyError "info"), None) /\
  ~ returns (find_compatible_update (E := Demo.externals Demo.bare_registry)
               (Pk := Demo.packaging) Demo.project "helper") /\
  fst (setup_test_environment (E := Demo.externals Demo.bare_registry)
         Demo.project None) = Ret true /\
  update_all_packages (E := Demo.externals Demo.bare_registry)
    (Pk := Demo.packaging) Demo.project None
  = (Raise (KeyError "info"),
     snd (setup_test_environment (E := Demo.externals Demo.bare_registry)
            Demo.project None)).
Proof.
  split; [vm_compute; reflexivity |].
  split; [| split; vm_compute; reflexivity].
  intros Hret. destruct (Hret None) as (status & w' & Hrun).
  vm_compute in Hrun. discriminate.
Qed.

Lemma search_never_raises_on_well_formed_registry_witness :
  returns (find_compatible_update (E := Demo.externals Demo.healthy)
             (Pk := Demo.packaging) Demo.project "helper") /\
  (* [helper] does not resolve; [demo], after it, is evaluated all the same *)
  exists results w',
    update_all_packages (E := Demo.externals Demo.healthy)
      (Pk := Demo.packaging) Demo.project None = (Ret results, w') /\
    (exists status,
       results !! "helper" = Some status /\ package_name status = "helper") /\
    (exists status,
       results !! "demo" = Some status /\ package_name status = "demo").
Proof.
  destruct (search_never_raises_on_well_formed_registry
              (E := Demo.externals Demo.healthy) (Pk := Demo.packaging)
              Demo.project demo_registry_well_formed) as [Hone Hall].
  split; [apply Hone |].
  destruct (Hall None) as (results & w' & Hrun & Hentries).
  exists results, w'. split; [exact Hrun |].
  split; (apply Hentries; [vm_compute; reflexivity |]).
  - by left.
  - right. by left.
Defined.

Lemma setup_test_environment_idempotent_witness :
  let once :=
    setup_test_environment (E := Demo.externals Demo.healthy) Demo.project
      (Some {| Demo.packages := Demo.Upgraded "1.2.0";
               Demo.temp_file := true |}) in
  let twice :=
    setup_test_environment (E := Demo.externals Demo.healthy) Demo.project
      (snd once) in
  let elsewhere :=
    setup_test_environment (E := Demo.externals Demo.healthy) Demo.project
      None in
  (snd elsewhere = snd once /\ fst elsewhere = fst once) /\
  (snd twice = snd once /\ fst twice = fst once).
Proof.
  exact (setup_test_environment_idempotent
           (E := Demo.externals Demo.healthy) Demo.project
           (fun w : Demo.world => w)
           (Some {| Demo.packages := Demo.Upgraded "1.2.0";
                    Demo.temp_file := true |})
           None
           (demo_sandbox_tools Demo.healthy)).
Defined.

(** C7, as stated, fails.  Where [shutil.rmtree] gives up on an existing
    sandbox after deleting its packages, the first set-up, started without
    a sandbox, installs the baseline and returns true; the second finds the
    sandbox, fails to remove it and returns false, and the sandbox it
    leaves no longer holds the baseline. *)
Lemma second_setup_differs_when_removal_fails :
  let once :=
    setup_test_environment (E := StuckDemo.externals) Demo.project None in
  let twice :=
    setup_test_environment (E := StuckDemo.externals) Demo.project
      (snd once) in
  once = (Ret true,
          Some {| Demo.packages := Demo.Baseline;
                  Demo.temp_file := false |}) /\
  twice = (Ret false,
           Some {| Demo.packages := Demo.Fresh;
                   Demo.temp_file := false |}) /\
  Demo.packages <$> snd twice <> Demo.packages <$> snd once.
Proof.
  split; [vm_compute; reflexivity |].
  split; [vm_compute; reflexivity |].
  vm_compute. discriminate.
Qed.

Lemma reset_result_is_discarded_witness :
  setup_test_environment (E := Demo.externals Demo.healthy)
    Demo.project_with_ghost None
  = (Ret false, Some {| Demo.packages := Demo.Baseline;
                        Demo.temp_file := false |}) /\
  exists r w2 s',
    test_package_update (E := Demo.externals Demo.healthy)
      Demo.project_with_ghost "demo" "1.1.0"
      (Some {| Demo.packages := Demo.Baseline; Demo.temp_file := false |})
    = (Ret r, w2) /\
    try_candidate (E := Demo.externals Demo.healthy) Demo.project_with_ghost
      "demo" "1.0.0" search_start "1.1.0" None = (Ret s', w2) /\
    success r = true /\
    tested s' = ["1.1.0"] /\
    compatible s' = Some "1.1.0".
Proof.
  split; [vm_compute; reflexivity |].
  destruct (reset_result_is_discarded (E := Demo.externals Demo.healthy)
              Demo.project_with_ghost "demo" "1.0.0" search_start "1.1.0"
              None false
              (Some {| Demo.packages := Demo.Baseline;
                       Demo.temp_file := false |})
              ltac:(discriminate) ltac:(vm_compute; reflexivity))
    as (r & w2 & s' & Htest & Hstep & Htested & Hpass & _).
  exists r, w2, s'. split; [exact Htest |]. split; [exact Hstep |].
  assert (success r = true) as Hs.
  { vm_compute in Htest. by injection Htest as <- _. }
  split; [exact Hs |]. split; [exact Htested |]. apply (Hpass Hs).
Defined.

Lemma unpinned_package_is_unknown_witness :
  dict_get (current_packages Demo.project_with_loose) "loose" = Some None /\
  find_compatible_update (E := Demo.externals Demo.healthy)
    (Pk := Demo.packaging) Demo.project_with_loose "loose" None
  = (Ret (unknown_status "loose"), None) /\
  test_package_update (E := Demo.externals Demo.healthy)
    Demo.project_with_loose "loose" "2.0" None
  = (Ret {| success := false; old_version := "unknown";
            new_version := "2.0";
            error_message :=
              Some "Package loose not found in current packages";
            test_output := None |}, None).
Proof.
  split; [vm_compute; reflexivity |].
  destruct (unpinned_package_is_unknown (E := Demo.externals Demo.healthy)
              (Pk := Demo.packaging) Demo.project_with_loose "loose" "2.0"
              None ltac:(vm_compute; reflexivity)) as (Hfind & Htest & _).
  split; [exact Hfind | exact Htest].
Defined.

Lemma no_test_files_means_tests_failed_witness :
  exists status w3,
    find_compatible_update (E := Demo.externals Demo.untested)
      (Pk := Demo.packaging) Demo.project "demo" None = (Ret status, w3) /\
    compatible_version status = None /\
    failed_versions status !! "1.1.0" = Some (Some "Tests failed") /\
    failed_versions status !! "1.2.0" = Some (Some "Tests failed").
Proof.
  destruct (no_test_files_means_tests_failed
              (E := Demo.externals Demo.untested) (Pk := Demo.packaging)
              Demo.project "demo" None
              demo_no_test_files (demo_releases_distinct Demo.untested))
    as (_ & Hnever & Hledger).
  destruct (Hledger "1.0.0" "1.2.0" ["1.0.0"; "1.1.0"; "1.2.0"] None
              (demo_resolves Demo.untested eq_refl))
    as (status & w3 & Hrun & Hfailed).
  exists status, w3. split; [exact Hrun |].
  split; [exact (Hnever status w3 Hrun) |]. split.
  - apply (Hfailed ["1.0.0"] "1.1.0" ["1.2.0"]);
      [reflexivity | discriminate | vm_compute; reflexivity].
  - apply (Hfailed ["1.0.0"; "1.1.0"] "1.2.0" []);
      [reflexivity | discriminate | vm_compute; reflexivity].
Defined.

(** * The small world, run *)

(** The registry lists the releases out of order; the resolver sorts them and
    cuts the range from the current to the latest version. *)
Example demo_version_range :
  get_version_range (E := Demo.externals Demo.healthy)
    (Pk := Demo.packaging) "demo" "1.0.0" "1.2.0" None
  = (Ret ["1.0.0"; "1.1.0"; "1.2.0"], None).
Proof. vm_compute. reflexivity. Qed.

(** Current 1.0.0, latest 1.2.0, candidates 1.0.0, 1.1.0 and 1.2.0, tests
    failing on 1.2.0 only. *)
Example demo_search :
  fst (find_compatible_update (E := Demo.externals Demo.healthy)
         (Pk := Demo.packaging) Demo.project "demo" None)
  = Ret {| package_name := "demo"; current_version := "1.0.0";
           target_version := "1.2.0"; compatible_version := Some "1.1.0";
           tested_versions := ["1.1.0"; "1.2.0"];
           failed_versions := {["1.2.0" := Some "Tests failed"]} |}.
Proof. vm_compute. reflexivity. Qed.

(** No latest version on the registry (status 404). *)
Example demo_search_unlisted :
  fst (find_compatible_update (E := Demo.externals Demo.healthy)
         (Pk := Demo.packaging) Demo.project "helper" None)
  = Ret {| package_name := "helper"; current_version := "0.3";
           target_version := "unknown"; compatible_version := None;
           tested_versions := []; failed_versions := ∅ |}.
Proof. vm_compute. reflexivity. Qed.

(** All candidates fail: nothing is compatible, not even the current
    version, and every candidate is in the ledger. *)
Example demo_search_untested :
  fst (find_compatible_update (E := Demo.externals Demo.untested)
         (Pk := Demo.packaging) Demo.project "demo" None)
  = Ret {| package_name := "demo"; current_version := "1.0.0";
           target_version := "1.2.0"; compatible_version := None;
           tested_versions := ["1.1.0"; "1.2.0"];
           failed_versions :=
             {["1.1.0" := Some "Tests failed";
               "1.2.0" := Some "Tests failed"]} |}.
Proof. vm_compute. reflexivity. Qed.

Example demo_manifest :
  parse_requirements_txt
    ["requests==2.25.1"; "  # pinned by hand"; "loose  "; "numpy>=1.0";
     "Flask == 2.0 "]
  = Ret [("requests", Some "2.25.1"); ("loose", None);
         ("numpy", Some "1.0"); ("Flask", Some "2.0")].
Proof. vm_compute. reflexivity. Qed.

(** [pip list] spells the package [Demo]: the baseline is installed, and the
    verification that should accept it ends the set-up in failure. *)
Example demo_verify_spelling :
  verify_items {["pip" := "24.0"; "Demo" := "1.0.0"]}
    [("demo", Some "1.0.0")]
  = Raise (KeyError "demo").
Proof. vm_compute. reflexivity. Qed.

(** * Further properties *)

(** * More properties *)

Section Strings.

Lemma append_cons c (a b : string) : String c a +:+ b = String c (a +:+ b).
Proof. reflexivity. Qed.

Lemma append_nil_l (s : string) : "" +:+ s = s.
Proof. reflexivity. Qed.

Lemma append_nil_r (s : string) : s +:+ "" = s.
Proof.
  induction s as [|c s IH]; [done |]. by rewrite append_cons, IH.
Qed.

Lemma append_assoc (a b c : string) : (a +:+ b) +:+ c = a +:+ (b +:+ c).
Proof.
  induction a as [|x a IH]; [done |]. by rewrite !append_cons, IH.
Qed.

Lemma all_chars_app p a b :
  all_chars p (a +:+ b) = all_chars p a && all_chars p b.
Proof.
  induction a as [|c a IH]; [done |].
  rewrite append_cons. simpl. by rewrite IH, andb_assoc.
Qed.

Lemma all_chars_impl (p q : ascii -> bool) s :
  (forall c, p c = true -> q c = true) ->
  all_chars p s = true -> all_chars q s = true.
Proof.
  intros Hpq. induction s as [|c s IH]; simpl; [done |].
  intros [Hc Hs]%andb_true_iff. by rewrite (Hpq c Hc), IH.
Qed.

Lemma lstrip_all_chars p s :
  all_chars p s = true -> all_chars p (lstrip s) = true.
Proof.
  induction s as [|c s IH]; simpl; [done |].
  intros [Hc Hs]%andb_true_iff.
  destruct (is_space c); simpl; [by apply IH | by rewrite Hc, Hs].
Qed.

Lemma rstrip_all_chars p s :
  all_chars p s = true -> all_chars p (rstrip s) = true.
Proof.
  induction s as [|c s IH]; simpl; [done |].
  intros [Hc Hs]%andb_true_iff. specialize (IH Hs).
  destruct (rstrip s) as [|d r]; simpl in *.
  - destruct (is_space c); simpl; [done | by rewrite Hc].
  - by rewrite Hc, IH.
Qed.

Lemma strip_all_chars p s :
  all_chars p s = true -> all_chars p (strip s) = true.
Proof. intros H. by apply rstrip_all_chars, lstrip_all_chars. Qed.

Lemma keep_name_chars_all s : all_chars name_char (keep_name_chars s) = true.
Proof.
  induction s as [|c s IH]; simpl; [done |].
  destruct (name_char c) eqn:Hc; simpl; [by rewrite Hc |]. done.
Qed.

Lemma keep_name_chars_id s :
  all_chars name_char s = true -> keep_name_chars s = s.
Proof.
  induction s as [|c s IH]; simpl; [done |].
  intros [Hc Hs]%andb_true_iff. by rewrite Hc, IH.
Qed.

(** Nothing to strip where there is no space. *)
Lemma lstrip_no_space s : all_chars not_space s = true -> lstrip s = s.
Proof.
  destruct s as [|c s]; simpl; [done |].
  unfold not_space. intros [Hc _]%andb_true_iff.
  by destruct (is_space c).
Qed.

Lemma rstrip_no_space s : all_chars not_space s = true -> rstrip s = s.
Proof.
  induction s as [|c s IH]; simpl; [done |].
  unfold not_space at 1. intros [Hc Hs]%andb_true_iff.
  rewrite (IH Hs). destruct s; [by destruct (is_space c) | done].
Qed.

Lemma strip_no_space s : all_chars not_space s = true -> strip s = s.
Proof.
  intros H. unfold strip. by rewrite (lstrip_no_space _ H), rstrip_no_space.
Qed.

Lemma name_char_not_space c : name_char c = true -> not_space c = true.
Proof.
  unfold name_char, not_space, is_space.
  destruct c as [[] [] [] [] [] [] [] []]; by vm_compute.
Qed.

Lemma name_char_not_spec c : name_char c = true -> is_spec_char c = false.
Proof.
  unfold name_char, is_spec_char.
  destruct c as [[] [] [] [] [] [] [] []]; by vm_compute.
Qed.

Lemma name_char_plain c : name_char c = true -> plain_char c = true.
Proof.
  intros H. unfold plain_char.
  by rewrite (name_char_not_space _ H), (name_char_not_spec _ H).
Qed.

End Strings.

Section ManifestRoundTrip.

Lemma dict_set_keys {V} (d : dict V) k v k' :
  k' ∈ dict_keys (dict_set d k v) -> k' = k \/ k' ∈ dict_keys d.
Proof.
  unfold dict_keys. induction d as [|[k0 v0] d IH]; simpl.
  - intros ?%list_elem_of_singleton. by left.
  - destruct (String.eqb_spec k0 k) as [->|Hne]; simpl.
    + rewrite !elem_of_cons. tauto.
    + rewrite !elem_of_cons. intros [-> | H]; [tauto |].
      destruct (IH H); tauto.
Qed.

Lemma dict_set_fresh {V} (d : dict V) k v :
  k ∉ dict_keys d -> dict_set d k v = d ++ [(k, v)].
Proof.
  unfold dict_keys. induction d as [|[k0 v0] d IH]; simpl; [done |].
  rewrite not_elem_of_cons. intros [Hne Hk].
  destruct (String.eqb_spec k0 k) as [->|_]; [done |]. by rewrite IH.
Qed.

Lemma parse_requirement_line_names packages line packages' :
  Forall (fun k => all_chars name_char k = true) (dict_keys packages) ->
  parse_requirement_line packages line = Ret packages' ->
  Forall (fun k => all_chars name_char k = true) (dict_keys packages').
Proof.
  intros Hall. unfold parse_requirement_line.
  destruct (negb (String.eqb (strip line) "") && _); [| by intros [= <-]].
  match goal with |- match ?parsed with _ => _ end = _ -> _ =>
    destruct parsed as [[name ver]|e] end; [| done].
  intros [= <-]. rewrite Forall_forall in Hall |- *.
  intros k [-> | Hk]%dict_set_keys; [| by apply Hall].
  apply strip_all_chars, keep_name_chars_all.
Qed.

Lemma parse_requirements_lines_names lines : forall packages packages',
  Forall (fun k => all_chars name_char k = true) (dict_keys packages) ->
  parse_requirements_lines lines packages = Ret packages' ->
  Forall (fun k => all_chars name_char k = true) (dict_keys packages').
Proof.
  induction lines as [|line lines IH]; intros packages packages' Hall; simpl.
  - by intros [= <-].
  - destruct (parse_requirement_line packages line) as [p1|e] eqn:Hline;
      [| done].
    apply IH. by eapply parse_requirement_line_names.
Qed.

Lemma contains_without_first_char (c0 : ascii) (rest s : string) :
  all_chars (fun c => negb (Ascii.eqb c0 c)) s = true ->
  contains (String c0 rest) s = false.
Proof.
  induction s as [|c s IH]; simpl; [done |].
  intros [Hc Hs]%andb_true_iff. apply negb_true_iff in Hc.
  by rewrite Hc, IH.
Qed.

Lemma contains_middle (sub a b : string) :
  contains sub (a +:+ sub +:+ b) = true.
Proof.
  assert (forall s, startswith sub (sub +:+ s) = true) as Hstart.
  { intros s. induction sub as [|c sub IH]; [done |].
    rewrite append_cons. simpl. by rewrite Ascii.eqb_refl, IH. }
  induction a as [|c a IH].
  - rewrite append_nil_l. destruct (sub +:+ b) eqn:Heq; simpl;
      rewrite <- Heq, Hstart; done.
  - rewrite append_cons. simpl. by rewrite IH, orb_true_r.
Qed.

Lemma split_from_no_separator (c0 : ascii) (rest s piece : string) :
  all_chars (fun c => negb (Ascii.eqb c0 c)) s = true ->
  split_from (String c0 rest) s 0 piece = [piece +:+ s].
Proof.
  revert piece. induction s as [|c s IH]; intros piece; simpl.
  - by rewrite append_nil_r.
  - intros [Hc Hs]%andb_true_iff. apply negb_true_iff in Hc.
    rewrite Hc. simpl. rewrite (IH _ Hs), append_assoc. done.
Qed.

Lemma split_double_equals (a b : string) :
  all_chars (fun c => negb (Ascii.eqb "=" c)) a = true ->
  all_chars (fun c => negb (Ascii.eqb "=" c)) b = true ->
  split "==" (a +:+ "==" +:+ b) = [a; b].
Proof.
  intros Ha Hb. unfold split.
  assert (forall piece,
            split_from "==" (a +:+ "==" +:+ b) 0 piece = [piece +:+ a; b])
    as H; [| by rewrite H].
  induction a as [|c a IH]; intros piece.
  - rewrite append_nil_l, append_nil_r.
    change ("==" +:+ b) with (String "=" (String "=" b)). simpl.
    by rewrite (split_from_no_separator "=" "=" b "" Hb).
  - rewrite append_cons. simpl in Ha.
    apply andb_true_iff in Ha as [Hc Ha]. apply negb_true_iff in Hc.
    simpl. rewrite Hc. simpl. rewrite (IH Ha), append_assoc. done.
Qed.

Lemma until_space_no_space s :
  all_chars not_space s = true -> until_space s = s.
Proof.
  induction s as [|c s IH]; simpl; [done |].
  unfold not_space at 1. intros [Hc Hs]%andb_true_iff.
  destruct (is_space c); [done |]. by rewrite IH.
Qed.

Lemma first_word_no_space s :
  s <> "" -> all_chars not_space s = true -> first_word s = Ret s.
Proof.
  intros Hne Hns. unfold first_word. rewrite (lstrip_no_space _ Hns).
  destruct s as [|c rest]; [done |]. f_equal.
  exact (until_space_no_space (String c rest) Hns).
Qed.

Lemma plain_char_not c :
  plain_char c = true ->
  not_space c = true /\ Ascii.eqb "=" c = false /\ Ascii.eqb ">" c = false.
Proof.
  unfold plain_char, not_space, is_space, is_spec_char.
  destruct c as [[] [] [] [] [] [] [] []]; by vm_compute.
Qed.

Lemma name_char_not_hash c : name_char c = true -> Ascii.eqb "#" c = false.
Proof.
  unfold name_char. destruct c as [[] [] [] [] [] [] [] []]; by vm_compute.
Qed.

(** A line as [install_requirements] writes it reads back as the
    requirement it was written for. *)
Lemma requirement_line_parses_back packages name version :
  plain_requirement (name, version) ->
  parse_requirement_line packages (requirement_line (name, version))
  = Ret (dict_set packages name version).
Proof.
  intros (Hne & Hname & Hver). simpl in *.
  pose proof (all_chars_impl _ _ _ name_char_plain Hname) as Hplain.
  assert (forall s, all_chars plain_char s = true ->
            all_chars not_space s = true /\
            all_chars (fun c => negb (Ascii.eqb "=" c)) s = true /\
            all_chars (fun c => negb (Ascii.eqb ">" c)) s = true) as Hsplit.
  { intros s Hs. repeat split; revert Hs; apply all_chars_impl;
      intros c (? & ? & ?)%plain_char_not; by rewrite ?negb_true_iff. }
  destruct (Hsplit _ Hplain) as (Hns & Hneq & Hngt).
  assert (startswith "#" name = false) as Hhash.
  { destruct name as [|c name]; [done |].
    cbn [all_chars] in Hname. apply andb_true_iff in Hname as [Hc _].
    change (startswith "#" (String c name)) with (Ascii.eqb "#" c && true).
    by rewrite (name_char_not_hash _ Hc). }
  unfold parse_requirement_line, requirement_line.
  destruct version as [v|]; cbn [snd] in Hver.
  - destruct Hver as [Hvne Hv]. destruct (Hsplit _ Hv) as (Hvs & Hveq & Hvgt).
    rewrite (truthy_nonempty _ Hvne).
    change (default "" (Some v)) with v.
    set (line := name +:+ "==" +:+ v).
    assert (strip line = line) as ->.
    { apply strip_no_space. unfold line.
      by rewrite !all_chars_app, Hns, Hvs. }
    assert (String.eqb line "" = false) as ->.
    { unfold line. by destruct name. }
    assert (startswith "#" line = false) as ->.
    { unfold line. destruct name as [|c name]; [done |].
      rewrite append_cons. exact Hhash. }
    rewrite (contains_without_first_char ">" "=" line).
    2: { unfold line. by rewrite !all_chars_app, Hngt, Hvgt. }
    unfold line. rewrite (contains_middle "==" name v).
    rewrite (split_double_equals name v Hneq Hveq).
    cbn [negb andb unpack_pair].
    rewrite (keep_name_chars_id _ Hname), (strip_no_space _ Hns).
    rewrite (truthy_nonempty _ Hvne).
    change (default "" (Some v)) with v.
    by rewrite (strip_no_space _ Hvs).
  - cbn [truthy]. rewrite (strip_no_space _ Hns).
    destruct (String.eqb_spec name ""); [done |]. rewrite Hhash.
    rewrite (contains_without_first_char ">" "=" name Hngt).
    rewrite (contains_without_first_char "=" "=" name Hneq).
    rewrite (first_word_no_space _ Hne Hns).
    cbn [negb andb truthy].
    by rewrite (keep_name_chars_id _ Hname), (strip_no_space _ Hns).
Qed.

Lemma parse_requirements_lines_round_trip requirements : forall packages,
  NoDup (dict_keys (packages ++ requirements)) ->
  Forall plain_requirement requirements ->
  parse_requirements_lines (map requirement_line requirements) packages
  = Ret (packages ++ requirements).
Proof.
  induction requirements as [|[name version] requirements IH];
    intros packages Hnd Hplain; cbn [map parse_requirements_lines].
  - by rewrite app_nil_r.
  - apply Forall_cons in Hplain as [Hitem Hplain].
    rewrite (requirement_line_parses_back packages name version Hitem).
    assert (name ∉ dict_keys packages) as Hfresh.
    { unfold dict_keys in *. rewrite map_app in Hnd. simpl in Hnd.
      apply NoDup_app in Hnd as (_ & Hdisj & _).
      intros Hin. apply (Hdisj _ Hin). by left. }
    rewrite (dict_set_fresh _ _ _ Hfresh).
    rewrite IH; [by rewrite <- app_assoc | by rewrite <- app_assoc | done].
Qed.

End ManifestRoundTrip.

(** X1.  Whatever the manifest holds, the package names
    [parse_requirements_txt] returns are made of letters, digits, [-], [_]
    and [.] only. *)
Theorem parse_requirements_txt_names lines packages :
  parse_requirements_txt lines = Ret packages ->
  forall name, name ∈ dict_keys packages -> all_chars name_char name = true.
Proof.
  intros Hparse. apply Forall_forall.
  eapply parse_requirements_lines_names; [| exact Hparse]. constructor.
Qed.


Section CandidateWindow.
Context {W : Type} {E : Externals W} {Pk : Packaging}.

(** What [get_version_range] went through when it returns candidates. *)
Lemma get_version_range_inv name current latest w versions w' :
  get_version_range name current latest w = (Ret versions, w') ->
  versions = [] \/
  exists r ks sorted i j,
    requests_get (pypi_url name) w = (Ret r, w') /\
    status_code r = 200%Z /\
    json_releases_keys r = Ret ks /\
    sort_versions ks = Ret sorted /\
    first_index_ge current sorted 0 0 = Ret i /\
    first_index_ge latest sorted 0 (length sorted) = Ret j /\
    versions = slice sorted i (j + 1).
Proof.
  unfold get_version_range, try_except, bind, lift, ret.
  destruct (requests_get (pypi_url name) w) as [[r|e] w1] eqn:Hget.
  2: { destruct (_ || _); intros [= <- _]; auto. }
  destruct (Z.eqb_spec (status_code r) 200) as [H200|];
    [| intros [= <- _]; auto]. simpl.
  destruct (json_releases_keys r) as [ks|e] eqn:Hks.
  2: { destruct (_ || _); intros [= <- _]; auto. }
  destruct (sort_versions ks) as [sorted|e] eqn:Hsort.
  2: { destruct (_ || _); intros [= <- _]; auto. }
  destruct (first_index_ge current sorted 0 0) as [i|e] eqn:Hi.
  2: { destruct (_ || _); intros [= <- _]; auto. }
  destruct (first_index_ge latest sorted 0 (length sorted)) as [j|e] eqn:Hj.
  2: { destruct (_ || _); intros [= <- _]; auto. }
  intros [= <- <-]. right. by exists r, ks, sorted, i, j.
Qed.

Lemma slice_sublist {A} (l : list A) a b : slice l a b `sublist_of` l.
Proof.
  unfold slice. etrans; [apply sublist_take | apply sublist_drop].
Qed.

Lemma sort_keys_unparsable ks k :
  k ∈ ks -> version_parse k = None -> exists e, sort_keys ks = Raise e.
Proof.
  induction 1 as [k ks | k k' ks Hin IH]; intros Hk; simpl; unfold parse.
  - rewrite Hk. eauto.
  - destruct (version_parse k'); [| eauto].
    destruct (IH Hk) as [e ->]. eauto.
Qed.

(** The generator stops at the first element that reaches the target; all
    the elements before it are below the target. *)
Lemma first_index_ge_spec target vs : forall i dflt n,
  first_index_ge target vs i dflt = Ret n ->
  (n = dflt /\ Forall (fun v => strictly_below v target) vs) \/
  exists k v,
    n = i + k /\ vs !! k = Some v /\ reaches v target /\
    Forall (fun v => strictly_below v target) (take k vs).
Proof.
  induction vs as [|v vs IH]; intros i dflt n; simpl.
  - intros [= <-]. left. by split.
  - unfold parse. destruct (version_parse v) as [kv|] eqn:Hv; [| done].
    destruct (version_parse target) as [kt|] eqn:Ht; [| done].
    destruct (version_ge kv kt) eqn:Hge.
    + intros [= <-]. right. exists 0, v. rewrite Nat.add_0_r.
      repeat split; try done. by exists kv, kt.
    + intros Hrest.
      assert (strictly_below v target) as Hbelow by (by exists kv, kt).
      destruct (IH _ _ _ Hrest) as [[-> Hall] | (k & u & -> & Hu & Hr & Hall)].
      * left. split; [done |]. by constructor.
      * right. exists (S k), u. repeat split; try done; [lia |].
        simpl. by constructor.
Qed.

End CandidateWindow.

(** X3.  Every candidate [get_version_range] returns is one of the releases
    the registry listed in the 200 response to that very request, and a
    release is never returned twice as long as the registry lists none
    twice. *)
Theorem candidates_are_releases
    {W : Type} {E : Externals W} {Pk : Packaging}
    name current latest w versions w' :
  get_version_range name current latest w = (Ret versions, w') ->
  (forall v, v ∈ versions ->
     exists r ks,
       requests_get (pypi_url name) w = (Ret r, w') /\
       status_code r = 200%Z /\
       json_releases_keys r = Ret ks /\ v ∈ ks) /\
  (releases_keys_distinct E -> NoDup versions).
Proof.
  intros Hrange. split; [| intros Hd; by eapply get_version_range_NoDup].
  destruct (get_version_range_inv _ _ _ _ _ _ Hrange)
    as [-> | (r & ks & sorted & i & j & Hget & H200 & Hks & Hsort
              & _ & _ & ->)].
  { by intros v ?%elem_of_nil. }
  intros v Hv. exists r, ks. repeat split; try done.
  rewrite <- (sort_versions_perm _ _ Hsort).
  eapply elem_of_sublist; [exact Hv | apply slice_sublist].
Qed.

(** X4.  The candidates come in ascending order of parsed version: of two
    candidates, the earlier is never above the later. *)
Theorem candidates_are_ascending
    {W : Type} {E : Externals W} {Pk : Packaging}
    name current latest w versions w' :
  (forall a b, version_lt a b = true -> version_lt b a = false) ->
  (forall a b c,
     version_lt b a = false -> version_lt c b = false ->
     version_lt c a = false) ->
  get_version_range name current latest w = (Ret versions, w') ->
  StronglySorted not_above versions.
Proof.
  intros Hasym Htrans Hrange.
  destruct (get_version_range_inv _ _ _ _ _ _ Hrange)
    as [-> | (r & ks & sorted & i & j & _ & _ & _ & Hsort & _ & _ & ->)].
  { constructor. }
  apply slice_sorted. by eapply sort_versions_sorted.
Qed.

(** X5.  One release name that [version.parse] rejects empties the candidate
    list: [get_version_range] returns [[]], whatever the other releases. *)
Theorem unparsable_release_empties_candidates
    {W : Type} {E : Externals W} {Pk : Packaging}
    name current latest w r w1 ks k :
  requests_get (pypi_url name) w = (Ret r, w1) ->
  status_code r = 200%Z ->
  json_releases_keys r = Ret ks ->
  k ∈ ks ->
  version_parse k = None ->
  get_version_range name current latest w = (Ret [], w1).
Proof.
  intros Hget H200 Hks Hin Hk.
  unfold get_version_range, try_except, bind, lift, ret.
  rewrite Hget, H200, Hks. simpl.
  destruct (sort_keys_unparsable ks k Hin Hk) as [e He].
  unfold sort_versions. rewrite He.
  by rewrite (sort_keys_raises _ _ He), orb_true_r.
Qed.

(** X6.  The candidate list stops at the first release that reaches the
    latest version: every candidate but the last is below the latest
    version. *)
Theorem candidates_stop_at_latest
    {W : Type} {E : Externals W} {Pk : Packaging}
    name current latest w versions w' init last :
  get_version_range name current latest w = (Ret versions, w') ->
  versions = init ++ [last] ->
  Forall (fun v => strictly_below v latest) init.
Proof.
  intros Hrange Hsplit.
  destruct (get_version_range_inv _ _ _ _ _ _ Hrange)
    as [-> | (r & ks & sorted & i & j & _ & _ & _ & _ & _ & Hj & Hv)].
  { by destruct init. }
  assert (Forall (fun v => strictly_below v latest) (take j sorted)) as Hlow.
  { destruct (first_index_ge_spec _ _ _ _ _ Hj)
      as [[-> Hall] | (k & u & -> & _ & _ & Hall)]; [| done].
    by rewrite firstn_all. }
  apply Forall_lookup. intros n v Hn.
  assert (versions !! n = Some v) as Hin.
  { rewrite Hsplit. by apply lookup_app_l_Some. }
  assert (n + 1 < length versions) as Hlen.
  { rewrite Hsplit, length_app. simpl.
    apply lookup_lt_Some in Hn. lia. }
  rewrite Hv in Hin, Hlen. unfold slice in Hin, Hlen.
  rewrite length_take, length_drop in Hlen.
  rewrite lookup_take_lt in Hin by lia. rewrite lookup_drop in Hin.
  rewrite Forall_lookup in Hlow. apply (Hlow (i + n)).
  rewrite lookup_take_lt by lia. done.
Qed.

(** X7.  When some listed release reaches the current version, no candidate
    is below it: every candidate reaches the current version. *)
Theorem candidates_reach_current
    {W : Type} {E : Externals W} {Pk : Packaging}
    name current latest w versions w' r ks k :
  (forall a b, version_ge a b = negb (version_lt a b)) ->
  (forall a b, version_lt a b = true -> version_lt b a = false) ->
  (forall a b c,
     version_lt b a = false -> version_lt c b = false ->
     version_lt c a = false) ->
  get_version_range name current latest w = (Ret versions, w') ->
  requests_get (pypi_url name) w = (Ret r, w') ->
  json_releases_keys r = Ret ks ->
  k ∈ ks -> reaches k current ->
  Forall (fun v => reaches v current) versions.
Proof.
  intros Hge Hasym Htrans Hrange Hget Hks Hk Hreach.
  destruct (get_version_range_inv _ _ _ _ _ _ Hrange)
    as [-> | (r' & ks' & sorted & i & j & Hget' & _ & Hks' & Hsort & Hi & _
              & ->)].
  { constructor. }
  rewrite Hget in Hget'. injection Hget' as <-.
  rewrite Hks in Hks'. injection Hks' as <-.
  pose proof (sort_versions_sorted Hasym Htrans _ _ Hsort) as Hsorted.
  assert (k ∈ sorted) as Hk' by (by rewrite (sort_versions_perm _ _ Hsort)).
  destruct (first_index_ge_spec _ _ _ _ _ Hi)
    as [[-> Hall] | (n & u & -> & Hu & Hur & _)].
  { rewrite Forall_forall in Hall.
    destruct (Hall k Hk') as (kv & kt & Hv & Ht & Hfalse).
    destruct Hreach as (kv' & kt' & Hv' & Ht' & Htrue). congruence. }
  simpl. unfold slice. apply Forall_take.
  rewrite <- (take_drop n sorted) in Hsorted.
  apply StronglySorted_app in Hsorted as (_ & _ & Htail).
  rewrite (drop_S _ _ _ Hu) in Htail |- *.
  apply StronglySorted_inv in Htail as [_ Hall].
  constructor; [done |].
  eapply Forall_impl; [exact Hall |].
  intros v (ku & kv & Hpu & Hpv & Hle).
  destruct Hur as (ku' & kc & Hpu' & Hpc & Huc).
  rewrite Hpu in Hpu'. injection Hpu' as <-.
  exists kv, kc. repeat split; try done.
  rewrite Hge in Huc |- *. apply negb_true_iff in Huc.
  apply negb_true_iff. by eapply Htrans.
Qed.

Section Sandbox.
Context {W : Type} {E : Externals W} (P : Project).

Lemma verify_items_true installed items :
  verify_items installed items = Ret true <->
  Forall (fun item =>
            lower (fst item) ∈ lower_keys installed /\
            (truthy (snd item) = true ->
             installed !! fst item = snd item)) items.
Proof.
  induction items as [|[package version] items IH]; simpl.
  - split; [constructor | done].
  - rewrite Forall_cons. simpl.
    destruct (bool_decide_reflect (lower package ∈ lower_keys installed))
      as [Hin|Hout]; simpl; [| split; [done | tauto]].
    destruct version as [v|]; simpl; [| rewrite IH; naive_solver].
    destruct (String.eqb_spec v "") as [->|Hv]; simpl;
      [rewrite IH; naive_solver |].
    destruct (installed !! package) as [got|] eqn:Hgot.
    + destruct (String.eqb_spec got v) as [->|Hne]; simpl.
      * rewrite IH. naive_solver.
      * split; [done |]. intros [[_ Hv'] _]. specialize (Hv' eq_refl).
        congruence.
    + split; [done |]. intros [[_ Hv'] _]. by specialize (Hv' eq_refl).
Qed.

Lemma setup_test_environment_true w w' :
  setup_test_environment P w = (Ret true, w') ->
  exists w1 w2,
    create_virtual_environment P w = (Ret true, w1) /\
    install_requirements P (current_packages P) w1 = (Ret true, w2) /\
    verify_installation P (current_packages P) w2 = (Ret true, w').
Proof.
  unfold setup_test_environment, try_except, bind, ret.
  destruct (create_virtual_environment P w) as [[[]|e] w1] eqn:Hc; simpl;
    try discriminate.
  destruct (install_requirements P _ w1) as [[[]|e] w2] eqn:Hi; simpl;
    try discriminate.
  destruct (verify_installation P _ w2) as [[[]|e] w3] eqn:Hv; simpl;
    try discriminate.
  intros [= <-]. by exists w1, w2.
Qed.

End Sandbox.

(** X8.  When [verify_installation] comes to an answer, the answer is true
    exactly when every required package is among the installed names, case
    ignored, and every required version is the installed version under the
    required spelling. *)
Theorem verify_items_true_iff
    (installed : gmap string string) (requirements : dict (option string)) :
  verify_items installed requirements = Ret true <->
  forall package version,
    (package, version) ∈ requirements ->
    lower package ∈ lower_keys installed /\
    (truthy version = true -> installed !! package = version).
Proof.
  rewrite verify_items_true, Forall_forall. split.
  - intros H package version Hin. apply (H (package, version) Hin).
  - intros H [package version] Hin. by apply H.
Qed.

(** X9.  A set-up that returns true has been through a creation and a batch
    installation that both succeeded, and ends on a [pip list] in which
    every package of the current set is listed, at its pinned version where
    it has one. *)
Theorem setup_certifies_baseline
    {W : Type} {E : Externals W} (P : Project) w w' :
  setup_test_environment P w = (Ret true, w') ->
  exists w1 w2 installed,
    create_virtual_environment P w = (Ret true, w1) /\
    install_requirements P (current_packages P) w1 = (Ret true, w2) /\
    get_installed_packages P w2 = (Ret installed, w') /\
    forall package version,
      (package, version) ∈ current_packages P ->
      lower package ∈ lower_keys installed /\
      (truthy version = true -> installed !! package = version).
Proof.
  intros (w1 & w2 & Hcreate & Hinstall & Hverify)%setup_test_environment_true.
  exists w1, w2. unfold verify_installation, bind, lift in Hverify.
  destruct (get_installed_packages P w2) as [[installed|e] w3]; [| done].
  injection Hverify as Hitems <-. exists installed.
  apply verify_items_true in Hitems. rewrite Forall_forall in Hitems.
  do 3 (split; [done |]).
  intros package v Hin. by apply (Hitems (package, v)).
Qed.

(** X10.  [install_requirements] leaves no temporary requirements file
    behind, whether the installation succeeded, failed or raised: on every
    way out the file is gone, unless removing it is what raised. *)
Theorem install_requirements_removes_temp_file
    {W : Type} {E : Externals W} (P : Project) requirements w o w' :
  let temp := path_div (venv_path P) "temp_requirements.txt" in
  (forall w0 w1, path_unlink temp w0 = (Ret tt, w1) ->
                 path_exists temp w1 = false) ->
  install_requirements P requirements w = (o, w') ->
  path_exists temp w' = false \/
  exists w0 e, path_unlink temp w0 = (Raise e, w') /\ o = Raise e.
Proof.
  intros temp Hunlink. unfold install_requirements, try_finally. fold temp.
  match goal with |- context [match ?body w with _ => _ end] =>
    destruct (body w) as [r w0] end.
  destruct (path_exists temp w0) eqn:Hthere.
  - destruct (path_unlink temp w0) as [[[]|e] w1] eqn:Hrm.
    + intros [= <- <-]. left. by eapply Hunlink.
    + intros [= <- <-]. right. by exists w0, e.
  - intros [= <- <-]. by left.
Qed.


Section Results.
Context {W : Type} {E : Externals W} {Pk : Packaging} (P : Project).

Lemma passing_candidates_not_current name current versions : forall w v,
  v ∈ passing_candidates P name current versions w -> v <> current.
Proof.
  induction versions as [|x xs IH]; intros w v; simpl.
  - by intros ?%elem_of_nil.
  - destruct (String.eqb_spec x current) as [->|Hne]; [apply IH |].
    rewrite elem_of_app. intros [Hx | Hrest]; [| by eapply IH].
    destruct (candidate_passes P name x w).
    + by apply list_elem_of_singleton in Hx as ->.
    + by apply elem_of_nil in Hx.
Qed.

End Results.

(** X12.  The result of [test_package_update] is for the version asked for;
    it reports success exactly when it carries no error message, and a
    success comes with the output of the test run. *)
Theorem test_package_update_result
    {W : Type} {E : Externals W} (P : Project) name version w r w' :
  test_package_update P name version w = (Ret r, w') ->
  new_version r = version /\
  (success r = true <-> error_message r = None) /\
  (success r = true -> is_Some (test_output r)).
Proof.
  unfold test_package_update.
  destruct (negb (truthy (current_packages_get P name))).
  { intros [= <- _]. simpl. by repeat split. }
  unfold try_except, bind, ret.
  destruct (install_package P name (Some version) w) as [[[]|e] w1]; simpl.
  - destruct (run_tests P w1) as [[[[] out]|e] w2]; simpl;
      intros [= <- _]; simpl; repeat split; try done; eauto.
  - intros [= <- _]. simpl. by repeat split.
  - intros [= <- _]. simpl. by repeat split.
Qed.

(** X14.  The compatible version [find_compatible_update] reports is never
    the current version. *)
Theorem compatible_version_is_never_current
    {W : Type} {E : Externals W} {Pk : Packaging} (P : Project)
    name w status w' :
  find_compatible_update P name w = (Ret status, w') ->
  compatible_version status <> Some (current_version status).
Proof.
  intros Hfind.
  destruct (find_compatible_update_cases _ _ _ _ _ Hfind)
    as [(Hc & _) | (current & latest & versions & w2 & Hres)].
  { by rewrite Hc. }
  rewrite (find_compatible_update_resolved _ _ _ _ _ _ _ Hres) in Hfind.
  destruct Hres as (Hcur & Hne & _).
  destruct (candidates_loop P name current Hcur Hne versions search_start w2)
    as (s & Hloop & _ & Hc).
  unfold bind in Hfind. rewrite Hloop in Hfind. injection Hfind as <- _.
  simpl. rewrite Hc. simpl.
  destruct (last (passing_candidates P name current versions w2)) as [v|]
    eqn:Hlast; [| done].
  intros [= ->]. apply last_Some_elem_of in Hlast.
  by eapply passing_candidates_not_current.
Qed.

Section Reasons.
Context {W : Type} {E : Externals W} {Pk : Packaging} (P : Project).

Lemma test_package_update_failure_message name version w r w' :
  test_package_update P name version w = (Ret r, w') ->
  success r = false -> is_Some (error_message r).
Proof.
  unfold test_package_update.
  destruct (negb (truthy (current_packages_get P name))).
  { intros [= <- _]. simpl. eauto. }
  unfold try_except, bind, ret.
  destruct (install_package P name (Some version) w) as [[[]|e] w1]; simpl.
  - destruct (run_tests P w1) as [[[[] out]|e] w2]; simpl;
      intros [= <- _]; simpl; eauto; done.
  - intros [= <- _]. simpl. eauto.
  - intros [= <- _]. simpl. eauto.
Qed.

Lemma candidates_loop_reasons name current versions : forall s w s' w',
  reasons_ok s ->
  for_each (try_candidate P name current) versions s w = (Ret s', w') ->
  reasons_ok s'.
Proof.
  induction versions as [|v vs IH]; intros s w s' w' Hok; simpl.
  - by intros [= <- _].
  - unfold bind.
    destruct (try_candidate P name current s v w) as [[s1|e] w1] eqn:Hstep;
      [| done].
    apply IH. unfold try_candidate in Hstep.
    destruct (String.eqb v current); [by injection Hstep as <- _ |].
    unfold bind in Hstep.
    destruct (setup_test_environment P w) as [[b|e] wa]; [| done].
    destruct (test_package_update P name v wa) as [[r|e] wb] eqn:Htest;
      [| done].
    destruct Hok as [Hreason Hall].
    destruct (success r) eqn:Hs; injection Hstep as <- _; split; simpl;
      try done.
    + intros u reason. destruct (decide (v = u)) as [->|Hne].
      * rewrite lookup_insert_eq. intros [= <-].
        by eapply test_package_update_failure_message.
      * rewrite lookup_insert_ne by done. apply Hreason.
    + intros Hnone u. rewrite elem_of_app, list_elem_of_singleton.
      destruct (decide (v = u)) as [->|Hne].
      * rewrite lookup_insert_eq. eauto.
      * rewrite lookup_insert_ne by done. intros [Hu | ->]; [| done].
        by apply Hall.
Qed.

Lemma reasons_ok_start : reasons_ok search_start.
Proof.
  split; simpl.
  - intros v reason. by rewrite lookup_empty.
  - intros _ v ?%elem_of_nil. done.
Qed.

(** The ledger facts of a returned status. *)
Lemma find_compatible_update_ledger name w status w' :
  releases_keys_distinct E ->
  find_compatible_update P name w = (Ret status, w') ->
  forall v, compatible_version status = Some v ->
            v ∈ tested_versions status /\
            failed_versions status !! v = None.
Proof.
  intros Hdistinct Hfind.
  destruct (find_compatible_update_cases _ _ _ _ _ Hfind)
    as [(Hc & _) | (cur & latest & versions & w2 & Hres)].
  { by rewrite Hc. }
  rewrite (find_compatible_update_resolved _ _ _ _ _ _ _ Hres) in Hfind.
  destruct Hres as (_ & _ & w1 & _ & _ & Hrange).
  unfold bind in Hfind.
  destruct (for_each _ versions search_start w2) as [[s|e] w3] eqn:Hloop;
    [| done].
  injection Hfind as <- _. simpl.
  destruct (candidates_loop_ledger P name cur versions search_start w2 s w3)
    as [_ Hcompat]; auto using ledger_ok_start.
  - eapply get_version_range_NoDup; eauto.
  - intros v _. simpl. by intros ?%elem_of_nil.
Qed.

(** Every status in the mapping is what [find_compatible_update] returned
    for its key. *)
Lemma evaluate_all_origin names : forall acc w results w' name status,
  evaluate_all P names acc w = (Ret results, w') ->
  results !! name = Some status ->
  acc !! name = Some status \/
  exists w0 w1, find_compatible_update P name w0 = (Ret status, w1).
Proof.
  unfold evaluate_all.
  induction names as [|n names IH]; intros acc w results w' name status;
    simpl.
  - intros [= <- _]. auto.
  - unfold bind at 1. unfold bind at 1.
    destruct (find_compatible_update P n w) as [[st|e] w1] eqn:Hf; [| done].
    unfold ret at 1. intros Hrest Hl.
    destruct (IH _ _ _ _ _ _ Hrest Hl) as [Ha | ?]; [| auto].
    destruct (decide (n = name)) as [->|Hne].
    + rewrite lookup_insert_eq in Ha. injection Ha as <-. eauto.
    + rewrite lookup_insert_ne in Ha by done. auto.
Qed.

Lemma update_all_packages_origin w results w' name status :
  update_all_packages P w = (Ret results, w') ->
  results !! name = Some status ->
  exists w0 w1, find_compatible_update P name w0 = (Ret status, w1).
Proof.
  intros Hall Hl.
  destruct (setup_test_environment_returns P w) as ([] & w1 & Hsetup).
  - rewrite (update_all_packages_ready _ _ _ Hsetup) in Hall.
    destruct (evaluate_all_origin _ _ _ _ _ _ _ Hall Hl) as [Ha|]; [| done].
    by rewrite lookup_empty in Ha.
  - rewrite (update_all_packages_not_ready _ _ _ Hsetup) in Hall.
    injection Hall as <- _. by rewrite lookup_empty in Hl.
Qed.

End Reasons.

(** X13.  In a status [find_compatible_update] returns every failure has its
    reason, and when no version is reported compatible, every version that
    was tested is in [failed_versions]. *)
Theorem all_failed_means_all_in_ledger
    {W : Type} {E : Externals W} {Pk : Packaging} (P : Project)
    name w status w' :
  find_compatible_update P name w = (Ret status, w') ->
  (forall v reason,
     failed_versions status !! v = Some reason -> is_Some reason) /\
  (compatible_version status = None ->
   forall v, v ∈ tested_versions status ->
             exists message,
               failed_versions status !! v = Some (Some message)).
Proof.
  intros Hfind.
  assert ((forall v reason,
             failed_versions status !! v = Some reason -> is_Some reason) /\
          (compatible_version status = None ->
           forall v, v ∈ tested_versions status ->
                     is_Some (failed_versions status !! v))) as [Hr Hall].
  { destruct (find_compatible_update_cases _ _ _ _ _ Hfind)
      as [(Hc & Ht & Hf) | (cur & latest & versions & w2 & Hres)].
    { rewrite Hf, Ht. split.
      - intros v reason. by rewrite lookup_empty.
      - intros _ v ?%elem_of_nil. done. }
    rewrite (find_compatible_update_resolved _ _ _ _ _ _ _ Hres) in Hfind.
    unfold bind in Hfind.
    destruct (for_each _ versions search_start w2) as [[s|e] w3] eqn:Hloop;
      [| done].
    injection Hfind as <- _. simpl.
    eapply candidates_loop_reasons; [apply reasons_ok_start | exact Hloop]. }
  split; [exact Hr |]. intros Hnone v Hv.
  destruct (Hall Hnone v Hv) as [reason Hreason].
  destruct (Hr _ _ Hreason) as [message ->]. eauto.
Qed.

(** X16.  Every update that [main] draws from the results of
    [update_all_packages], with or without a selection of packages, is for
    a package of the results and names the compatible version of its
    status: a version other than the current one that was tested and is not
    in the failure ledger. *)
Theorem updates_are_tested_versions
    {W : Type} {E : Externals W} {Pk : Packaging} (P : Project)
    w results w' selected name version :
  releases_keys_distinct E ->
  update_all_packages P w = (Ret results, w') ->
  filter_updates (collect_updates results) selected !! name = Some version ->
  exists status,
    results !! name = Some status /\
    compatible_version status = Some version /\
    version <> current_version status /\
    version ∈ tested_versions status /\
    failed_versions status !! version = None.
Proof.
  intros Hdistinct Hall Hupdate.
  assert (collect_updates results !! name = Some version) as Hcollect.
  { unfold filter_updates in Hupdate.
    destruct selected as [[|p chosen]|]; try done.
    by apply map_lookup_filter_Some in Hupdate as [? _]. }
  unfold collect_updates in Hcollect.
  apply lookup_omap_Some in Hcollect as (status & Hcond & Hstatus).
  exists status. split; [done |].
  destruct (truthy (compatible_version status)); [| done].
  destruct (bool_decide_reflect
              (compatible_version status = Some (current_version status)))
    as [|Hne]; [done |]. simpl in Hcond.
  split; [done |]. split; [by intros -> |].
  destruct (update_all_packages_origin P _ _ _ _ _ Hall Hstatus)
    as (w0 & w1 & Hfind).
  by apply (find_compatible_update_ledger P name w0 status w1).
Qed.

Section Stripping.

Lemma rstrip_spaces t : all_chars is_space t = true -> rstrip t = "".
Proof.
  induction t as [|c t IH]; simpl; [done |].
  intros [Hc Ht]%andb_true_iff. by rewrite (IH Ht), Hc.
Qed.

Lemma rstrip_app_spaces s t :
  all_chars is_space t = true -> rstrip (s +:+ t) = rstrip s.
Proof.
  intros Ht. induction s as [|c s IH].
  - rewrite append_nil_l. by apply rstrip_spaces.
  - rewrite append_cons. simpl. by rewrite IH.
Qed.

Lemma lstrip_app s t :
  lstrip (s +:+ t) =
  match lstrip s with
  | EmptyString => lstrip t
  | rest => rest +:+ t
  end.
Proof.
  induction s as [|c s IH]; [done |].
  rewrite append_cons. simpl. by destruct (is_space c).
Qed.

Lemma rstrip_cons c s :
  is_space c = false -> rstrip (String c s) = String c (rstrip s).
Proof. intros Hc. simpl. destruct (rstrip s); by rewrite ?Hc. Qed.

Lemma rstrip_idem s : rstrip (rstrip s) = rstrip s.
Proof.
  induction s as [|c s IH]; simpl; [done |].
  destruct (rstrip s) as [|d r] eqn:Hr.
  - destruct (is_space c) eqn:Hc; simpl; [done | by rewrite Hc].
  - change (rstrip (String c (String d r)))
      with (match rstrip (String d r) with
            | EmptyString =>
                if is_space c then EmptyString else String c EmptyString
            | rest => String c rest
            end).
    by rewrite IH.
Qed.

(** What [lstrip] leaves is empty or starts with a character that is not a
    space. *)
Lemma lstrip_head s :
  lstrip s = "" \/ exists c r, lstrip s = String c r /\ is_space c = false.
Proof.
  induction s as [|c s IH]; simpl; [by left |].
  destruct (is_space c) eqn:Hc; [done |]. right. by exists c, s.
Qed.

Lemma strip_head s :
  strip s = "" \/ exists c r, strip s = String c r /\ is_space c = false.
Proof.
  unfold strip. destruct (lstrip_head s) as [-> | (c & r & -> & Hc)];
    [by left |].
  right. exists c, (rstrip r). by rewrite (rstrip_cons _ _ Hc).
Qed.

Lemma lstrip_head_id c r :
  is_space c = false -> lstrip (String c r) = String c r.
Proof. intros Hc. simpl. by rewrite Hc. Qed.

Lemma strip_idem s : strip (strip s) = strip s.
Proof.
  destruct (strip_head s) as [-> | (c & r & Hs & Hc)]; [done |].
  unfold strip at 1. rewrite Hs, (lstrip_head_id _ _ Hc), <- Hs.
  unfold strip. apply rstrip_idem.
Qed.

Lemma strip_file_line s : strip (file_line s) = strip s.
Proof.
  unfold strip, file_line. rewrite lstrip_app.
  destruct (lstrip s) as [|c r] eqn:Hs; [done |].
  by rewrite rstrip_app_spaces.
Qed.

Lemma parse_requirement_line_file_line packages line :
  parse_requirement_line packages (file_line line)
  = parse_requirement_line packages line.
Proof. unfold parse_requirement_line. by rewrite strip_file_line. Qed.

Lemma update_requirement_line_file_line updates line :
  update_requirement_line updates (file_line line)
  = update_requirement_line updates line.
Proof. unfold update_requirement_line. by rewrite strip_file_line. Qed.

(** A prefix [a] that keeps its last character under [rstrip] is kept whole
    when something that does not vanish follows. *)
Lemma rstrip_app_kept a b :
  rstrip b <> "" -> rstrip (a +:+ b) = a +:+ rstrip b.
Proof.
  intros Hb. induction a as [|c a IH]; [done |].
  rewrite !append_cons. simpl. rewrite IH.
  destruct (a +:+ rstrip b) eqn:Heq; [| done].
  destruct a; [| done]. by rewrite append_nil_l in Heq.
Qed.

Lemma span_until_app stop a c b :
  all_chars (fun x => negb (stop x)) a = true -> stop c = true ->
  span_until stop (a +:+ String c b) = (a, String c b).
Proof.
  intros Ha Hc. induction a as [|x a IH].
  - rewrite append_nil_l. simpl. by rewrite Hc.
  - rewrite append_cons. simpl in Ha |- *.
    apply andb_true_iff in Ha as [Hx Ha]. apply negb_true_iff in Hx.
    by rewrite Hx, (IH Ha).
Qed.

Lemma span_until_all stop a :
  all_chars (fun x => negb (stop x)) a = true ->
  span_until stop a = (a, "").
Proof.
  induction a as [|x a IH]; simpl; [done |].
  intros [Hx Ha]%andb_true_iff. apply negb_true_iff in Hx.
  by rewrite Hx, (IH Ha).
Qed.

Lemma span_until_fst stop s :
  all_chars (fun x => negb (stop x)) (fst (span_until stop s)) = true.
Proof.
  induction s as [|c s IH]; simpl; [done |].
  destruct (stop c) eqn:Hc; [done |].
  destruct (span_until stop s) as [a b]. simpl in *. by rewrite Hc, IH.
Qed.

(** A non-empty first group starts where the line starts. *)
Lemma span_until_head stop c r g rest :
  span_until stop (String c r) = (g, rest) -> g <> "" ->
  exists g', g = String c g'.
Proof.
  simpl. destruct (stop c); [by intros [= <- _] |].
  destruct (span_until stop r) as [a b]. intros [= <- _] _. eauto.
Qed.

End Stripping.

Section RequirementsRewrite.

Lemma startswith_cons1 (a c : ascii) (r : string) :
  startswith (String a "") (String c r) = Ascii.eqb a c.
Proof. simpl. by rewrite andb_true_r. Qed.

(** A line the updater rewrote is left alone by a second pass. *)
Lemma rewritten_line_is_stable updates line g version :
  strip line <> "" ->
  startswith "#" (strip line) = false ->
  match_requirement (strip line) = Some g ->
  updates !! strip g = Some version ->
  update_requirement_line updates (strip g +:+ "==" +:+ version)
  = strip g +:+ "==" +:+ version.
Proof.
  intros Hne Hhash Hmatch Hup.
  destruct (strip_head line) as [Hnil | (c & r & Hl & Hc)]; [done |].
  rewrite Hl in Hhash, Hmatch. rewrite startswith_cons1 in Hhash.
  unfold match_requirement in Hmatch.
  destruct (span_until is_spec_char (String c r)) as [g0 rest] eqn:Hspan.
  simpl in Hmatch.
  assert (g0 = g /\ g <> "") as [-> Hg].
  { destruct g0; [done |]. by injection Hmatch as <-. }
  destruct (span_until_head _ _ _ _ _ Hspan Hg) as [g' ->].
  pose proof (span_until_fst is_spec_char (String c r)) as Hplain.
  rewrite Hspan in Hplain. simpl fst in Hplain.
  set (name := strip (String c g')) in *.
  assert (name = String c (rstrip g')) as Hname.
  { unfold name, strip.
    by rewrite (lstrip_head_id _ _ Hc), (rstrip_cons _ _ Hc). }
  assert (all_chars (fun x => negb (is_spec_char x)) name = true) as Hnplain.
  { by apply strip_all_chars. }
  assert (strip name = name) as Hstrip by apply strip_idem.
  assert (strip (name +:+ "==" +:+ version)
          = name +:+ String "=" (String "=" (rstrip version))) as Hstripped.
  { unfold strip at 1.
    assert (lstrip (name +:+ "==" +:+ version) = name +:+ "==" +:+ version)
      as ->.
    { rewrite Hname, append_cons. by apply lstrip_head_id. }
    rewrite rstrip_app_kept.
    - change ("==" +:+ version) with (String "=" (String "=" version)).
      by rewrite !rstrip_cons.
    - change ("==" +:+ version) with (String "=" (String "=" version)).
      by rewrite !rstrip_cons. }
  unfold update_requirement_line. rewrite Hstripped.
  assert (String.eqb (name +:+ String "=" (String "=" (rstrip version))) ""
          = false) as ->.
  { by rewrite Hname, append_cons. }
  assert (startswith "#" (name +:+ String "=" (String "=" (rstrip version)))
          = false) as ->.
  { by rewrite Hname, append_cons, startswith_cons1. }
  cbn [orb]. unfold match_requirement.
  rewrite (span_until_app is_spec_char name "=" _ Hnplain eq_refl).
  cbn [fst]. rewrite Hname at 1. rewrite <- Hname.
  by rewrite Hstrip, Hup.
Qed.

Lemma update_requirement_line_idem updates line :
  update_requirement_line updates (update_requirement_line updates line)
  = update_requirement_line updates line.
Proof.
  unfold update_requirement_line at 2 3.
  destruct (String.eqb (strip line) "" || startswith "#" (strip line))
    eqn:Hskip.
  { unfold update_requirement_line. by rewrite strip_idem, Hskip. }
  destruct (match_requirement (strip line)) as [g|] eqn:Hmatch.
  2: { unfold update_requirement_line. by rewrite strip_idem, Hskip, Hmatch. }
  destruct (updates !! strip g) as [version|] eqn:Hup.
  2: { unfold update_requirement_line.
       by rewrite strip_idem, Hskip, Hmatch, Hup. }
  apply orb_false_iff in Hskip as [Hne Hhash].
  apply (rewritten_line_is_stable updates line g version); try done.
  by destruct (String.eqb_spec (strip line) "").
Qed.

(** On a line written for a plain requirement the updater sees the package
    name, and writes the line of the updated requirement. *)
Lemma update_requirement_line_plain updates item :
  plain_requirement item ->
  (forall version, updates !! fst item = Some version -> version <> "") ->
  update_requirement_line updates (requirement_line item)
  = requirement_line (updated_requirement updates item).
Proof.
  destruct item as [name ver]. intros (Hne & Hname & Hver) Hfull.
  simpl in Hne, Hname, Hver, Hfull.
  pose proof (all_chars_impl _ _ _ name_char_not_space Hname) as Hns.
  assert (all_chars (fun x => negb (is_spec_char x)) name = true) as Hnspec.
  { revert Hname. apply all_chars_impl. intros c Hc.
    by rewrite (name_char_not_spec _ Hc). }
  destruct name as [|c n] eqn:Hn; [done |]. rewrite <- Hn in *.
  assert (Ascii.eqb "#" c = false /\ is_space c = false) as [Hhash Hc].
  { rewrite Hn in Hname. simpl in Hname.
    apply andb_true_iff in Hname as [Hc _].
    split; [by apply name_char_not_hash |].
    apply name_char_not_space in Hc. by apply negb_true_iff in Hc. }
  assert (forall rest,
            all_chars not_space rest = true ->
            match rest with
            | EmptyString => True
            | String x _ => is_spec_char x = true
            end ->
            update_requirement_line updates (name +:+ rest)
            = match updates !! name with
              | Some version => name +:+ "==" +:+ version
              | None => name +:+ rest
              end) as Hgeneric.
  { intros rest Hrest Hhead. unfold update_requirement_line.
    rewrite strip_no_space by (by rewrite all_chars_app, Hns, Hrest).
    assert (String.eqb (name +:+ rest) "" = false) as ->
      by (by rewrite Hn, append_cons).
    assert (startswith "#" (name +:+ rest) = false) as ->
      by (by rewrite Hn, append_cons, startswith_cons1).
    cbn [orb]. unfold match_requirement.
    assert (fst (span_until is_spec_char (name +:+ rest)) = name) as ->.
    { destruct rest as [|x rest].
      - rewrite append_nil_r. by rewrite span_until_all.
      - by rewrite (span_until_app _ _ _ _ Hnspec Hhead). }
    rewrite Hn at 1. rewrite <- Hn.
    by rewrite (strip_no_space _ Hns). }
  unfold requirement_line, updated_requirement. cbn [fst snd].
  destruct ver as [v|]; cbn [snd] in Hver.
  - destruct Hver as [Hvne Hv]. rewrite (truthy_nonempty _ Hvne).
    change (default "" (Some v)) with v.
    rewrite (Hgeneric ("==" +:+ v)); [| | done].
    2: { change ("==" +:+ v) with (String "=" (String "=" v)). simpl.
         revert Hv. apply all_chars_impl. by intros x [? _]%plain_char_not. }
    destruct (updates !! name) as [version|] eqn:Hup.
    + by rewrite (truthy_nonempty _ (Hfull _ eq_refl)).
    + by rewrite (truthy_nonempty _ Hvne).
  - cbn [truthy]. rewrite <- (append_nil_r name) at 1.
    rewrite (Hgeneric ""); [| done | done].
    destruct (updates !! name) as [version|] eqn:Hup.
    + by rewrite (truthy_nonempty _ (Hfull _ eq_refl)).
    + by rewrite append_nil_r.
Qed.

End RequirementsRewrite.

(** X17.  Rewriting the lines of a requirements file is idempotent: a second
    pass with the same updates changes nothing. *)
Theorem update_requirement_lines_idempotent updates lines :
  update_requirement_lines updates (update_requirement_lines updates lines)
  = update_requirement_lines updates lines.
Proof.
  unfold update_requirement_lines. rewrite map_map.
  apply map_ext. intros line. apply update_requirement_line_idem.
Qed.

Section RereadingTheManifest.

Lemma parse_requirements_lines_file_lines lines : forall packages,
  parse_requirements_lines (map file_line lines) packages
  = parse_requirements_lines lines packages.
Proof.
  induction lines as [|line lines IH]; intros packages;
    cbn [map parse_requirements_lines]; [done |].
  rewrite parse_requirement_line_file_line.
  by destruct (parse_requirement_line packages line).
Qed.

Lemma update_requirement_lines_file_lines updates lines :
  update_requirement_lines updates (map file_line lines)
  = update_requirement_lines updates lines.
Proof.
  unfold update_requirement_lines. rewrite map_map. apply map_ext.
  intros line. apply update_requirement_line_file_line.
Qed.

Lemma updated_requirement_plain updates item :
  plain_requirement item ->
  (forall version,
     updates !! fst item = Some version ->
     version <> "" /\ all_chars plain_char version = true) ->
  plain_requirement (updated_requirement updates item).
Proof.
  intros (Hne & Hname & Hver) Hup. unfold updated_requirement.
  repeat split; try done. cbn [snd fst].
  destruct (updates !! fst item) as [version|]; [by apply Hup | done].
Qed.

End RereadingTheManifest.

(** X2.  The requirements file [install_requirements] writes for a mapping
    of plain requirements reads back, through [parse_requirements_txt], as
    that mapping: same packages, same versions, same order. *)
Theorem requirements_file_round_trip requirements :
  NoDup (dict_keys requirements) ->
  Forall plain_requirement requirements ->
  parse_requirements_txt
    (map file_line (map requirement_line requirements))
  = Ret requirements.
Proof.
  intros Hnd Hplain. unfold parse_requirements_txt.
  rewrite parse_requirements_lines_file_lines.
  by rewrite (parse_requirements_lines_round_trip requirements []).
Qed.

(** X18.  A manifest of plain requirement lines that the file updater has
    rewritten reads back as the same packages in the same order, each at the
    version of [updates] when it has one there and at its old version
    otherwise. *)
Theorem rewritten_manifest_reads_back updates requirements :
  NoDup (dict_keys requirements) ->
  Forall plain_requirement requirements ->
  (forall name version,
     updates !! name = Some version ->
     version <> "" /\ all_chars plain_char version = true) ->
  parse_requirements_txt
    (map file_line
       (update_requirement_lines updates
          (map file_line (map requirement_line requirements))))
  = Ret (map (updated_requirement updates) requirements).
Proof.
  intros Hnd Hplain Hup. unfold parse_requirements_txt.
  rewrite parse_requirements_lines_file_lines,
    update_requirement_lines_file_lines.
  unfold update_requirement_lines. rewrite map_map.
  rewrite (map_ext_in _
             (fun item => requirement_line (updated_requirement updates item))).
  2: { intros item Hin. rewrite Forall_forall in Hplain.
       apply update_requirement_line_plain.
       - apply Hplain. by apply list_elem_of_In.
       - intros version Hv. by destruct (Hup _ _ Hv). }
  rewrite <- (map_map (updated_requirement updates) requirement_line).
  apply (parse_requirements_lines_round_trip _ []).
  - simpl. unfold dict_keys in *. rewrite map_map. simpl. exact Hnd.
  - apply Forall_map. eapply Forall_impl; [exact Hplain |].
    intros item Hitem. apply updated_requirement_plain; [done |].
    intros version. apply Hup.
Qed.

Section FileUpdaterRuns.
Context {W : Type} {E : Externals W} {F : Files W} (project : string).

Lemma path_name_div (dir name : string) :
  contains "/" name = false -> path_name (path_div dir name) = name.
Proof.
  intros Hname. unfold path_div. induction dir as [|c dir IH].
  - rewrite append_nil_l. change ("/" +:+ name) with (String "/" name).
    simpl. by rewrite Hname.
  - rewrite append_cons. simpl.
    by rewrite (contains_middle "/" dir name).
Qed.

End FileUpdaterRuns.

(** X19.  When [update_requirements_txt] returns true, the file was there,
    a backup copy of it was made under the backup directory, the file was
    then read, and the text written to it is the rewritten lines joined by
    line feeds, with a line feed at the end; the world it leaves is the one
    that write left. *)
Theorem update_requirements_txt_success
    {W : Type} {E : Externals W} {F : Files W} (project : string)
    updates w w' :
  update_requirements_txt project updates w = (Ret true, w') ->
  path_exists (requirements_file project) w = true /\
  exists stamp w1 w2 lines w3,
    now_stamp w = (stamp, w1) /\
    shutil_copy2 (requirements_file project)
      (path_div (backup_dir project)
         ("requirements.txt" +:+ "." +:+ stamp +:+ ".bak")) w1
    = (Ret tt, w2) /\
    read_lines (requirements_file project) w2 = (Ret lines, w3) /\
    write_file (requirements_file project)
      (join_lines (update_requirement_lines updates lines) +:+ nl) w3
    = (Ret tt, w').
Proof.
  unfold update_requirements_txt, exists_, bind at 1, ret.
  destruct (path_exists (requirements_file project) w) eqn:Hthere; simpl;
    [| done].
  intros Hrun. split; [done |]. revert Hrun.
  unfold bind at 1, _create_backup, exists_, bind at 1, ret. rewrite Hthere.
  simpl. unfold bind at 1. destruct (now_stamp w) as [stamp w1] eqn:Hnow.
  unfold try_except at 1, bind at 1.
  assert (path_name (requirements_file project) = "requirements.txt") as ->
    by exact (path_name_div project "requirements.txt" eq_refl).
  destruct (shutil_copy2 _ _ w1) as [[[]|e] w2] eqn:Hcopy; simpl; [| done].
  unfold try_except, bind, ret.
  destruct (read_lines (requirements_file project) w2) as [[lines|e] w3]
    eqn:Hread.
  2: { simpl. unfold _restore_from_backup, try_except, bind, ret.
       by destruct (shutil_copy2 _ _ w3) as [[[]|?] ?]. }
  destruct (write_file _ _ w3) as [[[]|e] w4] eqn:Hwrite.
  2: { simpl. unfold _restore_from_backup, try_except, bind, ret.
       by destruct (shutil_copy2 _ _ w4) as [[[]|?] ?]. }
  intros [= <-]. by exists stamp, w1, w2, lines, w3.
Qed.



(** X23.  In the mapping [update_package_files] returns there is an entry
    for [requirements.txt] exactly when that file is there at the start,
    the entry is the flag [update_requirements_txt] returned, and there is
    no entry under any name but [requirements.txt] and [Pipfile]. *)
Theorem update_package_files_entries
    {W : Type} {E : Externals W} {F : Files W} (project : string)
    updates w results w' :
  update_package_files project updates w = (Ret results, w') ->
  (is_Some (results !! "requirements.txt") <->
   path_exists (requirements_file project) w = true) /\
  (forall ok,
     results !! "requirements.txt" = Some ok ->
     exists w1, update_requirements_txt project updates w = (Ret ok, w1)) /\
  forall name, is_Some (results !! name) ->
               name = "requirements.txt" \/ name = "Pipfile".
Proof.
  assert (forall (first : gmap string bool) w1,
            (let! there := exists_ (pipfile project) in
             if there then
               let! ok := update_pipfile project updates in
               ret (<["Pipfile" := ok]> first)
             else ret first) w1 = (Ret results, w') ->
            forall name,
              name <> "Pipfile" -> results !! name = first !! name)
    as Hsecond.
  { intros first w1. unfold exists_, bind at 1.
    destruct (path_exists (pipfile project) w1).
    - unfold bind, ret.
      destruct (update_pipfile project updates w1) as [[ok|e] w2]; [| done].
      intros [= <- _] name Hne. by rewrite lookup_insert_ne.
    - by intros [= <- _]. }
  unfold update_package_files, exists_. unfold bind at 1.
  destruct (path_exists (requirements_file project) w) eqn:Hthere.
  - unfold bind at 1. unfold bind at 1.
    destruct (update_requirements_txt project updates w) as [[ok|e] w1]
      eqn:Hrun; [| done].
    unfold ret at 1. intros Hrest.
    pose proof (Hsecond _ _ Hrest) as Hkeep.
    split; [| split].
    + rewrite Hkeep by done. rewrite lookup_insert_eq. split; eauto.
    + intros ok'. rewrite Hkeep by done. rewrite lookup_insert_eq.
      intros [= <-]. by exists w1.
    + intros name Hname. destruct (decide (name = "Pipfile")); [auto |].
      rewrite Hkeep in Hname by done.
      destruct (decide (name = "requirements.txt")); [auto |].
      rewrite lookup_insert_ne, lookup_empty in Hname by done.
      by destruct Hname.
  - unfold bind at 1. unfold ret at 1. intros Hrest.
    pose proof (Hsecond _ _ Hrest) as Hkeep.
    split; [| split].
    + rewrite Hkeep by done. rewrite lookup_empty. split; [| done].
      by intros [? ?].
    + intros ok. by rewrite Hkeep, lookup_empty.
    + intros name Hname. destruct (decide (name = "Pipfile")); [auto |].
      rewrite Hkeep, lookup_empty in Hname by done. by destruct Hname.
Qed.

Section PipfileRewrite.

Lemma update_pipfile_lines_length updates lines : forall flag,
  length (update_pipfile_lines updates flag lines) = length lines.
Proof.
  induction lines as [|line lines IH]; intros flag; [done |].
  cbn [update_pipfile_lines].
  repeat case_match; rewrite !length_cons; by rewrite IH.
Qed.

Lemma update_pipfile_lines_empty lines : forall flag,
  update_pipfile_lines ∅ flag lines = lines.
Proof.
  induction lines as [|line lines IH]; intros flag; [done |].
  cbn [update_pipfile_lines]. rewrite !IH.
  repeat case_match; done.
Qed.

Lemma update_pipfile_lines_outside updates lines :
  Forall (fun line => strip line <> "[packages]") lines ->
  update_pipfile_lines updates false lines = lines.
Proof.
  induction 1 as [|line lines Hline Hlines IH]; [done |].
  cbn [update_pipfile_lines]. rewrite IH.
  destruct (String.eqb_spec (strip line) "[packages]"); [done |].
  by destruct (startswith "[" (strip line)).
Qed.

Lemma match_pipfile_entry_group line g :
  match_pipfile_entry line = Some g ->
  g = fst (span_until is_spec_char line) /\ g <> "".
Proof.
  unfold match_pipfile_entry.
  destruct (span_until is_spec_char line) as [group1 rest]. simpl.
  destruct group1 as [|c group1]; [done |].
  destruct rest as [|x rest]; [done |].
  destruct (Ascii.eqb x "="); [| done].
  destruct (lstrip rest) as [|q value]; [done |].
  destruct (Ascii.eqb q _); [| done].
  destruct (span_until _ value) as [[|? ?] [|? ?]]; try done.
  by intros [= <-].
Qed.

Lemma rstrip_cons_kept c s :
  rstrip s <> "" -> rstrip (String c s) = String c (rstrip s).
Proof. intros Hs. simpl. by destruct (rstrip s). Qed.

(** The line written for an entry is still the line of that entry. *)
Lemma rewritten_entry_is_stable (updates : gmap string string) line g
    version :
  startswith "[" (strip line) = false ->
  match_pipfile_entry (strip line) = Some g ->
  updates !! strip g = Some version ->
  let entry :=
    strip g +:+ " = " +:+ dquote +:+ version +:+ dquote +:+ nl in
  String.eqb (strip entry) "[packages]" = false /\
  startswith "[" (strip entry) = false /\
  forall g', match_pipfile_entry (strip entry) = Some g' ->
             strip g' = strip g.
Proof.
  intros Hhead Hmatch Hup entry.
  destruct (match_pipfile_entry_group _ _ Hmatch) as [Hg Hne].
  destruct (strip_head line) as [Hnil | (c & r & Hl & Hc)].
  { rewrite Hnil in Hg. by simpl in Hg. }
  rewrite Hl in Hhead, Hg. rewrite startswith_cons1 in Hhead.
  destruct (span_until is_spec_char (String c r)) as [g0 rest] eqn:Hspan.
  simpl in Hg. subst g0.
  destruct (span_until_head _ _ _ _ _ Hspan Hne) as [g1 ->].
  pose proof (span_until_fst is_spec_char (String c r)) as Hplain.
  rewrite Hspan in Hplain. simpl fst in Hplain.
  set (name := strip (String c g1)) in *.
  assert (name = String c (rstrip g1)) as Hname.
  { unfold name, strip.
    by rewrite (lstrip_head_id _ _ Hc), (rstrip_cons _ _ Hc). }
  assert (all_chars (fun x => negb (is_spec_char x)) name = true) as Hnplain
    by (by apply strip_all_chars).
  assert (rstrip name = name) as Hrname.
  { unfold name, strip. apply rstrip_idem. }
  assert (exists tail,
            strip entry = (name +:+ " ") +:+ String "=" tail) as [tail Hentry].
  { unfold strip.
    assert (lstrip entry = entry) as ->.
    { unfold entry. rewrite Hname, append_cons. by apply lstrip_head_id. }
    unfold entry.
    change (" = " +:+ dquote +:+ version +:+ dquote +:+ nl)
      with (String " " (String "="
              (" " +:+ dquote +:+ version +:+ dquote +:+ nl))).
    set (after := " " +:+ dquote +:+ version +:+ dquote +:+ nl).
    assert (rstrip (String "=" after) = String "=" (rstrip after)) as Heq
      by (by apply rstrip_cons).
    rewrite rstrip_app_kept.
    - rewrite rstrip_cons_kept by (by rewrite Heq). rewrite Heq.
      exists (rstrip after). by rewrite append_assoc.
    - rewrite rstrip_cons_kept by (by rewrite Heq). done. }
  assert (exists body, strip entry = String c body) as [body Hbody].
  { rewrite Hentry, Hname, !append_cons. eauto. }
  repeat split.
  - rewrite Hbody. apply String.eqb_neq. intros [= ->]. done.
  - by rewrite Hbody, startswith_cons1.
  - intros g' Hg'.
    destruct (match_pipfile_entry_group _ _ Hg') as [-> _].
    rewrite Hentry, span_until_app; [| | done].
    2: { by rewrite all_chars_app, Hnplain. }
    simpl fst. unfold strip.
    assert (lstrip (name +:+ " ") = name +:+ " ") as ->.
    { rewrite Hname, append_cons. by apply lstrip_head_id. }
    by rewrite rstrip_app_spaces.
Qed.

Lemma update_pipfile_lines_idem updates lines : forall flag,
  update_pipfile_lines updates flag
    (update_pipfile_lines updates flag lines)
  = update_pipfile_lines updates flag lines.
Proof.
  induction lines as [|line lines IH]; intros flag; [done |].
  cbn [update_pipfile_lines].
  destruct (String.eqb (strip line) "[packages]") eqn:Hpackages.
  { cbn [update_pipfile_lines]. by rewrite Hpackages, IH. }
  destruct (startswith "[" (strip line)) eqn:Hsection.
  { cbn [update_pipfile_lines]. by rewrite Hpackages, Hsection, IH. }
  destruct flag.
  2: { cbn [update_pipfile_lines]. by rewrite Hpackages, Hsection, IH. }
  destruct (match_pipfile_entry (strip line)) as [g|] eqn:Hmatch.
  2: { cbn [update_pipfile_lines].
       by rewrite Hpackages, Hsection, Hmatch, IH. }
  destruct (updates !! strip g) as [version|] eqn:Hup.
  2: { cbn [update_pipfile_lines].
       by rewrite Hpackages, Hsection, Hmatch, Hup, IH. }
  destruct (rewritten_entry_is_stable updates line g version
              Hsection Hmatch Hup) as (Hp & Hs & Hg).
  cbn [update_pipfile_lines]. rewrite Hp, Hs, IH.
  destruct (match_pipfile_entry (strip (strip g +:+ _)))
    as [g'|] eqn:Hmatch'; [| done].
  by rewrite (Hg g' eq_refl), Hup.
Qed.

End PipfileRewrite.

(** X22.  Rewriting the lines of a Pipfile keeps the number of lines, and
    changes none of them when there are no updates or when no line is the
    [[packages]] header. *)
Theorem update_pipfile_lines_untouched updates lines :
  length (update_pipfile_lines updates false lines) = length lines /\
  update_pipfile_lines ∅ false lines = lines /\
  (Forall (fun line => strip line <> "[packages]") lines ->
   update_pipfile_lines updates false lines = lines).
Proof.
  split; [apply update_pipfile_lines_length |].
  split; [apply update_pipfile_lines_empty |].
  apply update_pipfile_lines_outside.
Qed.

(** X24.  Rewriting the lines of a Pipfile is idempotent: a second pass with
    the same updates changes nothing. *)
Theorem update_pipfile_lines_idempotent updates lines :
  update_pipfile_lines updates false
    (update_pipfile_lines updates false lines)
  = update_pipfile_lines updates false lines.
Proof. apply update_pipfile_lines_idem. Qed.

Section Discovery.
Context {W : Type} {E : Externals W} (P : Project).

Lemma endswith_cons p c s :
  endswith p s = true -> endswith p (String c s) = true.
Proof.
  unfold endswith. intros [Hlen Heq]%andb_prop.
  apply Nat.leb_le in Hlen. apply andb_true_intro. split.
  - apply Nat.leb_le. simpl. lia.
  - replace (String.length (String c s) - String.length p)%nat
      with (S (String.length s - String.length p))
      by (simpl; lia).
    done.
Qed.

Lemma endswith_app p r s :
  endswith p s = true -> endswith p (r +:+ s) = true.
Proof.
  intros Hs. induction r as [|c r IH]; [done |].
  rewrite append_cons. by apply endswith_cons.
Qed.

Lemma test_name_is_not_dunder filename :
  startswith "test_" filename = true -> startswith "__" filename = false.
Proof.
  destruct filename as [|c r]; [done |].
  cbn [startswith]. intros [Hc _]%andb_prop.
  apply Ascii.eqb_eq in Hc as <-. reflexivity.
Qed.

Lemma test_name_is_relative filename :
  startswith "test_" filename = true -> startswith "/" filename = false.
Proof.
  destruct filename as [|c r]; [done |].
  cbn [startswith]. intros [Hc _]%andb_prop.
  apply Ascii.eqb_eq in Hc as <-. reflexivity.
Qed.

(** X25.  The third test of [is_test_file] never decides: a name that starts
    with [test_] cannot start with two underscores, so a file is a test file
    exactly when its name starts with [test_] and ends with [.py]. *)
Theorem is_test_file_ignores_dunder_check filename :
  is_test_file filename
  = startswith "test_" filename && endswith ".py" filename.
Proof.
  unfold is_test_file.
  destruct (startswith "test_" filename) eqn:Hstart; [| done].
  rewrite (test_name_is_not_dunder _ Hstart). simpl.
  by rewrite andb_true_r.
Qed.

(** X26.  Every path that [find_test_files] returns ends with [.py] and is
    a directory of the walk followed, with or without a slash in between,
    by one of its files whose name starts with [test_]; the file name is
    never taken as an absolute path. *)
Theorem discovered_paths_are_test_files w paths w' :
  find_test_files P w = (Ret paths, w') ->
  exists walked,
    os_walk (project_path P) w = (Ret walked, w') /\
    forall path, path ∈ paths ->
      endswith ".py" path = true /\
      exists root files file,
        (root, files) ∈ walked /\ file ∈ files /\
        startswith "test_" file = true /\
        (path = root +:+ file \/ path = root +:+ "/" +:+ file).
Proof.
  unfold find_test_files, bind. intros Hrun.
  destruct (os_walk (project_path P) w) as [[walked|e] w1]; [| done].
  injection Hrun as <- <-. exists walked. split; [done |].
  intros path Hpath%list_elem_of_In.
  apply in_flat_map in Hpath as ([root files] & Hin & Hpath).
  apply in_map_iff in Hpath as (file & <- & Hfile).
  apply filter_In in Hfile as [Hfile Htest].
  unfold is_test_file in Htest.
  apply andb_prop in Htest as [[Hstart Hpy]%andb_prop _].
  assert (os_path_join root file = root +:+ file \/
          os_path_join root file = root +:+ "/" +:+ file) as Hjoin.
  { unfold os_path_join. rewrite (test_name_is_relative _ Hstart).
    destruct (_ || _); [by left | by right]. }
  split.
  - destruct Hjoin as [-> | ->].
    + by apply endswith_app.
    + apply endswith_app. by apply (endswith_app _ "/").
  - exists root, files, file.
    by rewrite !list_elem_of_In.
Qed.

End Discovery.

(** * The further properties on the small worlds *)

Section FurtherDemoFacts.

Lemma demo_lt_asym (a b : nat) :
  Nat.ltb a b = true -> Nat.ltb b a = false.
Proof. rewrite Nat.ltb_lt, Nat.ltb_ge. lia. Qed.

Lemma demo_le_trans (a b c : nat) :
  Nat.ltb b a = false -> Nat.ltb c b = false -> Nat.ltb c a = false.
Proof. rewrite !Nat.ltb_ge. lia. Qed.

Lemma demo_ge_lt (a b : nat) : Nat.leb b a = negb (Nat.ltb a b).
Proof. apply Nat.leb_antisym. Qed.

Lemma demo_unlink_removes w0 w1 :
  Demo.demo_unlink Demo.temp_path w0 = (Ret tt, w1) ->
  Demo.demo_exists Demo.temp_path w1 = false.
Proof. destruct w0 as [v|]; [| done]. by intros [= <-]. Qed.

Lemma demo_project_plain :
  NoDup (dict_keys (current_packages Demo.project)) /\
  Forall plain_requirement (current_packages Demo.project).
Proof.
  split; [apply (bool_decide_unpack _); by vm_compute |].
  repeat constructor; try done.
Qed.

End FurtherDemoFacts.

Lemma parse_requirements_txt_names_witness :
  parse_requirements_txt Demo.manifest_with_loose
  = Ret [("demo", Some "1.0.0"); ("loose", None)] /\
  all_chars name_char "loose" = true.
Proof.
  split; [vm_compute; reflexivity |].
  apply (parse_requirements_txt_names Demo.manifest_with_loose
           [("demo", Some "1.0.0"); ("loose", None)]
           ltac:(vm_compute; reflexivity)).
  right. by left.
Defined.

Lemma requirements_file_round_trip_witness :
  NoDup (dict_keys (current_packages Demo.project)) /\
  parse_requirements_txt
    (map file_line ["helper==0.3"; "demo==1.0.0"])
  = Ret [("helper", Some "0.3"); ("demo", Some "1.0.0")].
Proof.
  split; [apply demo_project_plain |].
  exact (requirements_file_round_trip (current_packages Demo.project)
           (proj1 demo_project_plain) (proj2 demo_project_plain)).
Defined.

Lemma candidates_are_releases_witness :
  get_version_range (E := Demo.externals Demo.healthy)
    (Pk := Demo.packaging) "demo" "1.0.0" "1.2.0" None
  = (Ret ["1.0.0"; "1.1.0"; "1.2.0"], None) /\
  NoDup ["1.0.0"; "1.1.0"; "1.2.0"].
Proof.
  split; [vm_compute; reflexivity |].
  apply (candidates_are_releases (E := Demo.externals Demo.healthy)
           (Pk := Demo.packaging) "demo" "1.0.0" "1.2.0" None
           ["1.0.0"; "1.1.0"; "1.2.0"] None
           ltac:(vm_compute; reflexivity)).
  apply demo_releases_distinct.
Defined.

Lemma candidates_are_ascending_witness :
  StronglySorted (not_above (Pk := Demo.packaging))
    ["1.0.0"; "1.1.0"; "1.2.0"].
Proof.
  exact (candidates_are_ascending (E := Demo.externals Demo.healthy)
           (Pk := Demo.packaging) "demo" "1.0.0" "1.2.0" None
           ["1.0.0"; "1.1.0"; "1.2.0"] None
           demo_lt_asym demo_le_trans ltac:(vm_compute; reflexivity)).
Defined.

Lemma unparsable_release_empties_candidates_witness :
  version_parse (Packaging := PickyDemo.packaging) "1.1.0" = None /\
  get_version_range (E := Demo.externals Demo.healthy)
    (Pk := PickyDemo.packaging) "demo" "1.0.0" "1.2.0" None
  = (Ret [], None).
Proof.
  split; [reflexivity |].
  apply (unparsable_release_empties_candidates
           (E := Demo.externals Demo.healthy) (Pk := PickyDemo.packaging)
           "demo" "1.0.0" "1.2.0" None
           {| status_code := 200;
              json_info_version := Ret (Some "1.2.0");
              json_releases_keys := Ret ["1.2.0"; "1.0.0"; "1.1.0"] |}
           None ["1.2.0"; "1.0.0"; "1.1.0"] "1.1.0");
    try reflexivity.
  right. right. by left.
Defined.

Lemma candidates_stop_at_latest_witness :
  Forall (fun v => strictly_below (Pk := Demo.packaging) v "1.2.0")
    ["1.0.0"; "1.1.0"].
Proof.
  exact (candidates_stop_at_latest (E := Demo.externals Demo.healthy)
           (Pk := Demo.packaging) "demo" "1.0.0" "1.2.0" None
           ["1.0.0"; "1.1.0"; "1.2.0"] None ["1.0.0"; "1.1.0"] "1.2.0"
           ltac:(vm_compute; reflexivity) eq_refl).
Defined.

Lemma candidates_reach_current_witness :
  get_version_range (E := Demo.externals Demo.healthy)
    (Pk := Demo.packaging) "demo" "1.1.0" "1.2.0" None
  = (Ret ["1.1.0"; "1.2.0"], None) /\
  Forall (fun v => reaches (Pk := Demo.packaging) v "1.1.0")
    ["1.1.0"; "1.2.0"].
Proof.
  split; [vm_compute; reflexivity |].
  apply (candidates_reach_current (E := Demo.externals Demo.healthy)
           (Pk := Demo.packaging) "demo" "1.1.0" "1.2.0" None
           ["1.1.0"; "1.2.0"] None
           {| status_code := 200;
              json_info_version := Ret (Some "1.2.0");
              json_releases_keys := Ret ["1.2.0"; "1.0.0"; "1.1.0"] |}
           ["1.2.0"; "1.0.0"; "1.1.0"] "1.1.0"
           demo_ge_lt demo_lt_asym demo_le_trans);
    try (vm_compute; reflexivity).
  - right. right. by left.
  - by exists 110%nat, 110%nat.
Defined.

Lemma setup_certifies_baseline_witness :
  setup_test_environment (E := Demo.externals Demo.healthy) Demo.project
    None
  = (Ret true,
     Some {| Demo.packages := Demo.Baseline; Demo.temp_file := false |}) /\
  exists w1 w2 installed,
    create_virtual_environment (E := Demo.externals Demo.healthy)
      Demo.project None = (Ret true, w1) /\
    install_requirements (E := Demo.externals Demo.healthy) Demo.project
      (current_packages Demo.project) w1 = (Ret true, w2) /\
    get_installed_packages (E := Demo.externals Demo.healthy) Demo.project
      w2
    = (Ret installed,
       Some {| Demo.packages := Demo.Baseline; Demo.temp_file := false |}) /\
    forall package version,
      (package, version) ∈ current_packages Demo.project ->
      lower package ∈ lower_keys installed /\
      (truthy version = true -> installed !! package = version).
Proof.
  split; [vm_compute; reflexivity |].
  apply (setup_certifies_baseline (E := Demo.externals Demo.healthy)
           Demo.project None).
  vm_compute. reflexivity.
Defined.

Lemma install_requirements_removes_temp_file_witness :
  let run :=
    install_requirements (E := Demo.externals Demo.healthy) Demo.project
      (current_packages Demo.project)
      (Some {| Demo.packages := Demo.Fresh; Demo.temp_file := false |}) in
  fst run = Ret true /\
  Demo.demo_exists Demo.temp_path (snd run) = false.
Proof.
  intros run. split; [vm_compute; reflexivity |].
  destruct (install_requirements_removes_temp_file
              (E := Demo.externals Demo.healthy) Demo.project
              (current_packages Demo.project)
              (Some {| Demo.packages := Demo.Fresh;
                       Demo.temp_file := false |})
              (fst run) (snd run) demo_unlink_removes
              (surjective_pairing run))
    as [Hgone | (w0 & e & _ & Hraise)].
  - exact Hgone.
  - vm_compute in Hraise. discriminate.
Defined.

Lemma test_package_update_result_witness :
  exists r w',
    test_package_update (E := Demo.externals Demo.healthy) Demo.project
      "demo" "1.2.0"
      (Some {| Demo.packages := Demo.Baseline; Demo.temp_file := false |})
    = (Ret r, w') /\
    new_version r = "1.2.0" /\
    (success r = true <-> error_message r = None) /\
    (success r = true -> is_Some (test_output r)).
Proof.
  destruct (test_package_update (E := Demo.externals Demo.healthy)
              Demo.project "demo" "1.2.0"
              (Some {| Demo.packages := Demo.Baseline;
                       Demo.temp_file := false |}))
    as [[r|e] w'] eqn:Hrun; [| vm_compute in Hrun; discriminate].
  exists r, w'. split; [reflexivity |].
  exact (test_package_update_result (E := Demo.externals Demo.healthy)
           Demo.project "demo" "1.2.0" _ r w' Hrun).
Defined.

Lemma all_failed_means_all_in_ledger_witness :
  exists status w',
    find_compatible_update (E := Demo.externals Demo.untested)
      (Pk := Demo.packaging) Demo.project "demo" None = (Ret status, w') /\
    (forall v reason,
       failed_versions status !! v = Some reason -> is_Some reason) /\
    (compatible_version status = None ->
     forall v, v ∈ tested_versions status ->
               exists message,
                 failed_versions status !! v = Some (Some message)).
Proof.
  destruct (find_compatible_update (E := Demo.externals Demo.untested)
              (Pk := Demo.packaging) Demo.project "demo" None)
    as [[status|e] w'] eqn:Hrun; [| vm_compute in Hrun; discriminate].
  exists status, w'. split; [reflexivity |].
  exact (all_failed_means_all_in_ledger (E := Demo.externals Demo.untested)
           (Pk := Demo.packaging) Demo.project "demo" None status w' Hrun).
Defined.

Lemma compatible_version_is_never_current_witness :
  exists status w',
    find_compatible_update (E := Demo.externals Demo.healthy)
      (Pk := Demo.packaging) Demo.project "demo" None = (Ret status, w') /\
    compatible_version status <> Some (current_version status).
Proof.
  destruct (find_compatible_update (E := Demo.externals Demo.healthy)
              (Pk := Demo.packaging) Demo.project "demo" None)
    as [[status|e] w'] eqn:Hrun; [| vm_compute in Hrun; discriminate].
  exists status, w'. split; [reflexivity |].
  exact (compatible_version_is_never_current
           (E := Demo.externals Demo.healthy) (Pk := Demo.packaging)
           Demo.project "demo" None status w' Hrun).
Defined.

Lemma updates_are_tested_versions_witness :
  let run :=
    update_all_packages (E := Demo.externals Demo.healthy)
      (Pk := Demo.packaging) Demo.project None in
  let results :=
    match fst run with
    | Ret results => results
    | Raise _ => ∅
    end in
  filter_updates (collect_updates results) (Some ["demo"]) !! "demo"
  = Some "1.1.0" /\
  exists status,
    results !! "demo" = Some status /\
    compatible_version status = Some "1.1.0" /\
    "1.1.0" <> current_version status /\
    "1.1.0" ∈ tested_versions status /\
    failed_versions status !! "1.1.0" = None.
Proof.
  intros run results.
  assert (filter_updates (collect_updates results) (Some ["demo"]) !! "demo"
          = Some "1.1.0") as Hupdate by (vm_compute; reflexivity).
  split; [exact Hupdate |].
  apply (updates_are_tested_versions (E := Demo.externals Demo.healthy)
           (Pk := Demo.packaging) Demo.project None results (snd run)
           (Some ["demo"]) "demo" "1.1.0"
           (demo_releases_distinct Demo.healthy));
    [vm_compute; reflexivity | exact Hupdate].
Defined.

Lemma rewritten_manifest_reads_back_witness :
  update_requirement_lines {["demo" := "1.1.0"]}
    (map file_line ["helper==0.3"; "demo==1.0.0"])
  = ["helper==0.3"; "demo==1.1.0"] /\
  parse_requirements_txt
    (map file_line
       (update_requirement_lines {["demo" := "1.1.0"]}
          (map file_line ["helper==0.3"; "demo==1.0.0"])))
  = Ret [("helper", Some "0.3"); ("demo", Some "1.1.0")].
Proof.
  split; [vm_compute; reflexivity |].
  assert (forall name version,
            ({["demo" := "1.1.0"]} : gmap string string) !! name
            = Some version ->
            version <> "" /\ all_chars plain_char version = true)
    as Hversions.
  { intros name version [<- <-]%lookup_singleton_Some. by split. }
  exact (rewritten_manifest_reads_back {["demo" := "1.1.0"]}
           (current_packages Demo.project)
           (proj1 demo_project_plain) (proj2 demo_project_plain)
           Hversions).
Defined.

Lemma update_requirements_txt_success_witness :
  let run :=
    update_requirements_txt (E := FilesDemo.externals)
      (F := FilesDemo.files FilesDemo.sound) "proj" FilesDemo.updates
      FilesDemo.with_manifest in
  fst run = Ret true /\
  exists lines w3,
    read_lines (Files := FilesDemo.files FilesDemo.sound)
      "proj/requirements.txt"
      (dict_set FilesDemo.with_manifest
         "proj/requirement_backups/requirements.txt.20240101_120000.bak"
         FilesDemo.manifest_text) = (Ret lines, w3) /\
    write_file (Files := FilesDemo.files FilesDemo.sound)
      "proj/requirements.txt"
      (join_lines (update_requirement_lines FilesDemo.updates lines)
       +:+ nl) w3 = (Ret tt, snd run).
Proof.
  intros run. split; [vm_compute; reflexivity |].
  destruct (update_requirements_txt_success (E := FilesDemo.externals)
              (F := FilesDemo.files FilesDemo.sound) "proj"
              FilesDemo.updates FilesDemo.with_manifest (snd run)
              ltac:(vm_compute; reflexivity))
    as (_ & stamp & w1 & w2 & lines & w3 & Hnow & Hcopy & Hread & Hwrite).
  injection Hnow as <- <-.
  vm_compute in Hcopy. injection Hcopy as <-.
  exists lines, w3. split; [exact Hread | exact Hwrite].
Defined.



Lemma update_package_files_entries_witness :
  let run :=
    update_package_files (E := FilesDemo.externals)
      (F := FilesDemo.files FilesDemo.sound) "proj" FilesDemo.updates
      FilesDemo.with_manifest in
  fst run = Ret {["requirements.txt" := true]} /\
  path_exists (Externals := FilesDemo.externals) "proj/requirements.txt"
    FilesDemo.with_manifest = true /\
  exists w1,
    update_requirements_txt (E := FilesDemo.externals)
      (F := FilesDemo.files FilesDemo.sound) "proj" FilesDemo.updates
      FilesDemo.with_manifest = (Ret true, w1).
Proof.
  intros run. split; [vm_compute; reflexivity |].
  assert (run = (Ret ({["requirements.txt" := true]} : gmap string bool),
                 snd run)) as Hrun by (vm_compute; reflexivity).
  destruct (update_package_files_entries (E := FilesDemo.externals)
              (F := FilesDemo.files FilesDemo.sound) "proj"
              FilesDemo.updates FilesDemo.with_manifest _ _ Hrun)
    as (Hthere & Hflag & _).
  split; [apply Hthere; by eexists |].
  apply Hflag. reflexivity.
Defined.

Lemma discovered_paths_are_test_files_witness :
  find_test_files (E := Demo.externals Demo.healthy) Demo.project None
  = (Ret ["proj/tests/test_sample.py"], None) /\
  endswith ".py" "proj/tests/test_sample.py" = true.
Proof.
  split; [vm_compute; reflexivity |].
  destruct (discovered_paths_are_test_files
              (E := Demo.externals Demo.healthy) Demo.project None
              ["proj/tests/test_sample.py"] None
              ltac:(vm_compute; reflexivity)) as (walked & _ & Hpaths).
  apply Hpaths. by left.
Defined.
